(** * The multi-lifetime app worker of vscode-react-native

    A shallow embedding of [src/debugger/appWorker.ts]: the class
    [MultipleLifetimesAppWorker], which keeps a WebSocket to the packager's
    debugger proxy and at most one forked sandbox (a "worker lifetime").

    The class is callback driven.  Its synchronous method bodies are written
    in a small state-and-exception monad over the fields of the object; the
    promise chains and event listeners become pending tasks that an event
    delivers later.  Every call the class makes on a collaborator (logger,
    socket, worker, file system, timers) is recorded, in order, in a trace. *)

From Stdlib Require Import ZArith QArith String Ascii List Bool Lia.
From Stdlib Require Import DecimalString.
From stdpp Require Import base option list strings gmap.

Local Open Scope Z_scope.
Local Open Scope string_scope.
Local Open Scope list_scope.

(** ** The script constants of the class *)

Definition dquote : string := String (ascii_of_nat 34) EmptyString.
Definition newline : string := String (ascii_of_nat 10) EmptyString.

Definition WORKER_BOOTSTRAP : string :=
  "
// Initialize some variables before react-native code would access them
var onmessage=null, self=global;
// Cache Node's original require as __debug__.require
global.__debug__={require: require};
// avoid Node's GLOBAL deprecation warning
Object.defineProperty(global, " +:+ dquote +:+ "GLOBAL" +:+ dquote +:+ ", {
    configurable: true,
    writable: true,
    enumerable: true,
    value: global
});
// Prevent leaking process.versions from debugger process to
// worker because pure React Native doesn't do that and some packages as js-md5 rely on this behavior
Object.defineProperty(process, " +:+ dquote +:+ "versions" +:+ dquote +:+ ", {
    value: undefined
});

function getNativeModules() {
    var NativeModules;
    try {
        // This approach is for old RN versions
        NativeModules = global.require('NativeModules');
    } catch (err) {
        // ignore error and try another way for more recent RN versions
        try {
            var nativeModuleId;
            var modules = global.__r.getModules();
            var ids = Object.keys(modules);
            for (var i = 0; i < ids.length; i++) {
              if (modules[ids[i]].verboseName) {
                 var packagePath = new String(modules[ids[i]].verboseName);
                 if (packagePath.indexOf(" +:+ dquote +:+ "react-native/Libraries/BatchedBridge/NativeModules.js" +:+ dquote +:+ ") > 0) {
                   nativeModuleId = parseInt(ids[i], 10);
                   break;
                 }
              }
            }
          if (nativeModuleId) {
            NativeModules = global.__r(nativeModuleId);
          }
        }
        catch (err) {
            // suppress errors
        }
    }
    return NativeModules;
}

// Originally, this was made for iOS only
var vscodeHandlers = {
    'vscode_reloadApp': function () {
        var NativeModules = getNativeModules();
        if (NativeModules) {
            NativeModules.DevMenu.reload();
        }
    },
    'vscode_showDevMenu': function () {
        var NativeModules = getNativeModules();
        if (NativeModules) {
            NativeModules.DevMenu.show();
        }
    }
};

process.on(" +:+ dquote +:+ "message" +:+ dquote +:+ ", function (message) {
    if (message.data && vscodeHandlers[message.data.method]) {
        vscodeHandlers[message.data.method]();
    } else if(onmessage) {
        onmessage(message);
    }
});

var postMessage = function(message){
    process.send(message);
};

if (!self.postMessage) {
    self.postMessage = postMessage;
}

var importScripts = (function(){
    var fs=require('fs'), vm=require('vm');
    return function(scriptUrl){
        var scriptCode = fs.readFileSync(scriptUrl, " +:+ dquote +:+ "utf8" +:+ dquote +:+ ");
        vm.runInThisContext(scriptCode, {filename: scriptUrl});
    };
})();".

Definition CONSOLE_TRACE_PATCH : string :=
  "// Worker is ran as nodejs process, so console.trace() writes to stderr and it leads to error in native app
// To avoid this console.trace() is overridden to print stacktrace via console.log()
// Please, see Node JS implementation: https://github.com/nodejs/node/blob/master/lib/internal/console/constructor.js
console.trace = (function() {
    return function() {
        try {
            var err = {
                name: 'Trace',
                message: require('util').format.apply(null, arguments)
                };
            // Node uses 10, but usually it's not enough for RN app trace
            Error.stackTraceLimit = 30;
            Error.captureStackTrace(err, console.trace);
            console.log(err.stack);
        } catch (e) {
            console.error(e);
        }
    };
})();".

Definition NODE_PROCESS_FINDING_PATCH : string :=
  "// Worker is ran as nodejs process, so in some cases it tries to run metroRequire in nodejs context and it leads to error in native app
// To avoid this need to hide an attributes which can issue a nodejs process in debugger worker
var objectToString = Object.prototype.toString;
Object.prototype.toString = function() {
    if (this === process) {
        return '';
    } else {
        return objectToString.call(this);
    }
}
".

Definition WORKER_DONE : string :=
  "// Notify debugger that we're done with loading
// and started listening for IPC messages
postMessage({workerLoaded:true});".

Definition FETCH_STUB : string :=
  "(function(self) {
        'use strict';

        if (self.fetch) {
          return
        }

        self.fetch = fetch;

        function fetch(url) {
            return new Promise((resolve, reject) => {
                var data = require(" +:+ dquote +:+ "fs" +:+ dquote +:+ ").readFileSync(url, 'utf8');
                resolve(
                    {
                        text: function () {
                            return data;
                        }
                    });
            });
        }
      })(global);".

(** [modifiedDebuggeeContent] of [downloadAndPatchDebuggerWorker]: the array
    literal holds [null] in the fourth slot when the project is not a Haul
    project, and [Array.prototype.join] writes [null] as the empty string. *)
Definition Array_join (separator : string) (elements : list (option string)) : string :=
  String.concat separator (map (default "") elements).

Definition modifiedDebuggeeContent (isHaulProject : bool) (workerContent : string) : string :=
  Array_join newline
    [ Some WORKER_BOOTSTRAP;
      Some CONSOLE_TRACE_PATCH;
      Some NODE_PROCESS_FINDING_PATCH;
      (if isHaulProject then Some FETCH_STUB else None);
      Some workerContent;
      Some WORKER_DONE ].

(** The composition as the specification words it: the pieces that are
    included, joined by newlines. *)
Definition spec_bootstrap_script (isHaulProject : bool) (workerContent : string) : string :=
  String.concat newline
    ([WORKER_BOOTSTRAP; CONSOLE_TRACE_PATCH; NODE_PROCESS_FINDING_PATCH]
       ++ (if isHaulProject then [FETCH_STUB] else [])
       ++ [workerContent; WORKER_DONE]).

(** ** JavaScript values *)

(** What [JSON.parse] can return.  A number is the double that [JSON.parse]
    returns, kept by its exact value (a literal with more digits than a
    double holds is rounded before the class sees it); an object lists its
    own properties, each key once. *)
#[warnings="-register-all"]
Inductive json : Type :=
| JNull
| JBool (b : bool)
| JNumber (q : Q)
| JString (s : string)
| JArray (elements : list json)
| JObject (properties : list (string * json)).

Fixpoint assoc (key : string) (properties : list (string * json)) : option json :=
  match properties with
  | [] => None
  | (k, v) :: rest => if String.eqb k key then Some v else assoc key rest
  end.

Inductive InternalErrorCode : Set :=
| SourcesStoragePathIsNullOrEmpty
| CannotAttachToPackagerCheckPackagerRunningOnPort
| AnotherDebuggerConnectedToPackager
| ReconnectionToPackagerFailedCheckForErrorsOrRestartReactNative
| FailedToProcessMessageFromReactNativeApp
| FailedToPrepareJSRuntimeEnvironment
| FailedToSendMessageToTheReactNativeApp
| DebuggingWontWorkReloadJSAndReconnect.

(** The argument given to [ErrorHelper.getInternalError]. *)
Inductive ErrorArgument : Type :=
| NoArgument
| PortArgument (port : Z)
| TextArgument (text : string)
| ObjectArgument (object : json).

Section Values.

(** [any]: the values the class only passes along (what the sandbox posts,
    the payload of a finished start, the errors others raise). *)
Variable any : Type.

Inductive Error : Type :=
| InternalError (code : InternalErrorCode) (argument : ErrorArgument)
| NestedError (inner : Error) (code : InternalErrorCode) (reason : Error)
| SyntaxError (text : string)
| TypeError
| Raised (value : any).

(** The result of running a piece of JavaScript: it returns or it throws. *)
Inductive Completion (A : Type) : Type :=
| Normal (value : A)
| Throw (exception : Error).

(** The argument of [sendMessageToApp]: the acknowledgement
    [{ replyID: n }], where [None] is [NaN], or a message of the sandbox. *)
Inductive Payload : Type :=
| ReplyID (n : option Q)
| FromWorker (message : any).

(** [JSON.stringify] returns text, returns [undefined], or throws. *)
Inductive Stringified : Type :=
| Text (s : string)
| Undefined
| StringifyThrows (exception : any).

(** The calls the class makes on its collaborators.  Sockets and workers are
    named by the order of their construction. *)
Inductive Effect : Type :=
| LoggerVerbose (text : string)
| LoggerLog (text : string)
| LoggerError (error : Error)
| EnsurePackagerRunning (address : string) (port : Z) (error : Error)
| DownloadDebuggerWorker (sourcesStoragePath projectRootPath : string)
    (debuggerWorkerUrlPath : option string)
| ReadFile (path : string)
| WriteFile (path content : string)
| NewWebSocket (socket : nat) (url : string)
| SocketSend (socket : nat) (data : option string)
| SocketRemoveAllListeners (socket : nat)
| SocketClose (socket : nat)
| NewForkedAppWorker (worker : nat)
| WorkerStart (worker : nat)
| WorkerStop (worker : nat)
| WorkerPostMessage (worker : nat) (message : json)
| Emit (event : string) (payload : any)
| SetTimeout (milliseconds : Z)
| QDelay (milliseconds : Z).

End Values.

Arguments InternalError {any}.
Arguments NestedError {any}.
Arguments SyntaxError {any}.
Arguments TypeError {any}.
Arguments Raised {any}.
Arguments Normal {any A}.
Arguments Throw {any A}.
Arguments ReplyID {any}.
Arguments FromWorker {any}.
Arguments Text {any}.
Arguments Undefined {any}.
Arguments StringifyThrows {any}.
Arguments LoggerVerbose {any}.
Arguments LoggerLog {any}.
Arguments LoggerError {any}.
Arguments EnsurePackagerRunning {any}.
Arguments DownloadDebuggerWorker {any}.
Arguments ReadFile {any}.
Arguments WriteFile {any}.
Arguments NewWebSocket {any}.
Arguments SocketSend {any}.
Arguments SocketRemoveAllListeners {any}.
Arguments SocketClose {any}.
Arguments NewForkedAppWorker {any}.
Arguments WorkerStart {any}.
Arguments WorkerStop {any}.
Arguments WorkerPostMessage {any}.
Arguments Emit {any}.
Arguments SetTimeout {any}.
Arguments QDelay {any}.

(** [object.key] for the two keys the class reads, [method] and [id], which
    no built-in prototype defines: an own property of an object, [undefined]
    ([None]) on any other value, and a [TypeError] on [null]. *)
Definition get_property {any} (object : json) (key : string) : Completion any (option json) :=
  match object with
  | JNull => Throw TypeError
  | JObject properties => Normal (assoc key properties)
  | _ => Normal None
  end.

(** [value === literal] for a string literal. *)
Definition strict_equals (value : option json) (literal : string) : bool :=
  match value with
  | Some (JString s) => String.eqb s literal
  | _ => false
  end.

(** The truth value JavaScript gives a condition. *)
Definition truthy (value : option json) : bool :=
  match value with
  | None | Some JNull => false
  | Some (JBool b) => b
  | Some (JNumber q) => negb (Qeq_bool q 0)
  | Some (JString s) => negb (String.eqb s "")
  | Some (JArray _) | Some (JObject _) => true
  end.

(** A number prints in plain decimal notation when it is zero or its
    magnitude lies in [1e-6, 1e21). *)
Definition decimal_notation (q : Q) : bool :=
  Qeq_bool q 0
  || ((Zpos (Qden q) <=? Z.abs (Qnum q) * 10 ^ 6)%Z
      && (Z.abs (Qnum q) <? 10 ^ 21 * Zpos (Qden q))%Z).

(** ** What the JavaScript runtime and the absent modules provide *)

Class Runtime : Type := {
  any : Type;
  (** [JSON.parse]; [None] when it throws its [SyntaxError]. *)
  JSON_parse : string -> option json;
  JSON_stringify : Payload any -> Stringified any;
  (** The string concatenation [("" + message)], taken to return. *)
  toString : Payload any -> string;
  (** [parseInt(value, 10)] where the text of the value is not a number in
      plain decimal notation; [None] is [NaN]. *)
  parseInt_text : option json -> option Z;
  (** How [socketToApp.send] ends, by what the class has done so far (the
      send included): [None] when it returns, the exception when it throws. *)
  ws_send : list (Effect any) -> option any;
  (** How [socketToApp.close] ends, by what the class has done so far (the
      close included): [None] when it returns, the exception when it throws.
      The socket library emits [error] from [close] on a socket that is
      still connecting; with no listener of [error] left, the emit throws. *)
  ws_close : list (Effect any) -> option any;
  (** [ReactNativeProjectHelper.isHaulProject] *)
  isHaulProject : string -> bool;
  (** [path.resolve(sourcesStoragePath, ScriptImporter.DEBUGGER_WORKER_FILENAME)] *)
  scriptToRunPath : string -> string
}.

(** [parseInt(value, 10)] reads the integer that starts the text of the
    value.  For a number in plain decimal notation that is the number
    truncated toward zero. *)
Definition parseInt `{Runtime} (value : option json) : option Z :=
  match value with
  | Some (JNumber q) =>
      if decimal_notation q then Some (Z.quot (Qnum q) (Zpos (Qden q)))
      else parseInt_text value
  | _ => parseInt_text value
  end.

(** ** The state of the class and of the objects it holds *)

Section Manager.

Context `{rt : Runtime}.

(** A [WebSocket] made by [createSocketToApp]: whether its listeners are
    still registered, the [retryAttempt] and the [deferred] its listeners
    captured, and the close reason the socket library records on it. *)
Record WebSocket : Type := {
  listeners : bool;
  retryAttempt : bool;
  deferred : nat;
  _closeMessage : option string
}.

Inductive PromiseState : Type :=
| Pending
| Fulfilled
| Rejected (reason : Error any).

(** The continuations that wait for a promise or a timer. *)
Inductive Task : Type :=
| AwaitPackager (p : nat) (retry : bool)
| AwaitDownload (p : nat) (retry : bool)
| AwaitReadFile (p : nat) (retry : bool)
| AwaitWriteFile (p : nat) (retry : bool)
| AwaitDelay (p : nat)
| AwaitTimeout
| AwaitWorkerStart (w : nat) (message : json).

(** The fields of [MultipleLifetimesAppWorker]. [executionLimiter] is the
    table of the last run of each rate-limited action, in milliseconds. *)
Record Fields : Type := {
  packagerAddress : string;
  packagerPort : Z;
  sourcesStoragePath : string;
  projectRootPath : string;
  debuggerWorkerUrlPath : option string;
  socketToApp : option nat;
  singleLifetimeWorker : option nat;
  executionLimiter : gmap string Z
}.

(** The object together with what surrounds it: the sockets constructed so
    far, the number of workers constructed, one promise per call of [start],
    the pending continuations and the trace of calls made. *)
Record State : Type := {
  this : Fields;
  sockets : list WebSocket;
  workers : nat;
  promises : list PromiseState;
  tasks : list Task;
  trace : list (Effect any)
}.

Definition set_socketToApp (v : option nat) (f : Fields) : Fields :=
  {| packagerAddress := packagerAddress f; packagerPort := packagerPort f;
     sourcesStoragePath := sourcesStoragePath f; projectRootPath := projectRootPath f;
     debuggerWorkerUrlPath := debuggerWorkerUrlPath f;
     socketToApp := v; singleLifetimeWorker := singleLifetimeWorker f;
     executionLimiter := executionLimiter f |}.

Definition set_singleLifetimeWorker (v : option nat) (f : Fields) : Fields :=
  {| packagerAddress := packagerAddress f; packagerPort := packagerPort f;
     sourcesStoragePath := sourcesStoragePath f; projectRootPath := projectRootPath f;
     debuggerWorkerUrlPath := debuggerWorkerUrlPath f;
     socketToApp := socketToApp f; singleLifetimeWorker := v;
     executionLimiter := executionLimiter f |}.

Definition set_executionLimiter (v : gmap string Z) (f : Fields) : Fields :=
  {| packagerAddress := packagerAddress f; packagerPort := packagerPort f;
     sourcesStoragePath := sourcesStoragePath f; projectRootPath := projectRootPath f;
     debuggerWorkerUrlPath := debuggerWorkerUrlPath f;
     socketToApp := socketToApp f; singleLifetimeWorker := singleLifetimeWorker f;
     executionLimiter := v |}.

Definition with_this (f : Fields -> Fields) (st : State) : State :=
  {| this := f (this st); sockets := sockets st; workers := workers st;
     promises := promises st; tasks := tasks st; trace := trace st |}.

Definition with_sockets (f : list WebSocket -> list WebSocket) (st : State) : State :=
  {| this := this st; sockets := f (sockets st); workers := workers st;
     promises := promises st; tasks := tasks st; trace := trace st |}.

Definition with_workers (f : nat -> nat) (st : State) : State :=
  {| this := this st; sockets := sockets st; workers := f (workers st);
     promises := promises st; tasks := tasks st; trace := trace st |}.

Definition with_promises (f : list PromiseState -> list PromiseState) (st : State) : State :=
  {| this := this st; sockets := sockets st; workers := workers st;
     promises := f (promises st); tasks := tasks st; trace := trace st |}.

Definition with_tasks (f : list Task -> list Task) (st : State) : State :=
  {| this := this st; sockets := sockets st; workers := workers st;
     promises := promises st; tasks := f (tasks st); trace := trace st |}.

Definition with_trace (f : list (Effect any) -> list (Effect any)) (st : State) : State :=
  {| this := this st; sockets := sockets st; workers := workers st;
     promises := promises st; tasks := tasks st; trace := f (trace st) |}.

(** ** The monad of method bodies: state, and exceptions that can be caught *)

Definition M (A : Type) : Type := State -> Completion any A * State.

Definition ret {A} (a : A) : M A := fun st => (Normal a, st).

Definition bind {A B} (m : M A) (k : A -> M B) : M B :=
  fun st =>
    match m st with
    | (Normal a, st') => k a st'
    | (Throw e, st') => (Throw e, st')
    end.

Definition throw {A} (e : Error any) : M A := fun st => (Throw e, st).

Definition try_catch {A} (body : M A) (handler : Error any -> M A) : M A :=
  fun st =>
    match body st with
    | (Normal a, st') => (Normal a, st')
    | (Throw e, st') => handler e st'
    end.

Definition get : M State := fun st => (Normal st, st).

Definition modify (f : State -> State) : M unit := fun st => (Normal tt, f st).

Definition lift {A} (c : Completion any A) : M A := fun st => (c, st).

Definition perform (e : Effect any) : M unit :=
  modify (with_trace (fun t => t ++ [e])).

Definition spawn (t : Task) : M unit :=
  modify (with_tasks (fun ts => ts ++ [t])).

Definition exec {A} (m : M A) (st : State) : State := snd (m st).

End Manager.

Declare Scope method_scope.
Delimit Scope method_scope with method.
Notation "x <- m ;; k" := (bind m (fun x => k))
  (at level 20, m at level 99, k at level 200) : method_scope.
Notation "m ;; k" := (bind m (fun _ => k))
  (at level 100, k at level 200, right associativity) : method_scope.

(** ** The methods of [MultipleLifetimesAppWorker] *)

Section Methods.

Context `{rt : Runtime}.

Local Open Scope method_scope.

(** [printDebuggingError] logs the message of the error nested under
    [DebuggingWontWorkReloadJSAndReconnect].  The logger and [ErrorHelper]
    are taken to return. *)
Definition printDebuggingError (error reason : Error any) : M unit :=
  perform (LoggerError (NestedError error DebuggingWontWorkReloadJSAndReconnect reason)).

(** Modelled from the spec: the class [ExecutionsLimiter], whose file
    [src/common/executionsLimiter.ts] is not among the sources.  Repeated
    notifications within a short window are coalesced:
    [execute id limitInSeconds lambda] runs [lambda] unless the action [id]
    ran less than [limitInSeconds] seconds before [now], the clock in
    milliseconds at the call; an action that never ran counts as run at 0. *)
Definition executionLimiter_execute
    (id : string) (limitInSeconds : Z) (now : Z) (lambda : M unit) : M unit :=
  st <- get ;;
  let lastExecution := default 0 (executionLimiter (this st) !! id) in
  if (limitInSeconds * 1000 <=? now - lastExecution)%Z
  then modify (with_this (fun f => set_executionLimiter (<[id := now]> (executionLimiter f)) f)) ;;
       lambda
  else ret tt.

(** [deferred.resolve] and [deferred.reject]: only a pending promise changes. *)
Definition settle (p : nat) (outcome : PromiseState) : M unit :=
  modify (with_promises (fun ps =>
    match ps !! p with
    | Some Pending => <[p := outcome]> ps
    | _ => ps
    end)).

Definition errPackagerNotRunning (st : State) : Error any :=
  InternalError CannotAttachToPackagerCheckPackagerRunningOnPort
                (PortArgument (packagerPort (this st))).

(** [start]: the promise it returns is the new entry of [promises]; the rest
    of its chain waits for [ensurePackagerRunning]. *)
Definition start (retryAttempt : bool) : M nat :=
  st <- get ;;
  let p := length (promises st) in
  modify (with_promises (fun ps => ps ++ [Pending])) ;;
  perform (EnsurePackagerRunning (packagerAddress (this st)) (packagerPort (this st))
                                 (errPackagerNotRunning st)) ;;
  spawn (AwaitPackager p retryAttempt) ;;
  ret p.

Definition socket_close (s : nat) : M unit :=
  perform (SocketClose s) ;;
  st' <- get ;;
  match ws_close (trace st') with
  | None => ret tt
  | Some exception => throw (Raised exception)
  end.

(** [stop]: an exception of [close] leaves the method, so that the worker
    is not reached. *)
Definition stop : M unit :=
  st <- get ;;
  match socketToApp (this st) with
  | Some s =>
      perform (SocketRemoveAllListeners s) ;;
      modify (with_sockets (alter (fun sk =>
        {| listeners := false; retryAttempt := retryAttempt sk;
           deferred := deferred sk; _closeMessage := _closeMessage sk |}) s)) ;;
      socket_close s
  | None => ret tt
  end ;;
  match singleLifetimeWorker (this st) with
  | Some w => perform (WorkerStop w)
  | None => ret tt
  end.

(** [downloadAndPatchDebuggerWorker], as the second link of the chain of
    [start]: the download, then the read of the downloaded file, then the
    write of the patched text. *)
Definition downloadAndPatchDebuggerWorker (p : nat) (retry : bool) : M unit :=
  st <- get ;;
  perform (DownloadDebuggerWorker (sourcesStoragePath (this st)) (projectRootPath (this st))
             (debuggerWorkerUrlPath (this st))) ;;
  spawn (AwaitDownload p retry).

Definition downloaded_then (p : nat) (retry : bool) : M unit :=
  st <- get ;;
  perform (ReadFile (scriptToRunPath (sourcesStoragePath (this st)))) ;;
  spawn (AwaitReadFile p retry).

Definition readFile_then (p : nat) (retry : bool) (workerContent : string) : M unit :=
  st <- get ;;
  let isHaulProject := isHaulProject (projectRootPath (this st)) in
  perform (WriteFile (scriptToRunPath (sourcesStoragePath (this st)))
                     (modifiedDebuggeeContent isHaulProject workerContent)) ;;
  spawn (AwaitWriteFile p retry).

Definition debuggerProxyUrl (st : State) : string :=
  "ws://" +:+ packagerAddress (this st) +:+ ":"
    +:+ NilZero.string_of_int (Z.to_int (packagerPort (this st)))
    +:+ "/debugger-proxy?role=debugger&name=vscode".

(** [createSocketToApp]: the deferred it makes is what the promise [p] of
    the calling [start] resolves to, so the two are one entry. *)
Definition createSocketToApp (p : nat) (retryAttempt : bool) : M unit :=
  st <- get ;;
  let s := length (sockets st) in
  perform (NewWebSocket s (debuggerProxyUrl st)) ;;
  modify (with_sockets (fun sks => sks ++
    [ {| listeners := true; retryAttempt := retryAttempt;
         deferred := p; _closeMessage := None |} ])) ;;
  modify (with_this (set_socketToApp (Some s))) ;;
  perform (QDelay 300) ;;
  spawn (AwaitDelay p).

Definition onSocketOpened (now : Z) : M unit :=
  executionLimiter_execute "onSocketOpened.msg" 10 now
    (perform (LoggerLog
       "Established a connection with the Proxy (Packager) to the React Native application")).

(** The listener of the socket's [close] event. *)
Definition onSocketClose (sk : WebSocket) (now : Z) : M unit :=
  executionLimiter_execute "onSocketClose.msg" 10 now
    (st <- get ;;
     match socketToApp (this st) with
     | Some current =>
         match sockets st !! current with
         | Some currentSocket =>
             match _closeMessage currentSocket with
             | Some text =>
                 if String.eqb text "Another debugger is already connected"
                 then settle (deferred sk)
                        (Rejected (InternalError AnotherDebuggerConnectedToPackager NoArgument))
                 else ret tt
             | None => ret tt
             end
         | None => ret tt
         end
     | None => throw TypeError
     end ;;
     perform (LoggerLog
       "Disconnected from the Proxy (Packager) to the React Native application. Retrying reconnection soon...")) ;;
  perform (SetTimeout 100) ;;
  spawn AwaitTimeout.

(** The listener of the socket's [error] event. *)
Definition onSocketError (sk : WebSocket) (error : any) : M unit :=
  (if retryAttempt sk
   then printDebuggingError
          (InternalError ReconnectionToPackagerFailedCheckForErrorsOrRestartReactNative NoArgument)
          (Raised error)
   else ret tt) ;;
  settle (deferred sk) (Rejected (Raised error)).

Definition killWorker : M unit :=
  st <- get ;;
  match singleLifetimeWorker (this st) with
  | None => ret tt
  | Some w =>
      perform (WorkerStop w) ;;
      modify (with_this (set_singleLifetimeWorker None))
  end.

(** [startNewWorkerLifetime] returns the worker whose start is awaited. *)
Definition startNewWorkerLifetime : M nat :=
  st <- get ;;
  let w := workers st in
  perform (NewForkedAppWorker w) ;;
  modify (with_workers S) ;;
  modify (with_this (set_singleLifetimeWorker (Some w))) ;;
  perform (LoggerVerbose "A new app worker lifetime was created.") ;;
  perform (WorkerStart w) ;;
  ret w.

Definition socket_send (data : option string) : M unit :=
  st <- get ;;
  match socketToApp (this st) with
  | None => throw TypeError
  | Some s =>
      perform (SocketSend s data) ;;
      st' <- get ;;
      match ws_send (trace st') with
      | None => ret tt
      | Some exception => throw (Raised exception)
      end
  end.

Definition sendMessageToApp (message : Payload any) : M unit :=
  let result := JSON_stringify message in
  try_catch
    (match result with
     | StringifyThrows exception => throw (Raised exception)
     | Text stringified =>
         perform (LoggerVerbose ("To RN APP: " +:+ stringified)) ;;
         socket_send (Some stringified)
     | Undefined =>
         perform (LoggerVerbose "To RN APP: undefined") ;;
         socket_send None
     end)
    (fun exception =>
       let messageToShow :=
         match result with
         | Text stringified =>
             if String.eqb stringified "" then toString message else stringified
         | _ => toString message
         end in
       printDebuggingError
         (InternalError FailedToSendMessageToTheReactNativeApp (TextArgument messageToShow))
         exception).

(** [gotPrepareJSRuntime] starts the lifetime; its two callbacks wait for
    the start of the worker. *)
Definition gotPrepareJSRuntime (message : json) : M unit :=
  w <- startNewWorkerLifetime ;;
  spawn (AwaitWorkerStart w message).

(** The callbacks of a start that succeeded: the [then] of
    [startNewWorkerLifetime], and the first argument of [done]. *)
Definition workerStarted_then (message : json) (startedEvent : any) : M unit :=
  perform (Emit "connected" startedEvent) ;;
  id <- lift (get_property message "id") ;;
  sendMessageToApp (ReplyID (inject_Z <$> parseInt id)).

(** The second argument of [done]. *)
Definition workerStartFailed_then (message : json) (error : Error any) : M unit :=
  printDebuggingError
    (InternalError FailedToPrepareJSRuntimeEnvironment (ObjectArgument message)) error.

Definition onMessage (message : string) : M unit :=
  try_catch
    (perform (LoggerVerbose ("From RN APP: " +:+ message)) ;;
     object <- match JSON_parse message with
               | Some value => ret value
               | None => throw (SyntaxError message)
               end ;;
     method <- lift (get_property object "method") ;;
     if strict_equals method "prepareJSRuntime" then
       killWorker ;;
       gotPrepareJSRuntime object
     else if strict_equals method "$disconnected" then
       killWorker
     else if truthy method then
       st <- get ;;
       match singleLifetimeWorker (this st) with
       | Some w => perform (WorkerPostMessage w object)
       | None => ret tt
       end
     else
       perform (LoggerVerbose
         ("The react-native app sent a message without specifying a method: " +:+ message)))
    (fun exception =>
       printDebuggingError
         (InternalError FailedToProcessMessageFromReactNativeApp (TextArgument message))
         exception).

End Methods.

Ltac unfold_monad :=
  unfold printDebuggingError, perform, spawn in *;
  unfold exec, try_catch, bind, ret, throw, get, modify, lift in *.

(** ** Events: what the callers, the timers and the collaborators deliver *)

Section Events.

Context `{rt : Runtime}.

Local Open Scope method_scope.

Inductive Event : Type :=
| CallStart (retryAttempt : bool)
| CallStop
| PackagerChecked (p : nat) (running : bool)
| Downloaded (p : nat) (failure : option (Error any))
| FileRead (p : nat) (result : string + Error any)
| FileWritten (p : nat) (failure : option (Error any))
| DelayElapsed (p : nat)
| TimeoutElapsed
| SocketOpen (s : nat) (now : Z)
| SocketClosed (s : nat) (now : Z) (closeMessage : option string)
| SocketMessage (s : nat) (message : string)
| SocketError (s : nat) (error : any)
| WorkerStarted (w : nat) (startedEvent : any)
| WorkerStartFailed (w : nat) (error : Error any)
| WorkerPosted (w : nat) (message : any).

(** The first pending task that [select] accepts, and the tasks that stay. *)
Fixpoint take_task (select : Task -> bool) (ts : list Task) : option (Task * list Task) :=
  match ts with
  | [] => None
  | t :: rest =>
      if select t then Some (t, rest)
      else match take_task select rest with
           | Some (found, rest') => Some (found, t :: rest')
           | None => None
           end
  end.

Definition awaits_packager (p : nat) (t : Task) : bool :=
  match t with AwaitPackager p' _ => Nat.eqb p p' | _ => false end.
Definition awaits_download (p : nat) (t : Task) : bool :=
  match t with AwaitDownload p' _ => Nat.eqb p p' | _ => false end.
Definition awaits_readFile (p : nat) (t : Task) : bool :=
  match t with AwaitReadFile p' _ => Nat.eqb p p' | _ => false end.
Definition awaits_writeFile (p : nat) (t : Task) : bool :=
  match t with AwaitWriteFile p' _ => Nat.eqb p p' | _ => false end.
Definition awaits_delay (p : nat) (t : Task) : bool :=
  match t with AwaitDelay p' => Nat.eqb p p' | _ => false end.
Definition awaits_timeout (t : Task) : bool :=
  match t with AwaitTimeout => true | _ => false end.
Definition awaits_worker (w : nat) (t : Task) : bool :=
  match t with AwaitWorkerStart w' _ => Nat.eqb w w' | _ => false end.

(** Runs the continuation of the selected task, if it is pending. *)
Definition resume (select : Task -> bool) (k : Task -> M unit) (st : State) : State :=
  match take_task select (tasks st) with
  | Some (t, rest) => exec (k t) (with_tasks (fun _ => rest) st)
  | None => st
  end.

(** Delivers an event to the listeners of socket [s], if it still has them. *)
Definition to_listeners (s : nat) (k : WebSocket -> M unit) (st : State) : State :=
  match sockets st !! s with
  | Some sk => if listeners sk then exec (k sk) st else st
  | None => st
  end.

(** The socket library writes the close reason on the socket before it
    emits [close]. *)
Definition record_closeMessage (s : nat) (closeMessage : option string) (st : State) : State :=
  with_sockets (alter (fun sk =>
    {| listeners := listeners sk; retryAttempt := retryAttempt sk;
       deferred := deferred sk; _closeMessage := closeMessage |}) s) st.

(** Modelled from the spec: [ensurePackagerRunning], whose file
    [src/common/packagerStatus.ts] is not among the sources, is a bounded
    check that fails, when the packager is not reachable, with the error it
    was given. *)
Definition packagerChecked_then (p : nat) (retry running : bool) : M unit :=
  if running then
    if retry then createSocketToApp p retry
    else downloadAndPatchDebuggerWorker p retry
  else
    st <- get ;;
    settle p (Rejected (errPackagerNotRunning st)).

Definition handle (ev : Event) (st : State) : State :=
  match ev with
  | CallStart retry => exec (start retry) st
  | CallStop => exec stop st
  | PackagerChecked p running =>
      resume (awaits_packager p)
        (fun t => match t with
                  | AwaitPackager _ retry => packagerChecked_then p retry running
                  | _ => ret tt
                  end) st
  | Downloaded p failure =>
      resume (awaits_download p)
        (fun t => match t, failure with
                  | AwaitDownload _ retry, None => downloaded_then p retry
                  | _, Some e => settle p (Rejected e)
                  | _, _ => ret tt
                  end) st
  | FileRead p result =>
      resume (awaits_readFile p)
        (fun t => match t, result with
                  | AwaitReadFile _ retry, inl workerContent => readFile_then p retry workerContent
                  | _, inr e => settle p (Rejected e)
                  | _, _ => ret tt
                  end) st
  | FileWritten p failure =>
      resume (awaits_writeFile p)
        (fun t => match t, failure with
                  | AwaitWriteFile _ retry, None => createSocketToApp p retry
                  | _, Some e => settle p (Rejected e)
                  | _, _ => ret tt
                  end) st
  | DelayElapsed p =>
      resume (awaits_delay p) (fun _ => settle p Fulfilled) st
  | TimeoutElapsed =>
      resume awaits_timeout (fun _ => start true ;; ret tt) st
  | SocketOpen s now =>
      to_listeners s (fun _ => onSocketOpened now) st
  | SocketClosed s now closeMessage =>
      to_listeners s (fun sk => onSocketClose sk now) (record_closeMessage s closeMessage st)
  | SocketMessage s message =>
      to_listeners s (fun _ => onMessage message) st
  | SocketError s error =>
      to_listeners s (fun sk => onSocketError sk error) st
  | WorkerStarted w startedEvent =>
      resume (awaits_worker w)
        (fun t => match t with
                  | AwaitWorkerStart _ message => workerStarted_then message startedEvent
                  | _ => ret tt
                  end) st
  | WorkerStartFailed w error =>
      resume (awaits_worker w)
        (fun t => match t with
                  | AwaitWorkerStart _ message => workerStartFailed_then message error
                  | _ => ret tt
                  end) st
  | WorkerPosted w message =>
      if (w <? workers st)%nat then exec (sendMessageToApp (FromWorker message)) st else st
  end.

Definition run (evs : list Event) (st : State) : State :=
  fold_left (fun st ev => handle ev st) evs st.

(** The constructor: [address || "localhost"], and the refusal of an empty
    storage path. *)
Definition constructor (address : option string) (port : Z)
    (sourcesStoragePath projectRootPath : string)
    (debuggerWorkerUrlPath : option string) : Completion any State :=
  if String.eqb sourcesStoragePath ""
  then Throw (InternalError SourcesStoragePathIsNullOrEmpty NoArgument)
  else Normal
    {| this :=
         {| packagerAddress :=
              match address with
              | Some a => if String.eqb a "" then "localhost" else a
              | None => "localhost"
              end;
            packagerPort := port;
            sourcesStoragePath := sourcesStoragePath;
            projectRootPath := projectRootPath;
            debuggerWorkerUrlPath := debuggerWorkerUrlPath;
            socketToApp := None;
            singleLifetimeWorker := None;
            executionLimiter := ∅ |};
       sockets := [];
       workers := 0;
       promises := [];
       tasks := [];
       trace := [] |}.

(** A state is reachable when events lead to it from a constructed object. *)
Inductive reachable : State -> Prop :=
| reachable_new address port storage project urlPath st :
    constructor address port storage project urlPath = Normal st ->
    reachable st
| reachable_step ev st :
    reachable st ->
    reachable (handle ev st).

End Events.

(** ** Observations on traces and states *)

(** Where the downloaded payload starts in the script. *)
Definition payload_offset (isHaul : bool) : nat :=
  (String.length WORKER_BOOTSTRAP + 1 + (String.length CONSOLE_TRACE_PATCH + 1
     + (String.length NODE_PROCESS_FINDING_PATCH + 1
        + (String.length (if isHaul then FETCH_STUB else "") + 1))))%nat.

(** [t] is [q] truncated toward zero: the magnitude of [t] is the integer
    part of the magnitude of [q], and [t] has no sign that [q] has not. *)
Definition truncates_to (q : Q) (t : Z) : Prop :=
  (Z.abs t * Zpos (Qden q) <= Z.abs (Qnum q) < (Z.abs t + 1) * Zpos (Qden q))%Z
  /\ (0 <= Qnum q -> 0 <= t)%Z /\ (Qnum q <= 0 -> t <= 0)%Z.

(** [piece] stands in [text] at offset [n]. *)
Definition occurs_at (n : nat) (piece text : string) : Prop :=
  substring n (String.length piece) text = piece.

Section Observations.

Context `{rt : Runtime}.

(** The lifetimes that are alive: constructed, and [stop] not yet called. *)
Definition track (e : Effect any) (live : list nat) : list nat :=
  match e with
  | NewForkedAppWorker w => w :: live
  | WorkerStop w => filter (fun x => x ≠ w) live
  | _ => live
  end.

Definition live_after (tr : list (Effect any)) : list nat :=
  fold_left (fun live e => track e live) tr [].

(** At no moment of the trace are two lifetimes alive. *)
Definition never_two (tr : list (Effect any)) : Prop :=
  forall n, (length (live_after (take n tr)) <= 1)%nat.

Definition is_bootstrap_io (e : Effect any) : bool :=
  match e with
  | DownloadDebuggerWorker _ _ _ | ReadFile _ | WriteFile _ _ => true
  | _ => false
  end.

Definition is_SetTimeout (e : Effect any) : bool :=
  match e with SetTimeout _ => true | _ => false end.

Definition is_SocketSend (e : Effect any) : bool :=
  match e with SocketSend _ _ => true | _ => false end.

(** Every pending task names a promise or a worker that exists. *)
Definition task_ok (st : State) (t : Task) : Prop :=
  match t with
  | AwaitPackager p _ | AwaitDownload p _ | AwaitReadFile p _
  | AwaitWriteFile p _ | AwaitDelay p => (p < length (promises st))%nat
  | AwaitTimeout => True
  | AwaitWorkerStart w _ => (w < workers st)%nat
  end.

(** The calls that begin or end a lifetime. *)
Definition is_lifetime_call (e : Effect any) : bool :=
  match e with
  | NewForkedAppWorker _ | WorkerStop _ => true
  | _ => false
  end.

(** The trace never has two lifetimes alive, and a lifetime that is alive
    is the one the field [singleLifetimeWorker] holds. *)
Definition lifetimes (tr : list (Effect any)) (field : option nat) : Prop :=
  never_two tr /\ forall w, w ∈ live_after tr -> field = Some w.

Record invariant (st : State) : Prop := {
  inv_lifetimes : lifetimes (trace st) (singleLifetimeWorker (this st));
  inv_worker : forall w, singleLifetimeWorker (this st) = Some w -> (w < workers st)%nat;
  inv_tasks : Forall (task_ok st) (tasks st);
  inv_socket : forall s, socketToApp (this st) = Some s -> (s < length (sockets st))%nat;
  inv_connected : (0 < workers st)%nat \/ sockets st <> [] -> is_Some (socketToApp (this st))
}.

(** Whether the rate limiter lets the notification of a close through. *)
Definition close_admitted (now : Z) (st : State) : bool :=
  (10 * 1000 <=? now - default 0 (executionLimiter (this st) !! "onSocketClose.msg"))%Z.

Definition disconnected_log : Effect any :=
  LoggerLog
    "Disconnected from the Proxy (Packager) to the React Native application. Retrying reconnection soon...".

Definition another_debugger : Error any :=
  InternalError AnotherDebuggerConnectedToPackager NoArgument.

(** The events of a first [start] that meets no failure, and the calls
    they lead to. *)
Definition first_start_events (p : nat) (workerContent : string) : list Event :=
  [ CallStart false; PackagerChecked p true; Downloaded p None;
    FileRead p (inl workerContent); FileWritten p None ].

Definition first_start_calls (workerContent : string) (st : State) : list (Effect any) :=
  [ EnsurePackagerRunning (packagerAddress (this st)) (packagerPort (this st))
      (errPackagerNotRunning st);
    DownloadDebuggerWorker (sourcesStoragePath (this st)) (projectRootPath (this st))
      (debuggerWorkerUrlPath (this st));
    ReadFile (scriptToRunPath (sourcesStoragePath (this st)));
    WriteFile (scriptToRunPath (sourcesStoragePath (this st)))
      (modifiedDebuggeeContent (isHaulProject (projectRootPath (this st))) workerContent);
    NewWebSocket (length (sockets st)) (debuggerProxyUrl st);
    QDelay 300 ].

Definition retry_start_calls (st : State) : list (Effect any) :=
  [ EnsurePackagerRunning (packagerAddress (this st)) (packagerPort (this st))
      (errPackagerNotRunning st);
    NewWebSocket (length (sockets st)) (debuggerProxyUrl st);
    QDelay 300 ].

(** The exception that ends [stop], if one does: that of the [close] of the
    socket the class holds. *)
Definition stop_exception (st : State) : option any :=
  match socketToApp (this st) with
  | Some s => ws_close (trace st ++ [SocketRemoveAllListeners s; SocketClose s])
  | None => None
  end.

(** What one call of [stop] asks of the socket and, unless [close] throws,
    of the worker. *)
Definition teardown_calls (st : State) : list (Effect any) :=
  match socketToApp (this st) with
  | Some s => [SocketRemoveAllListeners s; SocketClose s]
  | None => []
  end ++
  match stop_exception st, singleLifetimeWorker (this st) with
  | None, Some w => [WorkerStop w]
  | _, _ => []
  end.

(** C6 as the claim words it: a message that parses and carries a [method]
    that is neither [prepareJSRuntime] nor [$disconnected] is posted to the
    live lifetime. *)
Definition forwards_every_other_method : Prop :=
  forall (message : string) (object value : json) (st : State) (w : nat),
    JSON_parse message = Some object ->
    get_property (any := any) object "method" = Normal (Some value) ->
    strict_equals (Some value) "prepareJSRuntime" = false ->
    strict_equals (Some value) "$disconnected" = false ->
    singleLifetimeWorker (this st) = Some w ->
    exists delta,
      trace (exec (onMessage message) st) = trace st ++ delta
      /\ In (WorkerPostMessage w object) delta.

(** C2 as the claim words it: for a numeric [id], once the sandbox has
    started the text written to the socket is that of [{ replyID: id }]. *)
Definition acknowledges_every_number : Prop :=
  forall (st : State) (s : nat) (sk : WebSocket) (message : string) (object : json)
         (q : Q) (text : string) (startedEvent : any),
    reachable st ->
    sockets st !! s = Some sk -> listeners sk = true ->
    JSON_parse message = Some object ->
    get_property (any := any) object "method" = Normal (Some (JString "prepareJSRuntime")) ->
    get_property (any := any) object "id" = Normal (Some (JNumber q)) ->
    JSON_stringify (ReplyID (Some q)) = Text text ->
    let st1 := handle (SocketMessage s message) st in
    let st2 := handle (WorkerStarted (workers st) startedEvent) st1 in
    exists k delta,
      trace st2 = trace st1 ++ delta /\ In (SocketSend k (Some text)) delta.

(** C8 as the claim words it: a close with the known message rejects the
    pending promise of the socket's [start] with the named error. *)
Definition surfaces_another_debugger : Prop :=
  forall (st : State) (s : nat) (sk : WebSocket) (now : Z),
    reachable st ->
    sockets st !! s = Some sk -> listeners sk = true ->
    socketToApp (this st) = Some s ->
    promises st !! deferred sk = Some Pending ->
    promises (handle (SocketClosed s now (Some "Another debugger is already connected")) st)
      !! deferred sk
    = Some (Rejected (InternalError AnotherDebuggerConnectedToPackager NoArgument)).

(** C10 as the claim words it: a second [stop] adds no call to the trace. *)
Definition second_stop_is_silent : Prop :=
  forall st : State, trace (exec stop (exec stop st)) = trace (exec stop st).

(** C10 as the claim words it: [stop] produces no error. *)
Definition stop_produces_no_error : Prop :=
  forall st : State, reachable st -> fst (stop st) = Normal tt.

(** The fields the constructor sets and no method assigns. *)
Definition configuration (st : State) : string * Z * string * string * option string :=
  (packagerAddress (this st), packagerPort (this st), sourcesStoragePath (this st),
   projectRootPath (this st), debuggerWorkerUrlPath (this st)).

(** A socket, if [e] constructs one, is constructed for [url]. *)
Definition opens_url (url : string) (e : Effect any) : Prop :=
  match e with
  | NewWebSocket _ u => u = url
  | _ => True
  end.

(** The events that socket [s] emits. *)
Definition is_socket_event (s : nat) (ev : Event) : bool :=
  match ev with
  | SocketOpen s' _ | SocketClosed s' _ _ | SocketMessage s' _ | SocketError s' _ =>
      Nat.eqb s s'
  | _ => false
  end.

(** The events that come from a worker. *)
Definition is_worker_event (ev : Event) : bool :=
  match ev with
  | WorkerStarted _ _ | WorkerStartFailed _ _ | WorkerPosted _ _ => true
  | _ => false
  end.

Definition is_SocketMessage (ev : Event) : bool :=
  match ev with SocketMessage _ _ => true | _ => false end.

Definition is_NewForkedAppWorker (e : Effect any) : bool :=
  match e with NewForkedAppWorker _ => true | _ => false end.

Definition is_WorkerPostMessage (e : Effect any) : bool :=
  match e with WorkerPostMessage _ _ => true | _ => false end.

(** The calls by which the class starts, stops and reconnects. *)
Definition is_connection_call (e : Effect any) : bool :=
  match e with
  | EnsurePackagerRunning _ _ _ | DownloadDebuggerWorker _ _ _ | ReadFile _ | WriteFile _ _
  | NewWebSocket _ _ | SocketRemoveAllListeners _ | SocketClose _
  | SetTimeout _ | QDelay _ => true
  | _ => false
  end.

(** A message that [onMessage] hands to the worker: it parses, and its
    [method] is truthy and is neither of the two names the class handles. *)
Definition forwardable (message : string) (object : json) : Prop :=
  JSON_parse message = Some object
  /\ exists method,
       get_property (any := any) object "method" = Normal method
       /\ strict_equals method "prepareJSRuntime" = false
       /\ strict_equals method "$disconnected" = false
       /\ truthy method = true.

(** The log and the post of each forwarded message, in order. *)
Fixpoint forwarded_calls (w : nat) (messages : list string) (objects : list json)
    : list (Effect any) :=
  match messages, objects with
  | message :: messages', object :: objects' =>
      LoggerVerbose ("From RN APP: " +:+ message) :: WorkerPostMessage w object
        :: forwarded_calls w messages' objects'
  | _, _ => []
  end.

(** The events whose handling can stop or construct a worker. *)
Definition is_lifetime_event (ev : Event) : bool :=
  match ev with
  | CallStop | SocketMessage _ _ => true
  | _ => false
  end.

(** The fields of the object and the objects it holds, the trace apart. *)
Definition same_object (st st' : State) : Prop :=
  this st' = this st /\ sockets st' = sockets st /\ workers st' = workers st
  /\ promises st' = promises st /\ tasks st' = tasks st.

End Observations.

(** ** A sample runtime, for concrete runs *)

Module Sample.

Inductive value : Set :=
| WorkerLoaded     (* { workerLoaded: true } *)
| Circular         (* an object that refers to itself *)
| NotOpened        (* the error of a send on a socket that is not open *)
| CircularError    (* the TypeError of JSON.stringify on [Circular] *)
| ClosedBeforeOpen. (* the error of a close on a socket that is still connecting *)

Definition quoted (s : string) : string := dquote +:+ s +:+ dquote.

Definition prepare_42 : string :=
  "{" +:+ quoted "method" +:+ ":" +:+ quoted "prepareJSRuntime" +:+ ","
      +:+ quoted "id" +:+ ":42}".
Definition prepare_1_5 : string :=
  "{" +:+ quoted "method" +:+ ":" +:+ quoted "prepareJSRuntime" +:+ ","
      +:+ quoted "id" +:+ ":1.5}".
Definition prepare_minus_1_5 : string :=
  "{" +:+ quoted "method" +:+ ":" +:+ quoted "prepareJSRuntime" +:+ ","
      +:+ quoted "id" +:+ ":-1.5}".
Definition prepare_1e_7 : string :=
  "{" +:+ quoted "method" +:+ ":" +:+ quoted "prepareJSRuntime" +:+ ","
      +:+ quoted "id" +:+ ":1e-7}".
Definition disconnected : string :=
  "{" +:+ quoted "method" +:+ ":" +:+ quoted "$disconnected" +:+ "}".
Definition execute_script : string :=
  "{" +:+ quoted "method" +:+ ":" +:+ quoted "executeApplicationScript" +:+ "}".
Definition empty_method : string :=
  "{" +:+ quoted "method" +:+ ":" +:+ quoted "" +:+ "}".
Definition no_method : string := "{}".

(** [JSON.parse] on the texts above and on [null]; any other text is taken
    to be malformed. *)
Definition parse (text : string) : option json :=
  if String.eqb text prepare_42 then
    Some (JObject [("method", JString "prepareJSRuntime"); ("id", JNumber (42 # 1))])
  else if String.eqb text prepare_1_5 then
    Some (JObject [("method", JString "prepareJSRuntime"); ("id", JNumber (3 # 2))])
  else if String.eqb text prepare_minus_1_5 then
    Some (JObject [("method", JString "prepareJSRuntime"); ("id", JNumber (-3 # 2))])
  else if String.eqb text prepare_1e_7 then
    Some (JObject [("method", JString "prepareJSRuntime"); ("id", JNumber (1 # 10000000))])
  else if String.eqb text disconnected then
    Some (JObject [("method", JString "$disconnected")])
  else if String.eqb text execute_script then
    Some (JObject [("method", JString "executeApplicationScript")])
  else if String.eqb text empty_method then
    Some (JObject [("method", JString "")])
  else if String.eqb text no_method then
    Some (JObject [])
  else if String.eqb text "null" then
    Some JNull
  else None.

(** [JSON.stringify] on acknowledgements with an integer, with 1.5 and with
    [NaN], and on the sample values. *)
Definition stringify (p : Payload value) : Stringified value :=
  match p with
  | ReplyID (Some q) =>
      if Pos.eqb (Qden q) 1 then
        Text ("{" +:+ quoted "replyID" +:+ ":"
                  +:+ NilZero.string_of_int (Z.to_int (Qnum q)) +:+ "}")
      else if Qeq_bool q (3 # 2) then
        Text ("{" +:+ quoted "replyID" +:+ ":1.5}")
      else Undefined
  | ReplyID None => Text ("{" +:+ quoted "replyID" +:+ ":null}")
  | FromWorker WorkerLoaded => Text ("{" +:+ quoted "workerLoaded" +:+ ":true}")
  | FromWorker Circular => StringifyThrows CircularError
  | FromWorker NotOpened | FromWorker CircularError | FromWorker ClosedBeforeOpen =>
      Text "{}"
  end.

Definition closes (s : nat) (e : Effect value) : bool :=
  match e with SocketClose s' => Nat.eqb s s' | _ => false end.

(** A send throws once the class has closed the socket. *)
Definition send (effects : list (Effect value)) : option value :=
  match last effects with
  | Some (SocketSend s _) => if existsb (closes s) effects then Some NotOpened else None
  | _ => None
  end.

(** [parseInt] on the text of a value that does not print in plain decimal
    notation: the number 1e-7 prints as [1e-7], of which [parseInt] reads
    the 1; an absent [id] reads as [NaN]. *)
Definition parseInt_exponent (v : option json) : option Z :=
  match v with
  | Some (JNumber q) => if Qeq_bool q (1 # 10000000) then Some 1%Z else None
  | _ => None
  end.

Definition established (e : Effect value) : bool :=
  match e with
  | LoggerLog text =>
      String.eqb text
        "Established a connection with the Proxy (Packager) to the React Native application"
  | _ => false
  end.

(** Whether socket [s] has opened, told from the log of the open after the
    construction of the socket. *)
Fixpoint opened (s : nat) (effects : list (Effect value)) : bool :=
  match effects with
  | [] => false
  | NewWebSocket s' _ :: rest =>
      if Nat.eqb s s' then existsb established rest else opened s rest
  | _ :: rest => opened s rest
  end.

(** A close throws while the socket is still connecting. *)
Definition close (effects : list (Effect value)) : option value :=
  match last effects with
  | Some (SocketClose s) => if opened s effects then None else Some ClosedBeforeOpen
  | _ => None
  end.

#[export] Instance runtime : Runtime := {|
  any := value;
  JSON_parse := parse;
  JSON_stringify := stringify;
  toString := fun _ => "[object Object]";
  parseInt_text := parseInt_exponent;
  ws_send := send;
  ws_close := close;
  isHaulProject := fun project => String.eqb project "/haul";
  scriptToRunPath := fun storage => storage +:+ "/.debuggerWorker.js"
|}.

Definition from_worker (v : value) : Payload (@any runtime) := FromWorker v.

(** A constructed object, for port 8081. *)
Definition fresh : State :=
  {| this := {| packagerAddress := "localhost"; packagerPort := 8081;
                sourcesStoragePath := "/store"; projectRootPath := "/project";
                debuggerWorkerUrlPath := None; socketToApp := None;
                singleLifetimeWorker := None; executionLimiter := ∅ |};
     sockets := []; workers := 0; promises := []; tasks := []; trace := [] |}.

Definition started (w : nat) : @Event runtime := WorkerStarted w WorkerLoaded.

(** The first [start] has run to its socket; its promise is pending. *)
Definition connecting : State :=
  run [CallStart false; PackagerChecked 0 true; Downloaded 0 None;
       FileRead 0 (inl "payload"); FileWritten 0 None] fresh.

(** The promise of the first [start] is resolved and the socket has opened. *)
Definition connected : State :=
  run [DelayElapsed 0; SocketOpen 0 1000000] connecting.

(** The socket closed at 1005000 ms; the retry has made a second socket. *)
Definition reconnecting : State :=
  run [SocketClosed 0 1005000 None; TimeoutElapsed; PackagerChecked 1 true] connected.

(** A sandbox has been asked for and has started. *)
Definition debugging : State :=
  run [SocketMessage 0 prepare_42; WorkerStarted 0 WorkerLoaded] connected.

(** With a sandbox live, the socket closed at 1005000 ms; the socket of the
    retry is still connecting. *)
Definition resuming : State :=
  run [SocketClosed 0 1005000 None; TimeoutElapsed; PackagerChecked 1 true] debugging.

End Sample.

(** * The bootstrap script *)

Section Strings.

Lemma append_String (x : ascii) (a b : string) :
  String x a +:+ b = String x (a +:+ b).
Proof. reflexivity. Qed.

Lemma length_append (a b : string) :
  String.length (a +:+ b) = (String.length a + String.length b)%nat.
Proof.
  induction a as [|x a IH]; [reflexivity|].
  rewrite append_String. simpl. now rewrite IH.
Qed.

Lemma append_assoc (a b c : string) : a +:+ (b +:+ c) = (a +:+ b) +:+ c.
Proof.
  induction a as [|x a IH]; [reflexivity|].
  rewrite !append_String. now rewrite IH.
Qed.

Lemma substring_prefix (a b : string) :
  substring 0 (String.length a) (a +:+ b) = a.
Proof.
  induction a as [|x a IH]; [now destruct b|].
  rewrite append_String. simpl. now rewrite IH.
Qed.

Lemma substring_skip (a : string) (n m : nat) (s : string) :
  substring (String.length a + n) m (a +:+ s) = substring n m s.
Proof.
  induction a as [|x a IH]; [reflexivity|].
  rewrite append_String. simpl. exact IH.
Qed.

Lemma occurs_at_here (a b : string) : occurs_at 0 a (a +:+ b).
Proof. apply substring_prefix. Qed.

Lemma occurs_at_later (a piece s : string) (n : nat) :
  occurs_at n piece s -> occurs_at (String.length a + n) piece (a +:+ s).
Proof. unfold occurs_at. intros H. now rewrite substring_skip. Qed.

Lemma occurs_at_later_line (a piece s : string) (n : nat) :
  occurs_at n piece s ->
  occurs_at (String.length a + 1 + n) piece (a +:+ newline +:+ s).
Proof.
  intros H. rewrite append_assoc.
  replace (String.length a + 1)%nat with (String.length (a +:+ newline))
    by (rewrite length_append; reflexivity).
  now apply occurs_at_later.
Qed.

Lemma occurs_at_next_line (a piece s : string) :
  occurs_at (String.length a + 1) piece (a +:+ newline +:+ piece +:+ s).
Proof.
  replace (String.length a + 1)%nat with (String.length a + 1 + 0)%nat by lia.
  apply occurs_at_later_line, occurs_at_here.
Qed.

(** The join of six slots, written out. *)
Lemma Array_join_six (sep a b c w d : string) (f : option string) :
  Array_join sep [Some a; Some b; Some c; f; Some w; Some d]
  = a +:+ sep +:+ b +:+ sep +:+ c +:+ sep +:+ default "" f +:+ sep +:+ w +:+ sep +:+ d.
Proof. reflexivity. Qed.

Lemma modifiedDebuggeeContent_unfold (isHaul : bool) (workerContent : string) :
  modifiedDebuggeeContent isHaul workerContent
  = WORKER_BOOTSTRAP +:+ newline +:+ CONSOLE_TRACE_PATCH +:+ newline
      +:+ NODE_PROCESS_FINDING_PATCH +:+ newline
      +:+ (if isHaul then FETCH_STUB else "") +:+ newline
      +:+ workerContent +:+ newline +:+ WORKER_DONE.
Proof.
  unfold modifiedDebuggeeContent. rewrite Array_join_six. now destruct isHaul.
Qed.

(** The script is longer than the payload it holds. *)
Lemma modifiedDebuggeeContent_longer (isHaul : bool) (workerContent : string) :
  (String.length workerContent
   < String.length (modifiedDebuggeeContent isHaul workerContent))%nat.
Proof.
  rewrite modifiedDebuggeeContent_unfold.
  generalize (if isHaul then FETCH_STUB else "") as stub.
  generalize WORKER_BOOTSTRAP as a, CONSOLE_TRACE_PATCH as b, NODE_PROCESS_FINDING_PATCH as c,
    WORKER_DONE as d.
  intros a b c d stub. rewrite !length_append. cbn [String.length newline]. lia.
Qed.

End Strings.

Section Bootstrap.

Context `{rt : Runtime}.

(** C5, as the claim words it, fails: for a project that is not a Haul
    project the script written is not the newline-joined concatenation of
    the five pieces that are included, since the slot of the fetch stub
    stays in the array and leaves an empty line.  Shown for an empty
    downloaded payload. *)
Lemma bootstrap_script_keeps_empty_slot :
  modifiedDebuggeeContent false "" <> spec_bootstrap_script false "".
Proof.
  intros H. apply (f_equal String.length) in H. vm_compute in H. discriminate H.
Qed.

(** C5, amended: the script that [downloadAndPatchDebuggerWorker] writes is
    the newline-joined concatenation, in this order, of the bootstrap shim,
    the console-trace patch, the process-hiding patch, the fetch stub for a
    Haul project and the empty string otherwise, the downloaded payload and
    the completion marker; for a Haul project it is the concatenation the
    specification describes; and every shim and patch stands, whole, before
    the offset at which the payload starts. *)
Theorem bootstrap_script_composition (p : nat) (retry : bool) (workerContent : string) (st : State) :
  let isHaul := isHaulProject (projectRootPath (this st)) in
  let script := modifiedDebuggeeContent isHaul workerContent in
  trace (exec (readFile_then p retry workerContent) st)
    = trace st ++ [WriteFile (scriptToRunPath (sourcesStoragePath (this st))) script]
  /\ script = String.concat newline
       [WORKER_BOOTSTRAP; CONSOLE_TRACE_PATCH; NODE_PROCESS_FINDING_PATCH;
        (if isHaul then FETCH_STUB else ""); workerContent; WORKER_DONE]
  /\ modifiedDebuggeeContent true workerContent = spec_bootstrap_script true workerContent
  /\ occurs_at 0 WORKER_BOOTSTRAP script
  /\ occurs_at (String.length WORKER_BOOTSTRAP + 1) CONSOLE_TRACE_PATCH script
  /\ occurs_at (String.length WORKER_BOOTSTRAP + 1 + (String.length CONSOLE_TRACE_PATCH + 1))
       NODE_PROCESS_FINDING_PATCH script
  /\ occurs_at (String.length WORKER_BOOTSTRAP + 1 + (String.length CONSOLE_TRACE_PATCH + 1
                  + (String.length NODE_PROCESS_FINDING_PATCH + 1)))
       (if isHaul then FETCH_STUB else "") script
  /\ occurs_at (payload_offset isHaul) workerContent script
  /\ (String.length WORKER_BOOTSTRAP + 1 + (String.length CONSOLE_TRACE_PATCH + 1
        + (String.length NODE_PROCESS_FINDING_PATCH + 1))
      + String.length (if isHaul then FETCH_STUB else "") < payload_offset isHaul)%nat.
Proof.
  intros isHaul script.
  split; [reflexivity|].
  split; [subst script; unfold modifiedDebuggeeContent, Array_join; now destruct isHaul|].
  split; [reflexivity|].
  subst script. rewrite modifiedDebuggeeContent_unfold. unfold payload_offset.
  generalize (if isHaul then FETCH_STUB else "") as stub.
  generalize WORKER_BOOTSTRAP as a, CONSOLE_TRACE_PATCH as b, NODE_PROCESS_FINDING_PATCH as c,
    WORKER_DONE as d.
  intros a b c d stub.
  repeat split.
  - apply occurs_at_here.
  - apply occurs_at_next_line.
  - apply occurs_at_later_line, occurs_at_next_line.
  - do 2 apply occurs_at_later_line. apply occurs_at_next_line.
  - do 3 apply occurs_at_later_line. apply occurs_at_next_line.
  - lia.
Qed.

End Bootstrap.

(** * The message handler *)

Section Messages.

Context `{rt : Runtime}.

Lemma same_object_with_trace (f : list (Effect any) -> list (Effect any)) (st : State) :
  same_object st (with_trace f st).
Proof. now repeat split. Qed.

Lemma onMessage_returns (message : string) (st : State) :
  fst (onMessage message st) = Normal tt.
Proof.
  unfold onMessage, try_catch.
  match goal with |- context [match ?body st with _ => _ end] => destruct (body st) as [[[]|e] st'] end;
    reflexivity.
Qed.

Lemma killWorker_returns (st : State) :
  killWorker st = (Normal tt, exec killWorker st).
Proof.
  unfold killWorker. unfold_monad. cbn.
  now destruct (singleLifetimeWorker (this st)).
Qed.

Lemma gotPrepareJSRuntime_returns (message : json) (st : State) :
  gotPrepareJSRuntime message st = (Normal tt, exec (gotPrepareJSRuntime message) st).
Proof. reflexivity. Qed.

(** The ways through [onMessage]. *)
Lemma onMessage_malformed (message : string) (st : State) :
  JSON_parse message = None ->
  exec (onMessage message) st
  = with_trace (fun t => t ++
      [ LoggerVerbose ("From RN APP: " +:+ message);
        LoggerError (NestedError
          (InternalError FailedToProcessMessageFromReactNativeApp (TextArgument message))
          DebuggingWontWorkReloadJSAndReconnect (SyntaxError message)) ]) st.
Proof.
  intros Hparse. unfold onMessage. unfold_monad. rewrite Hparse.
  cbn. unfold with_trace. cbn. now rewrite <- app_assoc.
Qed.

Lemma onMessage_null (message : string) (st : State) :
  JSON_parse message = Some JNull ->
  exec (onMessage message) st
  = with_trace (fun t => t ++
      [ LoggerVerbose ("From RN APP: " +:+ message);
        LoggerError (NestedError
          (InternalError FailedToProcessMessageFromReactNativeApp (TextArgument message))
          DebuggingWontWorkReloadJSAndReconnect TypeError) ]) st.
Proof.
  intros Hparse. unfold onMessage. unfold_monad. rewrite Hparse.
  cbn. unfold with_trace. cbn. now rewrite <- app_assoc.
Qed.

Lemma onMessage_prepareJSRuntime (message : string) (object : json)
    (method : option json) (st : State) :
  JSON_parse message = Some object ->
  get_property (any := any) object "method" = Normal method ->
  strict_equals method "prepareJSRuntime" = true ->
  exec (onMessage message) st
  = exec (gotPrepareJSRuntime object)
      (exec killWorker
         (with_trace (fun t => t ++ [LoggerVerbose ("From RN APP: " +:+ message)]) st)).
Proof.
  intros Hparse Hget Hp. unfold onMessage. unfold_monad.
  rewrite Hparse. cbn [fst snd]. rewrite Hget, Hp.
  rewrite (killWorker_returns (with_trace _ st)).
  now rewrite gotPrepareJSRuntime_returns.
Qed.

Lemma onMessage_disconnected (message : string) (object : json)
    (method : option json) (st : State) :
  JSON_parse message = Some object ->
  get_property (any := any) object "method" = Normal method ->
  strict_equals method "prepareJSRuntime" = false ->
  strict_equals method "$disconnected" = true ->
  exec (onMessage message) st
  = exec killWorker
      (with_trace (fun t => t ++ [LoggerVerbose ("From RN APP: " +:+ message)]) st).
Proof.
  intros Hparse Hget Hp Hd. unfold onMessage. unfold_monad.
  rewrite Hparse. cbn [fst snd]. rewrite Hget, Hp, Hd.
  now rewrite (killWorker_returns (with_trace _ st)).
Qed.

Lemma onMessage_other (message : string) (object : json)
    (method : option json) (st : State) :
  JSON_parse message = Some object ->
  get_property (any := any) object "method" = Normal method ->
  strict_equals method "prepareJSRuntime" = false ->
  strict_equals method "$disconnected" = false ->
  exec (onMessage message) st
  = with_trace (fun t => t ++
      LoggerVerbose ("From RN APP: " +:+ message) ::
      (if truthy method then
         match singleLifetimeWorker (this st) with
         | Some w => [WorkerPostMessage w object]
         | None => []
         end
       else
         [LoggerVerbose
            ("The react-native app sent a message without specifying a method: "
               +:+ message)])) st.
Proof.
  intros Hparse Hget Hp Hd. unfold onMessage. unfold_monad.
  rewrite Hparse. cbn. rewrite Hget, Hp, Hd.
  destruct (truthy method); cbn.
  - destruct (singleLifetimeWorker (this st)); cbn; unfold with_trace; cbn;
      now rewrite <- ?app_assoc.
  - unfold with_trace; cbn. now rewrite <- app_assoc.
Qed.

(** C7: a message that is not JSON makes [JSON.parse] throw; the handler
    catches the exception, logs the failure with the offending message and
    changes nothing else, so the connection goes on: the listeners stay and
    the next message is handled like any other.  No message, malformed or
    not, makes the handler throw. *)
Theorem malformed_message_is_dropped (message : string) (st : State) :
  JSON_parse message = None ->
  fst (onMessage message st) = Normal tt
  /\ same_object st (exec (onMessage message) st)
  /\ trace (exec (onMessage message) st)
     = trace st ++
       [ LoggerVerbose ("From RN APP: " +:+ message);
         LoggerError (NestedError
           (InternalError FailedToProcessMessageFromReactNativeApp (TextArgument message))
           DebuggingWontWorkReloadJSAndReconnect (SyntaxError message)) ]
  /\ (forall s sk next,
        sockets st !! s = Some sk -> listeners sk = true ->
        handle (SocketMessage s next) (handle (SocketMessage s message) st)
        = exec (onMessage next) (exec (onMessage message) st))
  /\ (forall anyMessage anyState, fst (onMessage anyMessage anyState) = Normal tt).
Proof.
  intros Hparse. pose proof (onMessage_malformed message st Hparse) as Hrun.
  split; [apply onMessage_returns|].
  split; [rewrite Hrun; apply same_object_with_trace|].
  split; [now rewrite Hrun|].
  split; [|intros; apply onMessage_returns].
  intros s sk next Hs Hl. unfold handle, to_listeners.
  rewrite Hs, Hl, Hrun. cbn [sockets with_trace]. now rewrite Hs, Hl.
Qed.

End Messages.

Lemma malformed_message_is_dropped_witness :
  @JSON_parse Sample.runtime "not json" = None
  /\ trace (exec (onMessage "not json") Sample.connected)
     = trace Sample.connected ++
       [ LoggerVerbose "From RN APP: not json";
         LoggerError (NestedError
           (InternalError FailedToProcessMessageFromReactNativeApp (TextArgument "not json"))
           DebuggingWontWorkReloadJSAndReconnect (SyntaxError "not json")) ].
Proof.
  split; [reflexivity|].
  destruct (malformed_message_is_dropped "not json" Sample.connected eq_refl)
    as (_ & _ & Htrace & _).
  exact Htrace.
Defined.

(** * Sending to the application *)

Section Sending.

Context `{rt : Runtime}.

Lemma sendMessageToApp_returns (message : Payload any) (st : State) :
  fst (sendMessageToApp message st) = Normal tt.
Proof.
  unfold sendMessageToApp, try_catch.
  match goal with |- context [match ?body st with _ => _ end] => destruct (body st) as [[[]|e] st'] end;
    reflexivity.
Qed.

Lemma sendMessageToApp_run (message : Payload any) (st : State) :
  sendMessageToApp message st = (Normal tt, exec (sendMessageToApp message) st).
Proof.
  unfold exec. rewrite <- (sendMessageToApp_returns message st).
  now destruct (sendMessageToApp message st).
Qed.

Lemma sendMessageToApp_same_object (message : Payload any) (st : State) :
  same_object st (exec (sendMessageToApp message) st).
Proof.
  unfold sendMessageToApp, socket_send. unfold_monad.
  destruct (JSON_stringify message); cbn;
    destruct (socketToApp (this st)); cbn;
    repeat case_match; simplify_eq; now repeat split.
Qed.

(** C9: [sendMessageToApp] never throws.  When [JSON.stringify] throws, the
    exception is logged with the string conversion of the payload and
    nothing is written; when the serialization gave its text and the write
    on the socket throws, or there is no socket to write on, the exception
    is logged with that text; when the serialization gave [undefined] and
    the write throws, it is logged with the string conversion again. *)
Theorem sendMessageToApp_never_throws (message : Payload any) (st : State) :
  fst (sendMessageToApp message st) = Normal tt
  /\ same_object st (exec (sendMessageToApp message) st)
  /\ (forall e,
        JSON_stringify message = StringifyThrows e ->
        trace (exec (sendMessageToApp message) st)
        = trace st ++
          [ LoggerError (NestedError
              (InternalError FailedToSendMessageToTheReactNativeApp
                 (TextArgument (toString message)))
              DebuggingWontWorkReloadJSAndReconnect (Raised e)) ])
  /\ (forall text s e,
        JSON_stringify message = Text text ->
        text <> "" ->
        socketToApp (this st) = Some s ->
        ws_send (trace st ++ [LoggerVerbose ("To RN APP: " +:+ text); SocketSend s (Some text)])
          = Some e ->
        trace (exec (sendMessageToApp message) st)
        = trace st ++
          [ LoggerVerbose ("To RN APP: " +:+ text);
            SocketSend s (Some text);
            LoggerError (NestedError
              (InternalError FailedToSendMessageToTheReactNativeApp (TextArgument text))
              DebuggingWontWorkReloadJSAndReconnect (Raised e)) ])
  /\ (forall text,
        JSON_stringify message = Text text ->
        text <> "" ->
        socketToApp (this st) = None ->
        trace (exec (sendMessageToApp message) st)
        = trace st ++
          [ LoggerVerbose ("To RN APP: " +:+ text);
            LoggerError (NestedError
              (InternalError FailedToSendMessageToTheReactNativeApp (TextArgument text))
              DebuggingWontWorkReloadJSAndReconnect TypeError) ])
  /\ (forall s e,
        JSON_stringify message = Undefined ->
        socketToApp (this st) = Some s ->
        ws_send (trace st ++ [LoggerVerbose "To RN APP: undefined"; SocketSend s None])
          = Some e ->
        trace (exec (sendMessageToApp message) st)
        = trace st ++
          [ LoggerVerbose "To RN APP: undefined";
            SocketSend s None;
            LoggerError (NestedError
              (InternalError FailedToSendMessageToTheReactNativeApp
                 (TextArgument (toString message)))
              DebuggingWontWorkReloadJSAndReconnect (Raised e)) ]).
Proof.
  split; [apply sendMessageToApp_returns|].
  split; [apply sendMessageToApp_same_object|].
  split; [|split; [|split]].
  - intros e He. unfold sendMessageToApp. rewrite He. reflexivity.
  - intros text s e Htext Hne Hs Hsend.
    unfold sendMessageToApp, socket_send. unfold_monad. rewrite Htext. cbn.
    rewrite Hs. cbn. rewrite <- app_assoc. cbn. rewrite Hsend. cbn.
    apply String.eqb_neq in Hne. rewrite Hne.
    rewrite <- !app_assoc. reflexivity.
  - intros text Htext Hne Hs.
    unfold sendMessageToApp, socket_send. unfold_monad. rewrite Htext. cbn.
    rewrite Hs. cbn. apply String.eqb_neq in Hne. rewrite Hne.
    rewrite <- !app_assoc. reflexivity.
  - intros s e Hundefined Hs Hsend.
    unfold sendMessageToApp, socket_send. unfold_monad. rewrite Hundefined. cbn.
    rewrite Hs. cbn. rewrite <- app_assoc. cbn. rewrite Hsend. cbn.
    rewrite <- !app_assoc. reflexivity.
Qed.

End Sending.

(** A sandbox posts a message after [stop] closed the socket; another posts
    an object that refers to itself. *)
Lemma sendMessageToApp_never_throws_witness :
  let st := exec stop Sample.debugging in
  (JSON_stringify (Sample.from_worker Sample.Circular) = StringifyThrows Sample.CircularError
   /\ trace (exec (sendMessageToApp (Sample.from_worker Sample.Circular)) st)
      = trace st ++
        [ LoggerError (NestedError
            (InternalError FailedToSendMessageToTheReactNativeApp
               (TextArgument "[object Object]"))
            DebuggingWontWorkReloadJSAndReconnect (Raised Sample.CircularError)) ])
  /\ (ws_send (trace st ++ [LoggerVerbose "To RN APP: {}"; SocketSend 0 (Some "{}")])
        = Some Sample.NotOpened
      /\ trace (exec (sendMessageToApp (Sample.from_worker Sample.NotOpened)) st)
         = trace st ++
           [ LoggerVerbose "To RN APP: {}";
             SocketSend 0 (Some "{}");
             LoggerError (NestedError
               (InternalError FailedToSendMessageToTheReactNativeApp (TextArgument "{}"))
               DebuggingWontWorkReloadJSAndReconnect (Raised Sample.NotOpened)) ]).
Proof.
  intros st. split; (split; [reflexivity|]).
  - apply (sendMessageToApp_never_throws (Sample.from_worker Sample.Circular) st).
    reflexivity.
  - apply (sendMessageToApp_never_throws (Sample.from_worker Sample.NotOpened) st);
      [reflexivity | discriminate | reflexivity | reflexivity].
Defined.

(** * Messages with other methods *)

Section Forwarding.

Context `{rt : Runtime}.

(** C6, amended: a message that parses to a value other than [null], whose
    [method] is neither [prepareJSRuntime] nor [$disconnected], is handled
    without an error.  When the [method] is truthy (for text: not empty) the
    parsed message is posted unchanged to the live lifetime, and nothing
    happens when there is none; when the [method] is absent or falsy the
    message is only logged as one without a method.  A message that parses to
    [null] has no [method] to read: it goes through the error log. *)
Theorem other_methods_are_forwarded (message : string) (object : json) (st : State) :
  JSON_parse message = Some object ->
  let st' := exec (onMessage message) st in
  fst (onMessage message st) = Normal tt
  /\ (forall method,
        get_property (any := any) object "method" = Normal method ->
        strict_equals method "prepareJSRuntime" = false ->
        strict_equals method "$disconnected" = false ->
        same_object st st'
        /\ trace st' = trace st ++
             LoggerVerbose ("From RN APP: " +:+ message) ::
             (if truthy method then
                match singleLifetimeWorker (this st) with
                | Some w => [WorkerPostMessage w object]
                | None => []
                end
              else
                [LoggerVerbose
                   ("The react-native app sent a message without specifying a method: "
                      +:+ message)]))
  /\ (object = JNull ->
      same_object st st'
      /\ trace st' = trace st ++
           [ LoggerVerbose ("From RN APP: " +:+ message);
             LoggerError (NestedError
               (InternalError FailedToProcessMessageFromReactNativeApp (TextArgument message))
               DebuggingWontWorkReloadJSAndReconnect TypeError) ]).
Proof.
  intros Hparse st'. split; [apply onMessage_returns|]. split.
  - intros method Hget Hp Hd. subst st'.
    rewrite (onMessage_other _ _ _ _ Hparse Hget Hp Hd).
    split; [apply same_object_with_trace | reflexivity].
  - intros ->. subst st'. rewrite (onMessage_null _ _ Hparse).
    split; [apply same_object_with_trace | reflexivity].
Qed.

End Forwarding.

(** A script to run reaches the live sandbox as it was parsed. *)
Lemma other_methods_are_forwarded_witness :
  @JSON_parse Sample.runtime Sample.execute_script
    = Some (JObject [("method", JString "executeApplicationScript")])
  /\ trace (exec (onMessage Sample.execute_script) Sample.debugging)
     = trace Sample.debugging ++
       [ LoggerVerbose ("From RN APP: " +:+ Sample.execute_script);
         WorkerPostMessage 0 (JObject [("method", JString "executeApplicationScript")]) ].
Proof.
  split; [reflexivity|].
  destruct (other_methods_are_forwarded Sample.execute_script
              (JObject [("method", JString "executeApplicationScript")]) Sample.debugging
              eq_refl) as (_ & Hother & _).
  destruct (Hother (Some (JString "executeApplicationScript")) eq_refl eq_refl eq_refl)
    as [_ Htrace].
  exact Htrace.
Defined.

(** C6, as the claim words it, fails on a message whose [method] is the
    empty string: it carries a method that is neither of the two names, a
    lifetime is live, and the message is not posted to it but logged as one
    without a method.  And the message [null], which parses and has no
    method, is reported as an error. *)
Lemma empty_method_is_not_forwarded :
  ~ forwards_every_other_method (rt := Sample.runtime)
  /\ trace (exec (onMessage Sample.empty_method) Sample.debugging)
     = trace Sample.debugging ++
       [ LoggerVerbose ("From RN APP: " +:+ Sample.empty_method);
         LoggerVerbose ("The react-native app sent a message without specifying a method: "
                          +:+ Sample.empty_method) ]
  /\ @JSON_parse Sample.runtime "null" = Some JNull
  /\ trace (exec (onMessage "null") Sample.debugging)
     = trace Sample.debugging ++
       [ LoggerVerbose "From RN APP: null";
         LoggerError (NestedError
           (InternalError FailedToProcessMessageFromReactNativeApp (TextArgument "null"))
           DebuggingWontWorkReloadJSAndReconnect TypeError) ].
Proof.
  assert (Hrun : trace (exec (onMessage Sample.empty_method) Sample.debugging)
     = trace Sample.debugging ++
       [ LoggerVerbose ("From RN APP: " +:+ Sample.empty_method);
         LoggerVerbose ("The react-native app sent a message without specifying a method: "
                          +:+ Sample.empty_method) ]) by reflexivity.
  split; [|split; [exact Hrun | split; reflexivity]].
  intros Hclaim.
  destruct (Hclaim Sample.empty_method (JObject [("method", JString "")]) (JString "")
              Sample.debugging 0%nat) as [delta [Htrace Hposted]]; try reflexivity.
  rewrite Hrun in Htrace. apply app_inv_head in Htrace. subst delta.
  destruct Hposted as [H|[H|[]]]; discriminate H.
Qed.

(** * Stopping *)

Section Stopping.

Context `{rt : Runtime}.

Lemma closing_calls (s : nat) (t : list (Effect any)) :
  (t ++ [SocketRemoveAllListeners s]) ++ [SocketClose s]
  = t ++ [SocketRemoveAllListeners s; SocketClose s].
Proof. now rewrite <- app_assoc. Qed.

(** [stop] ends as the [close] of the socket does. *)
Lemma stop_completion (st : State) :
  fst (stop st) = match stop_exception st with
                  | Some e => Throw (Raised e)
                  | None => Normal tt
                  end.
Proof.
  unfold stop, socket_close, stop_exception. unfold_monad.
  destruct (socketToApp (this st)) as [s|]; cbn.
  - rewrite closing_calls.
    destruct (ws_close (trace st ++ [SocketRemoveAllListeners s; SocketClose s]));
      [reflexivity|].
    now destruct (singleLifetimeWorker (this st)).
  - now destruct (singleLifetimeWorker (this st)).
Qed.

Lemma stop_this (st : State) : this (exec stop st) = this st.
Proof.
  unfold stop, socket_close. unfold_monad.
  destruct (socketToApp (this st)); cbn;
    repeat (case_match; simplify_eq; cbn); reflexivity.
Qed.

Lemma stop_trace (st : State) :
  trace (exec stop st) = trace st ++ teardown_calls st.
Proof.
  unfold stop, socket_close, teardown_calls, stop_exception. unfold_monad.
  destruct (socketToApp (this st)) as [s|]; cbn.
  - rewrite closing_calls.
    destruct (ws_close (trace st ++ [SocketRemoveAllListeners s; SocketClose s])); cbn;
      [now rewrite closing_calls|].
    destruct (singleLifetimeWorker (this st)); cbn;
      now rewrite ?app_nil_r, closing_calls, <- ?app_assoc.
  - destruct (singleLifetimeWorker (this st)); cbn; now rewrite ?app_nil_r.
Qed.

Lemma stop_same_object (st : State) :
  same_object (exec stop st) (exec stop (exec stop st)).
Proof.
  unfold stop, socket_close. unfold_monad.
  destruct (socketToApp (this st)) as [s|] eqn:Hs; cbn.
  - repeat (case_match; simplify_eq; cbn in * ); rewrite ?Hs in *; simplify_eq; cbn;
      repeat (case_match; simplify_eq; cbn in * );
      (repeat split; try reflexivity);
      unfold with_trace, with_sockets; cbn;
      rewrite list_alter_alter_eq; now apply list_alter_ext.
  - repeat (case_match; simplify_eq; cbn in * ); rewrite ?Hs in *; cbn;
      repeat (case_match; simplify_eq; cbn in * ); now repeat split.
Qed.

(** C10, amended: [stop] changes no field of the object, so a second call
    finds the same socket and the same worker and asks of them again what
    the first call asked: [removeAllListeners] and [close] on the socket
    and, if [close] returns, [stop] on the worker.  A call of [stop] ends
    with an exception exactly when the [close] of the socket throws, and it
    then ends with that exception, before the worker is reached.  Apart
    from the trace, the state after the second call is the state after the
    first. *)
Theorem stop_twice (st : State) :
  let st1 := exec stop st in
  let st2 := exec stop st1 in
  let socket_calls :=
    match socketToApp (this st) with
    | Some s => [SocketRemoveAllListeners s; SocketClose s]
    | None => []
    end in
  let worker_calls (exception : option any) :=
    match exception, singleLifetimeWorker (this st) with
    | None, Some w => [WorkerStop w]
    | _, _ => []
    end in
  let exception1 :=
    match socketToApp (this st) with
    | Some s => ws_close (trace st ++ [SocketRemoveAllListeners s; SocketClose s])
    | None => None
    end in
  let exception2 :=
    match socketToApp (this st) with
    | Some s => ws_close (trace st1 ++ [SocketRemoveAllListeners s; SocketClose s])
    | None => None
    end in
  fst (stop st) = match exception1 with
                  | Some e => Throw (Raised e)
                  | None => Normal tt
                  end
  /\ fst (stop st1) = match exception2 with
                      | Some e => Throw (Raised e)
                      | None => Normal tt
                      end
  /\ this st1 = this st
  /\ trace st1 = trace st ++ socket_calls ++ worker_calls exception1
  /\ trace st2 = trace st1 ++ socket_calls ++ worker_calls exception2
  /\ same_object st1 st2.
Proof.
  intros st1 st2 socket_calls worker_calls exception1 exception2.
  assert (Hthis : this st1 = this st) by apply stop_this.
  assert (H1 : stop_exception st = exception1) by reflexivity.
  assert (H2 : stop_exception st1 = exception2).
  { unfold stop_exception. now rewrite Hthis. }
  split; [rewrite <- H1; apply stop_completion|].
  split; [rewrite <- H2; apply stop_completion|].
  split; [exact Hthis|].
  split; [|split; [|apply stop_same_object]].
  - subst st1. rewrite stop_trace. unfold teardown_calls. now rewrite H1.
  - subst st2. rewrite stop_trace. unfold teardown_calls. now rewrite H2, Hthis.
Qed.

End Stopping.

(** C10, as the claim words it, fails twice.  With a socket open and a
    sandbox live, the second [stop] calls [removeAllListeners] and [close] on
    the socket and [stop] on the worker again.  And with a sandbox live and
    the socket of a retry still connecting, the [close] of that socket
    throws: [stop] ends with the exception and does not stop the worker. *)
Lemma second_stop_repeats_teardown :
  ~ second_stop_is_silent (rt := Sample.runtime)
  /\ trace (exec stop (exec stop Sample.debugging))
     = trace (exec stop Sample.debugging)
       ++ [SocketRemoveAllListeners 0; SocketClose 0; WorkerStop 0]
  /\ ~ stop_produces_no_error (rt := Sample.runtime)
  /\ fst (stop Sample.resuming) = Throw (Raised Sample.ClosedBeforeOpen)
  /\ singleLifetimeWorker (this Sample.resuming) = Some 0%nat
  /\ trace (exec stop Sample.resuming)
     = trace Sample.resuming ++ [SocketRemoveAllListeners 1; SocketClose 1].
Proof.
  assert (Hrun : trace (exec stop (exec stop Sample.debugging))
     = trace (exec stop Sample.debugging)
       ++ [SocketRemoveAllListeners 0; SocketClose 0; WorkerStop 0]) by reflexivity.
  assert (Hthrows : fst (stop Sample.resuming) = Throw (Raised Sample.ClosedBeforeOpen))
    by (vm_compute; reflexivity).
  split; [|split; [exact Hrun|split; [|split; [exact Hthrows|split; vm_compute; reflexivity]]]].
  - intros Hclaim. specialize (Hclaim Sample.debugging).
    rewrite Hrun in Hclaim.
    apply (f_equal (@length _)) in Hclaim. rewrite length_app in Hclaim.
    cbn [length] in Hclaim. lia.
  - intros Hclaim.
    assert (Hreach : reachable Sample.resuming).
    { unfold Sample.resuming, Sample.debugging, Sample.connected, Sample.connecting, run.
      cbn [fold_left]. repeat apply reachable_step.
      now apply (reachable_new (Some "localhost") 8081 "/store" "/project" None). }
    specialize (Hclaim Sample.resuming Hreach). rewrite Hthrows in Hclaim.
    discriminate Hclaim.
Qed.

(** * Lifetimes *)

Section Lifetimes.

Context `{rt : Runtime}.

Lemma live_after_snoc (tr : list (Effect any)) (e : Effect any) :
  live_after (tr ++ [e]) = track e (live_after tr).
Proof. unfold live_after. now rewrite fold_left_app. Qed.

Lemma live_after_app (tr d : list (Effect any)) :
  live_after (tr ++ d) = fold_left (fun live e => track e live) d (live_after tr).
Proof. unfold live_after. now rewrite fold_left_app. Qed.

Lemma track_quiet (e : Effect any) (live : list nat) :
  is_lifetime_call e = false -> track e live = live.
Proof. now destruct e. Qed.

Lemma never_two_nil : never_two [].
Proof. intros n. rewrite take_nil. cbn. lia. Qed.

Lemma never_two_snoc (tr : list (Effect any)) (e : Effect any) :
  never_two tr ->
  (length (live_after (tr ++ [e])) <= 1)%nat ->
  never_two (tr ++ [e]).
Proof.
  intros Htr He n. destruct (decide (n <= length tr)%nat) as [Hn|Hn].
  - rewrite take_app_le by exact Hn. apply Htr.
  - rewrite take_ge by (rewrite length_app; cbn; lia). exact He.
Qed.

Lemma never_two_now (tr : list (Effect any)) :
  never_two tr -> (length (live_after tr) <= 1)%nat.
Proof. intros H. specialize (H (length tr)). now rewrite firstn_all in H. Qed.

Lemma lifetimes_nil (field : option nat) : lifetimes [] field.
Proof. split; [apply never_two_nil | intros w Hw; inversion Hw]. Qed.

Lemma lifetimes_quiet (tr : list (Effect any)) (field : option nat) (e : Effect any) :
  is_lifetime_call e = false ->
  lifetimes tr field -> lifetimes (tr ++ [e]) field.
Proof.
  intros He [Hnever Hlive]. split.
  - apply never_two_snoc; [exact Hnever|].
    rewrite live_after_snoc, track_quiet by exact He. now apply never_two_now.
  - intros w. rewrite live_after_snoc, track_quiet by exact He. apply Hlive.
Qed.

Lemma lifetimes_quiet_app (tr d : list (Effect any)) (field : option nat) :
  forallb (fun e => negb (is_lifetime_call e)) d = true ->
  lifetimes tr field -> lifetimes (tr ++ d) field.
Proof.
  revert tr. induction d as [|e d IH]; intros tr Hd Htr.
  - now rewrite app_nil_r.
  - cbn in Hd. apply andb_true_iff in Hd as [He Hd].
    change (e :: d) with ([e] ++ d). rewrite app_assoc.
    apply IH; [exact Hd|]. apply lifetimes_quiet; [|exact Htr].
    now apply negb_true_iff.
Qed.

(** [stop] on a worker leaves fewer lifetimes alive. *)
Lemma lifetimes_stop (tr : list (Effect any)) (field : option nat) (w : nat) :
  lifetimes tr field -> lifetimes (tr ++ [WorkerStop w]) field.
Proof.
  intros [Hnever Hlive]. split.
  - apply never_two_snoc; [exact Hnever|].
    rewrite live_after_snoc. cbn.
    etransitivity; [apply length_filter | now apply never_two_now].
  - intros v. rewrite live_after_snoc. cbn. rewrite list_elem_of_filter.
    intros [_ Hv]. now apply Hlive.
Qed.

(** [killWorker]: after [stop] on the worker of the field no lifetime is
    alive, so the field can be cleared. *)
Lemma lifetimes_kill (tr : list (Effect any)) (w : nat) :
  lifetimes tr (Some w) -> lifetimes (tr ++ [WorkerStop w]) None.
Proof.
  intros Htr. destruct (lifetimes_stop tr (Some w) w Htr) as [Hnever _].
  split; [exact Hnever|].
  intros v. rewrite live_after_snoc. cbn. rewrite list_elem_of_filter.
  intros [Hne Hv]. destruct Htr as [_ Hlive]. specialize (Hlive v Hv). congruence.
Qed.

Lemma lifetimes_none_live (tr : list (Effect any)) :
  lifetimes tr None -> live_after tr = [].
Proof.
  intros [_ Hlive]. destruct (live_after tr) as [|v l]; [reflexivity|].
  specialize (Hlive v (list_elem_of_here v l)). discriminate Hlive.
Qed.

(** A lifetime that starts when none is alive is the only one alive. *)
Lemma lifetimes_new (tr : list (Effect any)) (w : nat) :
  lifetimes tr None -> lifetimes (tr ++ [NewForkedAppWorker w]) (Some w).
Proof.
  intros Htr. pose proof (lifetimes_none_live tr Htr) as Hnone.
  destruct Htr as [Hnever _]. split.
  - apply never_two_snoc; [exact Hnever|]. rewrite live_after_snoc, Hnone. cbn. lia.
  - intros v. rewrite live_after_snoc, Hnone. cbn.
    intros Hv. apply list_elem_of_singleton in Hv. now subst.
Qed.

End Lifetimes.

(** * The invariant of reachable states *)

Ltac unfold_methods :=
  unfold start, stop, socket_close, downloadAndPatchDebuggerWorker, downloaded_then,
    readFile_then, createSocketToApp, onSocketOpened, onSocketClose, onSocketError,
    executionLimiter_execute, settle, sendMessageToApp, socket_send,
    workerStarted_then, workerStartFailed_then, packagerChecked_then in *.

Ltac unfold_state :=
  unfold with_this, with_sockets, with_workers, with_promises, with_tasks, with_trace,
    set_socketToApp, set_singleLifetimeWorker, set_executionLimiter in *;
  cbn [this sockets workers promises tasks trace packagerAddress packagerPort
       sourcesStoragePath projectRootPath debuggerWorkerUrlPath socketToApp
       singleLifetimeWorker executionLimiter] in *.

Section Invariant.

Context `{rt : Runtime}.

Lemma task_ok_mono (st st' : State) (t : Task) :
  (length (promises st) <= length (promises st'))%nat ->
  (workers st <= workers st')%nat ->
  task_ok st t -> task_ok st' t.
Proof. destruct t; cbn; lia. Qed.

Lemma tasks_ok_mono (st st' : State) (ts : list Task) :
  (length (promises st) <= length (promises st'))%nat ->
  (workers st <= workers st')%nat ->
  Forall (task_ok st) ts -> Forall (task_ok st') ts.
Proof.
  intros Hp Hw Hall. eapply Forall_impl; [exact Hall|].
  intros t. now apply task_ok_mono.
Qed.

Lemma take_task_Some (select : Task -> bool) (ts rest : list Task) (t : Task) :
  take_task select ts = Some (t, rest) ->
  select t = true /\ exists before after,
    ts = before ++ t :: after /\ rest = before ++ after
    /\ Forall (fun x => select x = false) before.
Proof.
  revert rest. induction ts as [|x ts IH]; intros rest; cbn; [discriminate|].
  destruct (select x) eqn:Hx.
  - intros [= -> ->]. split; [exact Hx|]. exists [], rest. now repeat split.
  - destruct (take_task select ts) as [[found rest']|]; [|discriminate].
    intros [= -> <-]. destruct (IH rest' eq_refl) as (Hsel & before & after & -> & -> & Hb).
    split; [exact Hsel|]. exists (x :: before), after. repeat split. now constructor.
Qed.

Lemma take_task_Forall (P : Task -> Prop) (select : Task -> bool)
    (ts rest : list Task) (t : Task) :
  take_task select ts = Some (t, rest) ->
  Forall P ts -> P t /\ Forall P rest.
Proof.
  intros Htake Hall. apply take_task_Some in Htake as (_ & before & after & -> & -> & _).
  apply Forall_app in Hall as [Hb Ha]. apply Forall_cons in Ha as [Ht Ha].
  split; [exact Ht | now apply Forall_app].
Qed.

Lemma invariant_perform (e : Effect any) (st : State) :
  is_lifetime_call e = false ->
  invariant st -> invariant (with_trace (fun t => t ++ [e]) st).
Proof.
  intros He [Hl Hw Ht Hs Hc]. constructor; unfold_state; try assumption.
  now apply lifetimes_quiet.
Qed.

Lemma invariant_spawn (t : Task) (st : State) :
  task_ok st t ->
  invariant st -> invariant (with_tasks (fun ts => ts ++ [t]) st).
Proof.
  intros Hok [Hl Hw Ht Hs Hc]. constructor; unfold_state; try assumption.
  apply Forall_app. split; [exact Ht | now constructor].
Qed.

Lemma invariant_resume (rest : list Task) (st : State) :
  Forall (task_ok st) rest ->
  invariant st -> invariant (with_tasks (fun _ => rest) st).
Proof. intros Hrest [Hl Hw Ht Hs Hc]. now constructor. Qed.

Lemma invariant_new_promise (st : State) :
  invariant st -> invariant (with_promises (fun ps => ps ++ [Pending]) st).
Proof.
  intros [Hl Hw Ht Hs Hc]. constructor; unfold_state; try assumption.
  eapply Forall_impl; [exact Ht|]. intros []; cbn; rewrite ?length_app; cbn; lia.
Qed.

Lemma invariant_settle (p : nat) (outcome : PromiseState) (st : State) :
  invariant st ->
  invariant (with_promises (fun ps =>
    match ps !! p with
    | Some Pending => <[p := outcome]> ps
    | _ => ps
    end) st).
Proof.
  intros [Hl Hw Ht Hs Hc].
  constructor; unfold_state; try assumption.
  eapply Forall_impl; [exact Ht|].
  intros t. destruct (promises st !! p) as [[]|]; try exact id.
  destruct t; cbn; rewrite ?length_insert; exact id.
Qed.

Lemma invariant_limiter (m : gmap string Z) (st : State) :
  invariant st -> invariant (with_this (set_executionLimiter m) st).
Proof. intros [Hl Hw Ht Hs Hc]. now constructor. Qed.

Lemma invariant_alter_socket (f : WebSocket -> WebSocket) (s : nat) (st : State) :
  invariant st -> invariant (with_sockets (alter f s) st).
Proof.
  intros [Hl Hw Ht Hs Hc]. constructor; unfold_state; try assumption.
  - intros k Hk. rewrite length_alter. now apply Hs.
  - intros [H|H]; apply Hc; [now left | right].
    intros Hnil. apply H. now rewrite Hnil.
Qed.

Lemma invariant_new_socket (sk : WebSocket) (s : nat) (st : State) :
  s = length (sockets st) ->
  invariant st ->
  invariant (with_this (set_socketToApp (Some s))
               (with_sockets (fun sks => sks ++ [sk]) st)).
Proof.
  intros -> [Hl Hw Ht Hs Hc]. constructor; unfold_state; try assumption.
  - intros s [= <-]. rewrite length_app. cbn. lia.
  - intros _. now eexists.
Qed.

Lemma invariant_stop_worker (w : nat) (st : State) :
  invariant st -> invariant (with_trace (fun t => t ++ [WorkerStop w]) st).
Proof.
  intros [Hl Hw Ht Hs Hc]. constructor; unfold_state; try assumption.
  now apply lifetimes_stop.
Qed.

Lemma invariant_killWorker (st : State) :
  invariant st -> invariant (exec killWorker st).
Proof.
  intros Hinv. unfold killWorker. unfold_monad. cbn.
  destruct (singleLifetimeWorker (this st)) as [w|] eqn:Hfield; [|exact Hinv].
  destruct Hinv as [Hl Hw Ht Hs Hc]. constructor; unfold_state; try assumption.
  - rewrite Hfield in Hl. now apply lifetimes_kill.
  - discriminate.
Qed.

Lemma killWorker_clears (st : State) :
  singleLifetimeWorker (this (exec killWorker st)) = None.
Proof.
  unfold killWorker. unfold_monad. cbn.
  now destruct (singleLifetimeWorker (this st)) eqn:Hfield.
Qed.

Lemma killWorker_sockets (st : State) :
  sockets (exec killWorker st) = sockets st.
Proof.
  unfold killWorker. unfold_monad. cbn.
  now destruct (singleLifetimeWorker (this st)).
Qed.

(** A new lifetime is started from the handler of a message, which a
    socket delivered. *)
Lemma invariant_gotPrepareJSRuntime (message : json) (st : State) :
  singleLifetimeWorker (this st) = None ->
  sockets st <> [] ->
  invariant st -> invariant (exec (gotPrepareJSRuntime message) st).
Proof.
  intros Hnone Hsocket [Hl Hw Ht Hs Hc].
  unfold gotPrepareJSRuntime, startNewWorkerLifetime. unfold_monad. cbn.
  constructor; unfold_state.
  - do 2 (apply lifetimes_quiet; [reflexivity|]).
    apply lifetimes_new. now rewrite Hnone in Hl.
  - intros w [= <-]. lia.
  - apply Forall_app. split; [|constructor; [cbn; lia | constructor]].
    eapply Forall_impl; [exact Ht|]. intros []; cbn; lia.
  - exact Hs.
  - intros _. apply Hc. now right.
Qed.

Ltac invariant_steps :=
  repeat first
    [ assumption
    | apply invariant_perform; [reflexivity|]
    | apply invariant_spawn; [unfold_state; cbn; rewrite ?length_app; cbn; lia|]
    | apply invariant_new_promise
    | apply invariant_limiter
    | apply invariant_alter_socket
    | apply invariant_stop_worker
    | apply invariant_settle
    | apply invariant_new_socket; [reflexivity|] ].

Lemma invariant_sendMessageToApp (message : Payload any) (st : State) :
  invariant st -> invariant (exec (sendMessageToApp message) st).
Proof.
  intros Hinv. unfold_methods. unfold_monad.
  destruct (JSON_stringify message); cbn;
    destruct (socketToApp (this st)); cbn;
    repeat (case_match; unfold_monad; simplify_eq; cbn in * ); invariant_steps.
Qed.

Lemma invariant_start (retry : bool) (st : State) :
  invariant st -> invariant (exec (start retry) st).
Proof. intros Hinv. unfold_methods. unfold_monad. cbn. invariant_steps. Qed.

Lemma invariant_stop (st : State) :
  invariant st -> invariant (exec stop st).
Proof.
  intros Hinv. unfold_methods. unfold_monad.
  destruct (socketToApp (this st)); cbn;
    repeat (case_match; unfold_monad; simplify_eq; cbn in * ); invariant_steps.
Qed.

Lemma invariant_createSocketToApp (p : nat) (retry : bool) (st : State) :
  (p < length (promises st))%nat ->
  invariant st -> invariant (exec (createSocketToApp p retry) st).
Proof. intros Hp Hinv. unfold_methods. unfold_monad. cbn. invariant_steps. Qed.

Lemma invariant_packagerChecked_then (p : nat) (retry running : bool) (st : State) :
  (p < length (promises st))%nat ->
  invariant st -> invariant (exec (packagerChecked_then p retry running) st).
Proof.
  intros Hp Hinv. unfold packagerChecked_then.
  destruct running; [destruct retry|].
  - now apply invariant_createSocketToApp.
  - unfold_methods. unfold_monad. cbn. invariant_steps.
  - unfold_methods. unfold_monad. cbn. invariant_steps.
Qed.

Lemma invariant_onSocketOpened (now : Z) (st : State) :
  invariant st -> invariant (exec (onSocketOpened now) st).
Proof.
  intros Hinv. unfold_methods. unfold_monad. cbn.
  repeat (case_match; unfold_monad; simplify_eq; cbn in * ); invariant_steps.
Qed.

Lemma invariant_onSocketClose (sk : WebSocket) (now : Z) (st : State) :
  invariant st -> invariant (exec (onSocketClose sk now) st).
Proof.
  intros Hinv. unfold_methods. unfold_monad. cbn.
  repeat (case_match; unfold_monad; simplify_eq; cbn in * ); invariant_steps.
Qed.

Lemma invariant_onSocketError (sk : WebSocket) (error : any) (st : State) :
  invariant st -> invariant (exec (onSocketError sk error) st).
Proof.
  intros Hinv. unfold_methods. unfold_monad. cbn.
  repeat (case_match; unfold_monad; simplify_eq; cbn in * ); invariant_steps.
Qed.

Lemma invariant_same_object (st st' : State) (d : list (Effect any)) :
  same_object st st' ->
  trace st' = trace st ++ d ->
  forallb (fun e => negb (is_lifetime_call e)) d = true ->
  invariant st -> invariant st'.
Proof.
  intros (Hthis & Hsockets & Hworkers & Hpromises & Htasks) Htrace Hd [Hl Hw Ht Hs Hc].
  constructor; rewrite ?Hthis, ?Hsockets, ?Hworkers, ?Htasks, ?Htrace; try assumption.
  - now apply lifetimes_quiet_app.
  - eapply tasks_ok_mono; [| |exact Ht]; rewrite ?Hpromises, ?Hworkers; lia.
Qed.

Lemma invariant_onMessage (message : string) (st : State) :
  sockets st <> [] ->
  invariant st -> invariant (exec (onMessage message) st).
Proof.
  intros Hsocket Hinv.
  destruct (JSON_parse message) as [object|] eqn:Hparse.
  - destruct (get_property (any := any) object "method") as [method|e] eqn:Hget.
    + destruct (strict_equals method "prepareJSRuntime") eqn:Hp;
        [|destruct (strict_equals method "$disconnected") eqn:Hd].
      * rewrite (onMessage_prepareJSRuntime _ _ _ _ Hparse Hget Hp).
        apply invariant_gotPrepareJSRuntime.
        -- apply killWorker_clears.
        -- now rewrite killWorker_sockets.
        -- apply invariant_killWorker. now invariant_steps.
      * rewrite (onMessage_disconnected _ _ _ _ Hparse Hget Hp Hd).
        apply invariant_killWorker. now invariant_steps.
      * rewrite (onMessage_other _ _ _ _ Hparse Hget Hp Hd).
        eapply invariant_same_object;
          [apply same_object_with_trace | reflexivity | | exact Hinv].
        destruct (truthy method); [destruct (singleLifetimeWorker (this st))|];
          reflexivity.
    + destruct object; try discriminate Hget.
      rewrite (onMessage_null _ _ Hparse).
      eapply invariant_same_object;
        [apply same_object_with_trace | reflexivity | reflexivity | exact Hinv].
  - rewrite (onMessage_malformed _ _ Hparse).
    eapply invariant_same_object;
      [apply same_object_with_trace | reflexivity | reflexivity | exact Hinv].
Qed.

Lemma workerStarted_then_run (message : json) (startedEvent : any) (st : State) :
  exec (workerStarted_then message startedEvent) st
  = match get_property (any := any) message "id" with
    | Normal id =>
        exec (sendMessageToApp (ReplyID (inject_Z <$> parseInt id)))
          (with_trace (fun t => t ++ [Emit "connected" startedEvent]) st)
    | Throw _ => with_trace (fun t => t ++ [Emit "connected" startedEvent]) st
    end.
Proof.
  unfold workerStarted_then. unfold_monad. cbn [fst snd].
  destruct (get_property (any := any) message "id") as [id|e]; [|reflexivity].
  now rewrite sendMessageToApp_run.
Qed.

Lemma invariant_workerStarted_then (message : json) (startedEvent : any) (st : State) :
  invariant st -> invariant (exec (workerStarted_then message startedEvent) st).
Proof.
  intros Hinv. rewrite workerStarted_then_run.
  destruct (get_property (any := any) message "id") as [id|e].
  - apply invariant_sendMessageToApp. invariant_steps.
  - invariant_steps.
Qed.

(** Taking a pending task out leaves the invariant, and the task taken
    named a promise or a worker that exists. *)
Lemma invariant_take_task (select : Task -> bool) (t : Task) (rest : list Task) (st : State) :
  take_task select (tasks st) = Some (t, rest) ->
  invariant st ->
  select t = true /\ task_ok st t /\ invariant (with_tasks (fun _ => rest) st).
Proof.
  intros Htake Hinv.
  destruct (take_task_Forall (task_ok st) _ _ _ _ Htake (inv_tasks st Hinv)) as [Hok Hrest].
  apply take_task_Some in Htake as [Hsel _].
  split; [exact Hsel | split; [exact Hok | now apply invariant_resume]].
Qed.

Ltac resumed Hinv :=
  destruct (take_task _ _) as [[t rest]|] eqn:Htake; [|exact Hinv];
  destruct (invariant_take_task _ _ _ _ Htake Hinv) as (Hsel & Hok & Hrest);
  destruct t; try discriminate Hsel;
  cbn in Hsel, Hok; try (apply Nat.eqb_eq in Hsel; subst).

Lemma handle_invariant (ev : Event) (st : State) :
  invariant st -> invariant (handle ev st).
Proof.
  intros Hinv. destruct ev; cbn [handle]; unfold resume, to_listeners.
  - now apply invariant_start.
  - now apply invariant_stop.
  - resumed Hinv. now apply invariant_packagerChecked_then.
  - resumed Hinv.
    destruct failure; unfold_methods; unfold_monad; cbn; invariant_steps.
  - resumed Hinv.
    destruct result; unfold_methods; unfold_monad; cbn; invariant_steps.
  - resumed Hinv.
    destruct failure; [unfold_methods; unfold_monad; cbn; invariant_steps|].
    now apply invariant_createSocketToApp.
  - resumed Hinv. unfold_methods; unfold_monad; cbn; invariant_steps.
  - resumed Hinv. unfold_methods; unfold_monad; cbn; invariant_steps.
  - destruct (sockets st !! s) as [sk|]; [|exact Hinv].
    destruct (listeners sk); [|exact Hinv]. now apply invariant_onSocketOpened.
  - destruct (sockets (record_closeMessage s closeMessage st) !! s) as [sk|];
      [destruct (listeners sk)|]; try apply invariant_onSocketClose;
      now apply invariant_alter_socket.
  - destruct (sockets st !! s) as [sk|] eqn:Hs; [|exact Hinv].
    destruct (listeners sk); [|exact Hinv]. apply invariant_onMessage; [|exact Hinv].
    intros Hnil. now rewrite Hnil in Hs.
  - destruct (sockets st !! s) as [sk|]; [|exact Hinv].
    destruct (listeners sk); [|exact Hinv]. now apply invariant_onSocketError.
  - resumed Hinv. now apply invariant_workerStarted_then.
  - resumed Hinv. unfold_methods; unfold_monad; cbn; invariant_steps.
  - destruct (w <? workers st)%nat; [|exact Hinv]. now apply invariant_sendMessageToApp.
Qed.

Lemma constructor_invariant (address : option string) (port : Z)
    (storage project : string) (urlPath : option string) (st : State) :
  constructor address port storage project urlPath = Normal st -> invariant st.
Proof.
  unfold constructor. destruct (String.eqb storage ""); [discriminate|].
  intros [= <-]. constructor; cbn.
  - apply lifetimes_nil.
  - discriminate.
  - constructor.
  - discriminate.
  - intros [H|H]; [lia | now contradiction H].
Qed.

Lemma reachable_invariant (st : State) : reachable st -> invariant st.
Proof.
  induction 1 as [? ? ? ? ? ? Hnew | ev st _ IH].
  - eapply constructor_invariant, Hnew.
  - now apply handle_invariant.
Qed.

Lemma reachable_run (evs : list Event) (st : State) :
  reachable st -> reachable (run evs st).
Proof.
  revert st. induction evs as [|ev evs IH]; intros st Hst; [exact Hst|].
  cbn. apply IH. now constructor.
Qed.

End Invariant.

(** * At most one lifetime *)

Section OneLifetime.

Context `{rt : Runtime}.

Lemma killWorker_live (w : nat) (st : State) :
  singleLifetimeWorker (this st) = Some w ->
  exec killWorker st
  = with_this (set_singleLifetimeWorker None)
      (with_trace (fun t => t ++ [WorkerStop w]) st).
Proof.
  intros Hfield. unfold killWorker. unfold_monad. cbn. now rewrite Hfield.
Qed.

(** C1: in every state that events can lead to, the trace never has two
    lifetimes alive, not even between two calls; after every further
    sequence of events at most one is alive; and a lifetime that is alive is
    the one the field holds.  When [prepareJSRuntime] arrives while
    the field holds a lifetime, [stop] is called on it before the new worker
    is constructed and started, and afterwards the new one alone is alive. *)
Theorem at_most_one_lifetime (st : State) :
  reachable st ->
  never_two (trace st)
  /\ (forall evs, length (live_after (trace (run evs st))) <= 1)%nat
  /\ (forall w, w ∈ live_after (trace st) -> singleLifetimeWorker (this st) = Some w)
  /\ (forall s sk message object method w,
        sockets st !! s = Some sk -> listeners sk = true ->
        JSON_parse message = Some object ->
        get_property (any := any) object "method" = Normal method ->
        strict_equals method "prepareJSRuntime" = true ->
        singleLifetimeWorker (this st) = Some w ->
        let st' := handle (SocketMessage s message) st in
        workers st <> w
        /\ trace st' = trace st ++
             [ LoggerVerbose ("From RN APP: " +:+ message);
               WorkerStop w;
               NewForkedAppWorker (workers st);
               LoggerVerbose "A new app worker lifetime was created.";
               WorkerStart (workers st) ]
        /\ singleLifetimeWorker (this st') = Some (workers st)
        /\ live_after (trace st') = [workers st]).
Proof.
  intros Hreach. pose proof (reachable_invariant st Hreach) as Hinv.
  destruct (inv_lifetimes st Hinv) as [Hnever Hlive].
  split; [exact Hnever|]. split; [|split; [exact Hlive|]].
  { intros evs. apply never_two_now.
    now apply (inv_lifetimes _ (reachable_invariant _ (reachable_run evs st Hreach))). }
  intros s sk message object method w Hs Hl Hparse Hget Hp Hfield st'.
  assert (Hrun : st' = exec (gotPrepareJSRuntime object)
            (with_this (set_singleLifetimeWorker None)
               (with_trace (fun t => t ++ [WorkerStop w])
                  (with_trace (fun t => t ++ [LoggerVerbose ("From RN APP: " +:+ message)]) st)))).
  { subst st'. unfold handle, to_listeners. rewrite Hs, Hl.
    rewrite (onMessage_prepareJSRuntime _ _ _ _ Hparse Hget Hp).
    now rewrite (killWorker_live w) by exact Hfield. }
  assert (Htrace : trace st' = trace st ++
             [ LoggerVerbose ("From RN APP: " +:+ message);
               WorkerStop w;
               NewForkedAppWorker (workers st);
               LoggerVerbose "A new app worker lifetime was created.";
               WorkerStart (workers st) ]).
  { rewrite Hrun. unfold gotPrepareJSRuntime, startNewWorkerLifetime. unfold_monad.
    cbn. now rewrite <- !app_assoc. }
  split; [pose proof (inv_worker st Hinv w Hfield); lia|].
  split; [exact Htrace|]. split; [now rewrite Hrun|].
  rewrite Htrace.
  assert (Hkilled : live_after ((trace st ++ [LoggerVerbose ("From RN APP: " +:+ message)])
                                  ++ [WorkerStop w]) = []).
  { apply lifetimes_none_live, lifetimes_kill, lifetimes_quiet; [reflexivity|].
    rewrite <- Hfield. exact (inv_lifetimes st Hinv). }
  rewrite !live_after_snoc in Hkilled. cbn in Hkilled.
  rewrite live_after_app. cbn. now rewrite Hkilled.
Qed.

End OneLifetime.

Lemma sample_fresh_reachable : reachable Sample.fresh.
Proof. now apply (reachable_new (Some "localhost") 8081 "/store" "/project" None). Qed.

Lemma sample_debugging_reachable : reachable Sample.debugging.
Proof. do 3 apply reachable_run. apply sample_fresh_reachable. Qed.

(** A second [prepareJSRuntime] while the first sandbox is live. *)
Lemma at_most_one_lifetime_witness :
  reachable (handle (SocketMessage 0 Sample.prepare_42) Sample.debugging)
  /\ never_two (trace (handle (SocketMessage 0 Sample.prepare_42) Sample.debugging)).
Proof.
  assert (Hreach : reachable (handle (SocketMessage 0 Sample.prepare_42) Sample.debugging))
    by (constructor; apply sample_debugging_reachable).
  split; [exact Hreach|].
  apply (at_most_one_lifetime _ Hreach).
Defined.

(** * The acknowledgement of [prepareJSRuntime] *)

Section Acknowledgement.

Context `{rt : Runtime}.

(** [parseInt] gives back an integer of magnitude below 10^21. *)
Lemma parseInt_integer (q : Q) (n : Z) :
  (q == inject_Z n)%Q -> (Z.abs n < 10 ^ 21)%Z ->
  parseInt (Some (JNumber q)) = Some n.
Proof.
  intros Hq Hn. unfold Qeq in Hq. cbn in Hq. rewrite Z.mul_1_r in Hq.
  unfold parseInt.
  assert (Hdec : decimal_notation q = true).
  { unfold decimal_notation. destruct (Z.eq_dec n 0) as [->|Hne].
    - apply orb_true_iff. left. apply Qeq_bool_iff. unfold Qeq. cbn. lia.
    - apply orb_true_iff. right. apply andb_true_iff.
      rewrite Z.leb_le, Z.ltb_lt, Hq, Z.abs_mul.
      rewrite (Z.abs_eq (Z.pos (Qden q))) by lia. split; nia. }
  rewrite Hdec, Hq. f_equal. apply Z.quot_mul. lia.
Qed.

Lemma take_task_skip (select : Task -> bool) (before : list Task) (t : Task) :
  Forall (fun x => select x = false) before ->
  select t = true ->
  take_task select (before ++ [t]) = Some (t, before).
Proof.
  intros Hb Ht. induction Hb as [|x before Hx _ IH]; cbn.
  - now rewrite Ht.
  - now rewrite Hx, IH.
Qed.

(** What a successful start of the worker leads to, in any state where the
    start is awaited and the class holds a socket. *)
Lemma workerStarted_acknowledges (w : nat) (object : json) (rest : list Task)
    (id : option json) (k : nat) (text : string) (startedEvent : any) (st : State) :
  take_task (awaits_worker w) (tasks st) = Some (AwaitWorkerStart w object, rest) ->
  get_property (any := any) object "id" = Normal id ->
  socketToApp (this st) = Some k ->
  JSON_stringify (ReplyID (inject_Z <$> parseInt id)) = Text text ->
  trace (handle (WorkerStarted w startedEvent) st)
  = trace st ++
    [ Emit "connected" startedEvent;
      LoggerVerbose ("To RN APP: " +:+ text);
      SocketSend k (Some text) ] ++
    match ws_send (trace st ++ [ Emit "connected" startedEvent;
                                 LoggerVerbose ("To RN APP: " +:+ text);
                                 SocketSend k (Some text) ]) with
    | None => []
    | Some e =>
        [ LoggerError (NestedError
            (InternalError FailedToSendMessageToTheReactNativeApp
               (TextArgument (if String.eqb text "" then toString (ReplyID (inject_Z <$> parseInt id))
                              else text)))
            DebuggingWontWorkReloadJSAndReconnect (Raised e)) ]
    end.
Proof.
  intros Htake Hid Hk Htext. cbn [handle]. unfold resume. rewrite Htake.
  rewrite workerStarted_then_run, Hid.
  unfold sendMessageToApp, socket_send. unfold_monad. rewrite Htext. cbn.
  rewrite Hk. cbn. rewrite <- !app_assoc. cbn.
  destruct (ws_send _); cbn; rewrite <- ?app_assoc; reflexivity.
Qed.

Lemma workerStartFailed_logs (w : nat) (object : json) (rest : list Task)
    (error : Error any) (st : State) :
  take_task (awaits_worker w) (tasks st) = Some (AwaitWorkerStart w object, rest) ->
  handle (WorkerStartFailed w error) st
  = with_trace (fun t => t ++
      [ LoggerError (NestedError
          (InternalError FailedToPrepareJSRuntimeEnvironment (ObjectArgument object))
          DebuggingWontWorkReloadJSAndReconnect error) ])
      (with_tasks (fun _ => rest) st).
Proof. intros Htake. cbn [handle]. unfold resume. now rewrite Htake. Qed.

(** The state after a [prepareJSRuntime] message. *)
Lemma prepareJSRuntime_starts (s : nat) (sk : WebSocket) (message : string)
    (object : json) (method : option json) (st : State) :
  invariant st ->
  sockets st !! s = Some sk -> listeners sk = true ->
  JSON_parse message = Some object ->
  get_property (any := any) object "method" = Normal method ->
  strict_equals method "prepareJSRuntime" = true ->
  let st1 := handle (SocketMessage s message) st in
  trace st1 = trace st ++
    LoggerVerbose ("From RN APP: " +:+ message) ::
    match singleLifetimeWorker (this st) with
    | Some old => [WorkerStop old]
    | None => []
    end ++
    [ NewForkedAppWorker (workers st);
      LoggerVerbose "A new app worker lifetime was created.";
      WorkerStart (workers st) ]
  /\ singleLifetimeWorker (this st1) = Some (workers st)
  /\ socketToApp (this st1) = socketToApp (this st)
  /\ tasks st1 = tasks st ++ [AwaitWorkerStart (workers st) object]
  /\ take_task (awaits_worker (workers st)) (tasks st1)
     = Some (AwaitWorkerStart (workers st) object, tasks st).
Proof.
  intros Hinv Hs Hl Hparse Hget Hp st1.
  assert (Htasks : tasks st1 = tasks st ++ [AwaitWorkerStart (workers st) object]
                   /\ trace st1 = trace st ++
                        LoggerVerbose ("From RN APP: " +:+ message) ::
                        match singleLifetimeWorker (this st) with
                        | Some old => [WorkerStop old]
                        | None => []
                        end ++
                        [ NewForkedAppWorker (workers st);
                          LoggerVerbose "A new app worker lifetime was created.";
                          WorkerStart (workers st) ]
                   /\ singleLifetimeWorker (this st1) = Some (workers st)
                   /\ socketToApp (this st1) = socketToApp (this st)).
  { subst st1. unfold handle, to_listeners. rewrite Hs, Hl.
    rewrite (onMessage_prepareJSRuntime _ _ _ _ Hparse Hget Hp).
    unfold killWorker, gotPrepareJSRuntime, startNewWorkerLifetime. unfold_monad. cbn.
    destruct (singleLifetimeWorker (this st)); cbn; rewrite <- ?app_assoc; now repeat split. }
  destruct Htasks as (Htasks & Htrace & Hfield & Hsocket).
  repeat split; try assumption.
  rewrite Htasks. apply take_task_skip; [|cbn; apply Nat.eqb_refl].
  eapply Forall_impl; [exact (inv_tasks st Hinv)|].
  intros [] Hok; cbn in *; try reflexivity. apply Nat.eqb_neq. lia.
Qed.

(** [parseInt] truncates a number that prints in plain decimal notation. *)
Lemma parseInt_decimal (q : Q) :
  decimal_notation q = true ->
  exists t, parseInt (Some (JNumber q)) = Some t /\ truncates_to q t.
Proof.
  intros Hdec. unfold parseInt. rewrite Hdec. eexists. split; [reflexivity|].
  unfold truncates_to. generalize (Qnum q) as a, (Zpos (Qden q)) as b, (Pos2Z.is_pos (Qden q)).
  intros a b Hb. destruct (Z.le_gt_cases 0 a) as [Ha|Ha].
  - rewrite Z.quot_div_nonneg by lia.
    pose proof (Z.div_pos a b Ha Hb) as Hpos.
    pose proof (Z.mul_div_le a b Hb) as Hle.
    pose proof (Z.mul_succ_div_gt a b Hb) as Hgt.
    rewrite (Z.abs_eq a), (Z.abs_eq (a / b)) by lia. nia.
  - assert (Hc : exists c, a = (- c)%Z /\ (0 < c)%Z) by (exists (- a)%Z; lia).
    destruct Hc as (c & -> & Hc).
    rewrite Z.quot_opp_l, Z.quot_div_nonneg by lia.
    assert (Hnc : (0 <= c)%Z) by lia.
    pose proof (Z.div_pos c b Hnc Hb) as Hpos.
    pose proof (Z.mul_div_le c b Hb) as Hle.
    pose proof (Z.mul_succ_div_gt c b Hb) as Hgt.
    rewrite !Z.abs_opp, (Z.abs_eq c), (Z.abs_eq (c / b)) by lia. nia.
Qed.

(** For a value that is not a number printed in plain decimal notation,
    [parseInt] is what the runtime reads in the text of the value. *)
Lemma parseInt_other (id : option json) :
  (forall q, id = Some (JNumber q) -> decimal_notation q = false) ->
  parseInt id = parseInt_text id.
Proof.
  intros Hother. unfold parseInt. destruct id as [[]|]; try reflexivity.
  now rewrite (Hother q eq_refl).
Qed.

(** C2, amended: a [prepareJSRuntime] message starts a new lifetime, after
    [stop] on the one the field held.  When the worker has started the class
    emits [connected] with the start payload and then writes on its socket,
    once, the acknowledgement [{ replyID: parseInt(id, 10) }], where [id] is
    the property of the parsed message.  For a number that is an integer of
    magnitude below 10^21 that is the number itself; for any number that
    prints in plain decimal notation it is the number truncated toward
    zero; for a number that prints in exponent form and for a value that is
    not a number it is what [parseInt] reads in the text of the value.  When
    the start fails the failure is logged and nothing is written. *)
Theorem prepareJSRuntime_is_acknowledged
    (s : nat) (sk : WebSocket) (message : string) (object : json)
    (method id : option json) (st : State) :
  reachable st ->
  sockets st !! s = Some sk -> listeners sk = true ->
  JSON_parse message = Some object ->
  get_property (any := any) object "method" = Normal method ->
  strict_equals method "prepareJSRuntime" = true ->
  get_property (any := any) object "id" = Normal id ->
  let w := workers st in
  let st1 := handle (SocketMessage s message) st in
  let acknowledged (reply : option Z) :=
    exists k, socketToApp (this st1) = Some k
      /\ forall startedEvent text,
           JSON_stringify (ReplyID (inject_Z <$> reply)) = Text text ->
           let st2 := handle (WorkerStarted w startedEvent) st1 in
           exists logged,
             trace st2 = trace st1 ++
               [ Emit "connected" startedEvent;
                 LoggerVerbose ("To RN APP: " +:+ text);
                 SocketSend k (Some text) ] ++ logged
             /\ existsb is_SocketSend logged = false in
  trace st1 = trace st ++
    LoggerVerbose ("From RN APP: " +:+ message) ::
    match singleLifetimeWorker (this st) with
    | Some old => [WorkerStop old]
    | None => []
    end ++
    [ NewForkedAppWorker w;
      LoggerVerbose "A new app worker lifetime was created.";
      WorkerStart w ]
  /\ singleLifetimeWorker (this st1) = Some w
  /\ acknowledged (parseInt id)
  /\ (forall q n,
        id = Some (JNumber q) -> (q == inject_Z n)%Q -> (Z.abs n < 10 ^ 21)%Z ->
        acknowledged (Some n))
  /\ (forall q,
        id = Some (JNumber q) -> decimal_notation q = true ->
        exists t, truncates_to q t /\ acknowledged (Some t))
  /\ ((forall q, id = Some (JNumber q) -> decimal_notation q = false) ->
      acknowledged (parseInt_text id))
  /\ (forall error,
        let st2 := handle (WorkerStartFailed w error) st1 in
        trace st2 = trace st1 ++
          [ LoggerError (NestedError
              (InternalError FailedToPrepareJSRuntimeEnvironment (ObjectArgument object))
              DebuggingWontWorkReloadJSAndReconnect error) ]).
Proof.
  intros Hreach Hs Hl Hparse Hget Hp Hid w st1 acknowledged.
  pose proof (reachable_invariant st Hreach) as Hinv.
  destruct (prepareJSRuntime_starts s sk message object method st Hinv Hs Hl Hparse Hget Hp)
    as (Htrace & Hfield & Hsocket & Htasks & Htake).
  fold st1 in Htrace, Hfield, Hsocket, Htasks, Htake. fold w in Htrace, Hfield, Htasks, Htake.
  assert (Hack : forall reply, parseInt id = reply -> acknowledged reply).
  { intros reply <-. subst acknowledged. cbv beta.
    destruct (inv_connected st Hinv) as [k Hk].
    { right. intros Hnil. now rewrite Hnil in Hs. }
    exists k. rewrite Hsocket. split; [exact Hk|].
    intros startedEvent text Htext st2. subst st2.
    rewrite (workerStarted_acknowledges w object (tasks st) id k text
               startedEvent st1 Htake Hid).
    - eexists. split; [reflexivity|]. now destruct (ws_send _).
    - now rewrite Hsocket.
    - exact Htext. }
  split; [exact Htrace|]. split; [exact Hfield|]. split; [now apply Hack|].
  split; [|split; [|split]].
  - intros q n -> Hq Hn. apply Hack. now apply parseInt_integer.
  - intros q -> Hdec. destruct (parseInt_decimal q Hdec) as (t & Ht & Htrunc).
    exists t. split; [exact Htrunc | now apply Hack].
  - intros Hother. apply Hack. now apply parseInt_other.
  - intros error st2. subst st2.
    now rewrite (workerStartFailed_logs w object (tasks st) error st1 Htake).
Qed.

End Acknowledgement.

Lemma sample_connected_reachable : reachable Sample.connected.
Proof. do 2 apply reachable_run. apply sample_fresh_reachable. Qed.

(** The message [{ method: prepareJSRuntime, id: 42 }] on a fresh
    connection: the first worker is constructed and started. *)
Lemma prepareJSRuntime_is_acknowledged_witness :
  (reachable Sample.connected
   /\ @JSON_parse Sample.runtime Sample.prepare_42
      = Some (JObject [("method", JString "prepareJSRuntime"); ("id", JNumber (42 # 1))]))
  /\ trace (handle (SocketMessage 0 Sample.prepare_42) Sample.connected)
     = trace Sample.connected ++
       [ LoggerVerbose ("From RN APP: " +:+ Sample.prepare_42);
         NewForkedAppWorker 0;
         LoggerVerbose "A new app worker lifetime was created.";
         WorkerStart 0 ].
Proof.
  split; [split; [apply sample_connected_reachable | reflexivity]|].
  destruct (prepareJSRuntime_is_acknowledged 0
              {| listeners := true; retryAttempt := false; deferred := 0; _closeMessage := None |}
              Sample.prepare_42
              (JObject [("method", JString "prepareJSRuntime"); ("id", JNumber (42 # 1))])
              (Some (JString "prepareJSRuntime")) (Some (JNumber (42 # 1))) Sample.connected
              sample_connected_reachable eq_refl eq_refl eq_refl eq_refl eq_refl eq_refl)
    as [Htrace _].
  exact Htrace.
Defined.

(** The acknowledgements of three ids: 42 is acknowledged as it is; -1.5
    prints as [-1.5], which is truncated toward zero to -1; 1e-7 prints as
    [1e-7], of which [parseInt] reads the 1. *)
Lemma acknowledgements_of_sample_ids :
  let acknowledgement (message : string) :=
    List.filter is_SocketSend
      (trace (run [SocketMessage 0 message; Sample.started 0] Sample.connected)) in
  acknowledgement Sample.prepare_42
    = [SocketSend 0 (Some ("{" +:+ Sample.quoted "replyID" +:+ ":42}"))]
  /\ acknowledgement Sample.prepare_minus_1_5
     = [SocketSend 0 (Some ("{" +:+ Sample.quoted "replyID" +:+ ":-1}"))]
  /\ acknowledgement Sample.prepare_1e_7
     = [SocketSend 0 (Some ("{" +:+ Sample.quoted "replyID" +:+ ":1}"))].
Proof. repeat split; vm_compute; reflexivity. Qed.

(** C2, as the claim words it, fails for an [id] that is not an integer:
    for [{ method: prepareJSRuntime, id: 1.5 }] the class passes the [id]
    through [parseInt] and acknowledges with [{ replyID: 1 }]. *)
Lemma fractional_id_is_truncated :
  ~ acknowledges_every_number (rt := Sample.runtime)
  /\ trace (handle (Sample.started 0)
              (handle (SocketMessage 0 Sample.prepare_1_5) Sample.connected))
     = trace (handle (SocketMessage 0 Sample.prepare_1_5) Sample.connected) ++
       [ Emit "connected" Sample.WorkerLoaded;
         LoggerVerbose ("To RN APP: {" +:+ Sample.quoted "replyID" +:+ ":1}");
         SocketSend 0 (Some ("{" +:+ Sample.quoted "replyID" +:+ ":1}")) ].
Proof.
  assert (Hrun : trace (handle (Sample.started 0)
                          (handle (SocketMessage 0 Sample.prepare_1_5) Sample.connected))
     = trace (handle (SocketMessage 0 Sample.prepare_1_5) Sample.connected) ++
       [ Emit "connected" Sample.WorkerLoaded;
         LoggerVerbose ("To RN APP: {" +:+ Sample.quoted "replyID" +:+ ":1}");
         SocketSend 0 (Some ("{" +:+ Sample.quoted "replyID" +:+ ":1}")) ])
    by (vm_compute; reflexivity).
  split; [|exact Hrun].
  intros Hclaim.
  destruct (Hclaim Sample.connected 0%nat
              {| listeners := true; retryAttempt := false; deferred := 0; _closeMessage := None |}
              Sample.prepare_1_5
              (JObject [("method", JString "prepareJSRuntime"); ("id", JNumber (3 # 2))])
              (3 # 2) ("{" +:+ Sample.quoted "replyID" +:+ ":1.5}") Sample.WorkerLoaded
              sample_connected_reachable eq_refl eq_refl eq_refl eq_refl eq_refl eq_refl)
    as (k & delta & Htrace & Hsent).
  cbv zeta in Htrace. unfold Sample.started in Hrun.
  assert (Hworkers : workers Sample.connected = 0%nat) by reflexivity.
  rewrite Hworkers, Hrun in Htrace. apply app_inv_head in Htrace. subst delta.
  destruct Hsent as [H|[H|[H|[]]]]; discriminate H.
Qed.

(** * Starting and reconnecting *)

Section Starting.

Context `{rt : Runtime}.

Lemma with_tasks_restore (t : Task) (st : State) :
  with_tasks (fun _ => tasks st) (with_tasks (fun ts => ts ++ [t]) st) = st.
Proof. now destruct st. Qed.

(** The task spawned last is the one resumed when no older task matches. *)
Lemma resume_spawned (select : Task -> bool) (k : Task -> M unit) (t : Task) (st : State) :
  Forall (fun x => select x = false) (tasks st) ->
  select t = true ->
  resume select k (with_tasks (fun ts => ts ++ [t]) st) = exec (k t) st.
Proof.
  intros Hold Ht. unfold resume. cbn [tasks with_tasks].
  rewrite (take_task_skip select (tasks st) t Hold Ht).
  now rewrite with_tasks_restore.
Qed.

(** No pending task waits on the promise that the next [start] will make. *)
Lemma next_promise_not_awaited (st : State) :
  invariant st ->
  let p := length (promises st) in
  Forall (fun t => awaits_packager p t = false /\ awaits_download p t = false
                   /\ awaits_readFile p t = false /\ awaits_writeFile p t = false
                   /\ awaits_delay p t = false) (tasks st).
Proof.
  intros Hinv p. eapply Forall_impl; [exact (inv_tasks st Hinv)|].
  intros [] Hok; cbn in *; repeat split; try reflexivity; apply Nat.eqb_neq; lia.
Qed.

Lemma start_run (retry : bool) (st : State) :
  exec (start retry) st
  = with_tasks (fun ts => ts ++ [AwaitPackager (length (promises st)) retry])
      (with_trace (fun t => t ++
         [EnsurePackagerRunning (packagerAddress (this st)) (packagerPort (this st))
            (errPackagerNotRunning st)])
         (with_promises (fun ps => ps ++ [Pending]) st)).
Proof. reflexivity. Qed.

Lemma createSocketToApp_run (p : nat) (retry : bool) (st : State) :
  exec (createSocketToApp p retry) st
  = with_tasks (fun ts => ts ++ [AwaitDelay p])
      (with_trace (fun t => t ++ [QDelay 300])
         (with_this (set_socketToApp (Some (length (sockets st))))
            (with_sockets (fun sks => sks ++
               [ {| listeners := true; retryAttempt := retry;
                    deferred := p; _closeMessage := None |} ])
               (with_trace (fun t => t ++
                  [NewWebSocket (length (sockets st)) (debuggerProxyUrl st)]) st)))).
Proof. reflexivity. Qed.

Ltac resume_next Hfresh :=
  rewrite resume_spawned;
    [ | unfold_state; eapply Forall_impl; [exact Hfresh|]; cbn; tauto
      | cbn; apply Nat.eqb_refl ].

Lemma first_start_run (n : nat) (workerContent : string) (st : State) :
  invariant st ->
  let p := length (promises st) in
  let st' := run (take n (first_start_events p workerContent)) st in
  trace st' = trace st ++ take (if (n <? 5)%nat then n else 6%nat)
                               (first_start_calls workerContent st)
  /\ promises st' = promises st ++ (if (n =? 0)%nat then [] else [Pending])
  /\ (n < 5 -> sockets st' = sockets st /\ this st' = this st)%nat
  /\ (5 <= n -> socketToApp (this st') = Some (length (sockets st))
                /\ sockets st' = sockets st ++
                     [ {| listeners := true; retryAttempt := false;
                          deferred := p; _closeMessage := None |} ]
                /\ tasks st' = tasks st ++ [AwaitDelay p])%nat.
Proof.
  intros Hinv p st'. pose proof (next_promise_not_awaited st Hinv) as Hfresh.
  fold p in Hfresh. subst st'.
  destruct n as [|[|[|[|[|n]]]]]; cbn [take first_start_events run fold_left handle].
  - rewrite app_nil_r. repeat split; try lia. now rewrite app_nil_r.
  - rewrite start_run. cbn. repeat split; lia.
  - rewrite start_run. fold p. resume_next Hfresh.
    cbn. rewrite <- !app_assoc. repeat split; lia.
  - rewrite start_run. fold p. resume_next Hfresh.
    unfold packagerChecked_then, downloadAndPatchDebuggerWorker. unfold_monad. cbn [fst snd].
    resume_next Hfresh.
    cbn. rewrite <- !app_assoc. repeat split; lia.
  - rewrite start_run. fold p. resume_next Hfresh.
    unfold packagerChecked_then, downloadAndPatchDebuggerWorker. unfold_monad. cbn [fst snd].
    resume_next Hfresh.
    unfold downloaded_then. unfold_monad. cbn [fst snd].
    resume_next Hfresh.
    cbn. rewrite <- !app_assoc. repeat split; lia.
  - rewrite take_nil. rewrite start_run. fold p. resume_next Hfresh.
    unfold packagerChecked_then, downloadAndPatchDebuggerWorker. unfold_monad. cbn [fst snd].
    resume_next Hfresh.
    unfold downloaded_then. unfold_monad. cbn [fst snd].
    resume_next Hfresh.
    unfold readFile_then. unfold_monad. cbn [fst snd].
    resume_next Hfresh.
    rewrite createSocketToApp_run.
    cbn. rewrite <- !app_assoc. repeat split; lia.
Qed.

(** The steps of [start], by the calls they make. *)
Lemma start_chain_run (workerContent : string) (st : State) :
  invariant st ->
  let p := length (promises st) in
  (forall retry,
     let st' := run [CallStart retry; PackagerChecked p false] st in
     trace st' = trace st ++
       [EnsurePackagerRunning (packagerAddress (this st)) (packagerPort (this st))
          (errPackagerNotRunning st)]
     /\ promises st' = promises st ++ [Rejected (errPackagerNotRunning st)]
     /\ sockets st' = sockets st /\ tasks st' = tasks st)
  /\ (forall n,
        let st' := run (take n (first_start_events p workerContent)) st in
        trace st' = trace st ++ take (if (n <? 5)%nat then n else 6%nat)
                                     (first_start_calls workerContent st)
        /\ (n < 5 -> sockets st' = sockets st)%nat
        /\ (5 <= n -> socketToApp (this st') = Some (length (sockets st)))%nat)
  /\ (let st' := run [CallStart true; PackagerChecked p true] st in
      trace st' = trace st ++ retry_start_calls st
      /\ existsb is_bootstrap_io (retry_start_calls st) = false
      /\ socketToApp (this st') = Some (length (sockets st))
      /\ tasks st' = tasks st ++ [AwaitDelay p]).
Proof.
  intros Hinv p.
  pose proof (next_promise_not_awaited st Hinv) as Hfresh. fold p in Hfresh.
  split; [|split].
  - intros retry st'. subst st'. cbn [run fold_left handle].
    rewrite start_run. fold p. resume_next Hfresh.
    unfold packagerChecked_then, settle. unfold_monad. unfold_state. cbn.
    rewrite lookup_app_r by lia. replace (p - length (promises st))%nat with 0%nat by lia.
    cbn. repeat split.
    rewrite insert_app_r_alt by lia.
    replace (p - length (promises st))%nat with 0%nat by lia. reflexivity.
  - intros n st'.
    destruct (first_start_run n workerContent st Hinv) as (Htrace & _ & Hbefore & Hafter).
    split; [exact Htrace|]. split.
    + intros Hn. now apply Hbefore.
    + intros Hn. now apply Hafter.
  - intros st'. subst st'. cbn [run fold_left handle].
    rewrite start_run. fold p. resume_next Hfresh.
    unfold packagerChecked_then. rewrite createSocketToApp_run.
    cbn. rewrite <- !app_assoc. now repeat split.
Qed.

(** C4: [start(false)] first asks whether the packager runs, handing the
    check the error [CannotAttachToPackagerCheckPackagerRunningOnPort] for
    the port; a failed check rejects the promise with that error and does
    nothing more.  Then it downloads the debugger worker, reads it and
    writes, to the same path, the patched script: the download between the
    shims and the completion marker, which is never the download itself.
    Only when that is written does it construct the socket.  [start(true)]
    goes from the check to the socket: it neither downloads nor reads nor
    writes. *)
Theorem start_checks_downloads_then_connects (workerContent : string) (st : State) :
  reachable st ->
  let p := length (promises st) in
  let unreachable : Error any :=
    InternalError CannotAttachToPackagerCheckPackagerRunningOnPort
      (PortArgument (packagerPort (this st))) in
  let check : Effect any :=
    EnsurePackagerRunning (packagerAddress (this st)) (packagerPort (this st)) unreachable in
  let path := scriptToRunPath (sourcesStoragePath (this st)) in
  let script :=
    String.concat newline
      [ WORKER_BOOTSTRAP; CONSOLE_TRACE_PATCH; NODE_PROCESS_FINDING_PATCH;
        (if isHaulProject (projectRootPath (this st)) then FETCH_STUB else "");
        workerContent; WORKER_DONE ] in
  let socket : Effect any := NewWebSocket (length (sockets st)) (debuggerProxyUrl st) in
  let first_calls : list (Effect any) :=
    [ check;
      DownloadDebuggerWorker (sourcesStoragePath (this st)) (projectRootPath (this st))
        (debuggerWorkerUrlPath (this st));
      ReadFile path;
      WriteFile path script;
      socket;
      QDelay 300 ] in
  let retry_calls : list (Effect any) := [check; socket; QDelay 300] in
  (forall retry,
     let st' := run [CallStart retry; PackagerChecked p false] st in
     trace st' = trace st ++ [check]
     /\ promises st' = promises st ++ [Rejected unreachable]
     /\ sockets st' = sockets st /\ tasks st' = tasks st)
  /\ (forall n,
        let st' := run (take n (first_start_events p workerContent)) st in
        trace st' = trace st ++ take (if (n <? 5)%nat then n else 6%nat) first_calls
        /\ (n < 5 -> sockets st' = sockets st)%nat
        /\ (5 <= n -> socketToApp (this st') = Some (length (sockets st)))%nat)
  /\ script <> workerContent
  /\ (let st' := run [CallStart true; PackagerChecked p true] st in
      trace st' = trace st ++ retry_calls
      /\ existsb is_bootstrap_io retry_calls = false
      /\ socketToApp (this st') = Some (length (sockets st))
      /\ tasks st' = tasks st ++ [AwaitDelay p]).
Proof.
  intros Hreach p unreachable check path script socket first_calls retry_calls.
  pose proof (reachable_invariant st Hreach) as Hinv.
  assert (Hscript : modifiedDebuggeeContent (isHaulProject (projectRootPath (this st)))
                      workerContent = script).
  { subst script. unfold modifiedDebuggeeContent, Array_join.
    now destruct (isHaulProject (projectRootPath (this st))). }
  assert (Hfirst : first_start_calls workerContent st = first_calls).
  { unfold first_start_calls. now rewrite Hscript. }
  destruct (start_chain_run workerContent st Hinv) as (Hfailed & Hchain & Hretry).
  fold p in Hfailed, Hchain, Hretry. rewrite Hfirst in Hchain.
  split; [exact Hfailed|]. split; [exact Hchain|]. split; [|exact Hretry].
  rewrite <- Hscript. intros Hsame.
  pose proof (modifiedDebuggeeContent_longer (isHaulProject (projectRootPath (this st)))
                workerContent) as Hlonger.
  rewrite Hsame in Hlonger. lia.
Qed.

End Starting.

(** The first [start] of a constructed object, with the packager running. *)
Lemma start_checks_downloads_then_connects_witness :
  reachable Sample.fresh
  /\ trace (run (first_start_events 0 "payload") Sample.fresh)
     = [ EnsurePackagerRunning "localhost" 8081
           (InternalError CannotAttachToPackagerCheckPackagerRunningOnPort
              (PortArgument 8081));
         DownloadDebuggerWorker "/store" "/project" None;
         ReadFile "/store/.debuggerWorker.js";
         WriteFile "/store/.debuggerWorker.js"
           (String.concat newline
              [ WORKER_BOOTSTRAP; CONSOLE_TRACE_PATCH; NODE_PROCESS_FINDING_PATCH;
                ""; "payload"; WORKER_DONE ]);
         NewWebSocket 0 "ws://localhost:8081/debugger-proxy?role=debugger&name=vscode";
         QDelay 300 ].
Proof.
  split; [apply sample_fresh_reachable|].
  destruct (start_checks_downloads_then_connects "payload" Sample.fresh sample_fresh_reachable)
    as (_ & Hfirst & _).
  destruct (Hfirst 5%nat) as [Htrace _]. exact Htrace.
Defined.

(** * The close of the socket *)

Section Closing.

Context `{rt : Runtime}.

(** What the listener of [close] does, for the socket the class holds. *)
Lemma socketClosed_run (s : nat) (sk : WebSocket) (now : Z)
    (closeMessage : option string) (st : State) :
  sockets st !! s = Some sk -> listeners sk = true ->
  socketToApp (this st) = Some s ->
  let st1 := handle (SocketClosed s now closeMessage) st in
  let known := match closeMessage with
               | Some text => String.eqb text "Another debugger is already connected"
               | None => false
               end in
  trace st1 = trace st ++ (if close_admitted now st then [disconnected_log] else [])
                       ++ [SetTimeout 100]
  /\ tasks st1 = tasks st ++ [AwaitTimeout]
  /\ promises st1
     = (if close_admitted now st && known then
          match promises st !! deferred sk with
          | Some Pending => <[deferred sk := Rejected another_debugger]> (promises st)
          | _ => promises st
          end
        else promises st).
Proof.
  intros Hs Hl Hcur st1 known. subst st1. cbn [handle]. unfold to_listeners, record_closeMessage.
  cbn [sockets with_sockets]. rewrite list_lookup_alter_eq, Hs. cbn [fmap option_fmap option_map listeners].
  rewrite Hl. unfold onSocketClose, executionLimiter_execute, settle.
  unfold_monad. cbn [fst snd this with_sockets]. fold (close_admitted now st).
  destruct (close_admitted now st); cbn; [|now repeat split].
  rewrite Hcur. cbn. rewrite list_lookup_alter_eq, Hs. cbn.
  subst known. destruct closeMessage as [text|]; cbn.
  - destruct (String.eqb text "Another debugger is already connected"); cbn.
    + rewrite <- !app_assoc. now repeat split.
    + rewrite <- !app_assoc. now repeat split.
  - rewrite <- !app_assoc. now repeat split.
Qed.

(** The listener of [close] of any socket that still has its listeners. *)
Lemma close_sets_timer (s : nat) (sk : WebSocket) (now : Z)
    (closeMessage : option string) (st : State) :
  invariant st ->
  sockets st !! s = Some sk -> listeners sk = true ->
  let st1 := handle (SocketClosed s now closeMessage) st in
  (exists logs, trace st1 = trace st ++ logs ++ [SetTimeout 100]
                /\ existsb is_SetTimeout logs = false)
  /\ tasks st1 = tasks st ++ [AwaitTimeout].
Proof.
  intros Hinv Hs Hl st1. subst st1.
  destruct (inv_connected st Hinv) as [cur Hcur].
  { right. intros Hnil. now rewrite Hnil in Hs. }
  cbn [handle]. unfold to_listeners, record_closeMessage.
  cbn [sockets with_sockets]. rewrite list_lookup_alter_eq, Hs.
  cbn [fmap option_fmap option_map listeners]. rewrite Hl.
  unfold onSocketClose, executionLimiter_execute, settle.
  unfold_monad. cbn [fst snd this with_sockets]. fold (close_admitted now st).
  destruct (close_admitted now st); cbn.
  - rewrite Hcur. cbn.
    repeat (case_match; simplify_eq); cbn; (split; [|reflexivity]);
      exists [disconnected_log]; now rewrite <- !app_assoc.
  - split; [|reflexivity]. now exists [].
Qed.

(** C3: the close of a socket that has its listeners sets one timer of
    100 ms, whatever the close reason.  When the timer fires it is used up
    and [start(true)] is called, once; a timer event with no timer pending
    does nothing.  That retry goes from the packager check to a new socket
    with no download, no read and no write of the bootstrap script. *)
Theorem close_schedules_one_retry (s : nat) (sk : WebSocket) (now : Z)
    (closeMessage : option string) (st : State) :
  reachable st ->
  sockets st !! s = Some sk -> listeners sk = true ->
  let st1 := handle (SocketClosed s now closeMessage) st in
  (exists logs, trace st1 = trace st ++ logs ++ [SetTimeout 100]
                /\ existsb is_SetTimeout logs = false)
  /\ tasks st1 = tasks st ++ [AwaitTimeout]
  /\ (forall st2 rest,
        take_task awaits_timeout (tasks st2) = Some (AwaitTimeout, rest) ->
        let st3 := handle TimeoutElapsed st2 in
        trace st3 = trace st2 ++
          [EnsurePackagerRunning (packagerAddress (this st2)) (packagerPort (this st2))
             (errPackagerNotRunning st2)]
        /\ tasks st3 = rest ++ [AwaitPackager (length (promises st2)) true])
  /\ (forall st2, take_task awaits_timeout (tasks st2) = None ->
                  handle TimeoutElapsed st2 = st2)
  /\ (forall st2 p rest,
        take_task (awaits_packager p) (tasks st2) = Some (AwaitPackager p true, rest) ->
        let st3 := handle (PackagerChecked p true) st2 in
        trace st3 = trace st2 ++
          [NewWebSocket (length (sockets st2)) (debuggerProxyUrl st2); QDelay 300]
        /\ existsb is_bootstrap_io
             [NewWebSocket (length (sockets st2)) (debuggerProxyUrl st2); QDelay 300] = false
        /\ tasks st3 = rest ++ [AwaitDelay p]).
Proof.
  intros Hreach Hs Hl st1. pose proof (reachable_invariant st Hreach) as Hinv.
  destruct (close_sets_timer s sk now closeMessage st Hinv Hs Hl) as [Htrace Htasks].
  split; [exact Htrace|]. split; [exact Htasks|]. split; [|split].
  - intros st2 rest Htake st3. subst st3. cbn [handle]. unfold resume. rewrite Htake.
    unfold_monad. cbn. now split.
  - intros st2 Htake. cbn [handle]. unfold resume. now rewrite Htake.
  - intros st2 p rest Htake st3. subst st3. cbn [handle]. unfold resume. rewrite Htake.
    unfold packagerChecked_then. rewrite createSocketToApp_run. cbn.
    rewrite <- !app_assoc. now repeat split.
Qed.

(** C8, amended: when the socket the class holds closes with the message
    "Another debugger is already connected", and the rate limiter lets the
    notification of the close through (none ran in the ten seconds before),
    [reject] is called with [AnotherDebuggerConnectedToPackager] on the
    promise of the [start] that made the socket: the promise is rejected
    with that error if it is still pending, and stays as it is if it is
    settled.  When the limiter holds the notification back, nothing is
    rejected and nothing is logged.  For any other close message no promise
    changes. *)
Theorem another_debugger_is_named (s : nat) (sk : WebSocket) (now : Z)
    (closeMessage : option string) (st : State) :
  sockets st !! s = Some sk -> listeners sk = true ->
  socketToApp (this st) = Some s ->
  let st1 := handle (SocketClosed s now closeMessage) st in
  let known := Some "Another debugger is already connected" in
  (closeMessage = known -> close_admitted now st = true ->
   promises st !! deferred sk = Some Pending ->
   promises st1 = <[deferred sk := Rejected another_debugger]> (promises st)
   /\ promises st1 !! deferred sk = Some (Rejected another_debugger)
   /\ trace st1 = trace st ++ [disconnected_log; SetTimeout 100])
  /\ (closeMessage = known -> close_admitted now st = true ->
      promises st !! deferred sk <> Some Pending ->
      promises st1 = promises st)
  /\ (closeMessage = known -> close_admitted now st = false ->
      promises st1 = promises st /\ trace st1 = trace st ++ [SetTimeout 100])
  /\ (closeMessage <> known -> promises st1 = promises st).
Proof.
  intros Hs Hl Hcur st1 known. subst known.
  destruct (socketClosed_run s sk now closeMessage st Hs Hl Hcur) as (Htrace & _ & Hpromises).
  fold st1 in Htrace, Hpromises. clearbody st1. split; [|split; [|split]].
  - intros -> Hadm Hpending. rewrite Hadm in Htrace, Hpromises. cbn in Hpromises.
    rewrite Hpending in Hpromises. split; [exact Hpromises|]. split; [|exact Htrace].
    rewrite Hpromises. apply list_lookup_insert_eq. now apply lookup_lt_Some in Hpending.
  - intros -> Hadm Hsettled. rewrite Hadm in Hpromises. cbn in Hpromises.
    rewrite Hpromises. destruct (promises st !! deferred sk) as [[]|]; congruence.
  - intros -> Hadm. rewrite Hadm in Htrace, Hpromises. now split.
  - intros Hother. rewrite Hpromises.
    destruct closeMessage as [text|]; [|now rewrite andb_false_r].
    destruct (String.eqb_spec text "Another debugger is already connected") as [->|Hne].
    + now contradiction Hother.
    + now rewrite andb_false_r.
Qed.

End Closing.

Lemma sample_reconnecting_reachable : reachable Sample.reconnecting.
Proof. apply reachable_run, sample_connected_reachable. Qed.

(** The close of the first socket of a connected object. *)
Lemma close_schedules_one_retry_witness :
  (reachable Sample.connected
   /\ sockets Sample.connected !! 0%nat
      = Some {| listeners := true; retryAttempt := false; deferred := 0; _closeMessage := None |})
  /\ tasks (handle (SocketClosed 0 1005000 None) Sample.connected)
     = tasks Sample.connected ++ [AwaitTimeout].
Proof.
  split; [split; [apply sample_connected_reachable | reflexivity]|].
  destruct (close_schedules_one_retry 0
              {| listeners := true; retryAttempt := false; deferred := 0; _closeMessage := None |}
              1005000 None Sample.connected sample_connected_reachable eq_refl eq_refl)
    as (_ & Htasks & _).
  exact Htasks.
Defined.

(** The socket of the first [start] closes with the known message before
    the 300 ms of its promise have passed. *)
Lemma another_debugger_is_named_witness :
  (sockets Sample.connecting !! 0%nat
     = Some {| listeners := true; retryAttempt := false; deferred := 0; _closeMessage := None |}
   /\ socketToApp (this Sample.connecting) = Some 0%nat
   /\ close_admitted 1000000 Sample.connecting = true
   /\ promises Sample.connecting !! 0%nat = Some Pending)
  /\ promises (handle (SocketClosed 0 1000000 (Some "Another debugger is already connected"))
                 Sample.connecting)
       !! 0%nat
     = Some (Rejected another_debugger).
Proof.
  split; [repeat split; vm_compute; reflexivity|].
  destruct (another_debugger_is_named 0
              {| listeners := true; retryAttempt := false; deferred := 0; _closeMessage := None |}
              1000000 (Some "Another debugger is already connected") Sample.connecting
              eq_refl eq_refl eq_refl) as (Hnamed & _).
  destruct (Hnamed eq_refl eq_refl eq_refl) as (_ & Hrejected & _).
  exact Hrejected.
Defined.

(** C8, as the claim words it, fails.  The socket of a retry closes with the
    known message 200 ms after the close that caused the retry: the rate
    limiter holds the notification back, and the pending promise of the
    retry is not rejected.  And when the first socket of a session closes
    with the known message after its promise was resolved, only the general
    disconnect message is logged. *)
Lemma another_debugger_is_rate_limited :
  ~ surfaces_another_debugger (rt := Sample.runtime)
  /\ promises (handle (SocketClosed 1 1005200 (Some "Another debugger is already connected"))
                 Sample.reconnecting)
     = [Fulfilled; Pending]
  /\ promises (handle (SocketClosed 0 1005000 (Some "Another debugger is already connected"))
                 Sample.connected)
     = [Fulfilled]
  /\ trace (handle (SocketClosed 0 1005000 (Some "Another debugger is already connected"))
              Sample.connected)
     = trace Sample.connected ++ [disconnected_log; SetTimeout 100].
Proof.
  assert (Hrun : promises (handle (SocketClosed 1 1005200
                                     (Some "Another debugger is already connected"))
                             Sample.reconnecting)
                 = [Fulfilled; Pending]) by (vm_compute; reflexivity).
  split; [|split; [exact Hrun | split; vm_compute; reflexivity]].
  intros Hclaim.
  specialize (Hclaim Sample.reconnecting 1%nat
                {| listeners := true; retryAttempt := true; deferred := 1; _closeMessage := None |}
                1005200 sample_reconnecting_reachable eq_refl eq_refl eq_refl eq_refl).
  rewrite Hrun in Hclaim. discriminate Hclaim.
Qed.

(** * What every event leaves alone *)

Ltac run_handler :=
  unfold handle, resume, to_listeners, record_closeMessage in *;
  unfold onMessage, killWorker, gotPrepareJSRuntime, startNewWorkerLifetime in *;
  unfold_methods; unfold_methods; unfold_monad;
  repeat (case_match; unfold_monad; simplify_eq; cbn in * );
  unfold_state; cbn in *.

Ltac same_filter :=
  rewrite ?List.filter_app; cbn; rewrite ?app_nil_r; reflexivity.

Section Frame.

Context `{rt : Runtime}.

Lemma handle_configuration (ev : Event) (st : State) :
  configuration (handle ev st) = configuration st.
Proof. unfold configuration. destruct ev; run_handler; reflexivity. Qed.

Lemma run_configuration (evs : list Event) (st : State) :
  configuration (run evs st) = configuration st.
Proof.
  revert st. induction evs as [|ev evs IH]; intros st; [reflexivity|].
  change (run (ev :: evs) st) with (run evs (handle ev st)).
  rewrite IH. apply handle_configuration.
Qed.

Lemma debuggerProxyUrl_configuration (st st' : State) :
  configuration st' = configuration st -> debuggerProxyUrl st' = debuggerProxyUrl st.
Proof. unfold configuration, debuggerProxyUrl. now intros [= -> -> _ _ _]. Qed.

(** A promise that is settled stays as it is. *)
Lemma handle_settled (ev : Event) (st : State) (p : nat) (outcome : PromiseState) :
  promises st !! p = Some outcome -> outcome <> Pending ->
  promises (handle ev st) !! p = Some outcome.
Proof.
  intros Hp Hsettled. destruct ev; run_handler;
    try assumption;
    try (apply lookup_app_l_Some; assumption);
    try (rewrite list_lookup_insert_ne; [assumption | congruence]);
    try (rewrite list_lookup_insert_ne;
           [apply lookup_app_l_Some; assumption
           | intros Heq; rewrite Heq in *;
             erewrite lookup_app_l_Some in *; [|eassumption]; congruence]).
Qed.

Lemma handle_opens_url (ev : Event) (st : State) :
  Forall (opens_url (debuggerProxyUrl st)) (trace st) ->
  Forall (opens_url (debuggerProxyUrl st)) (trace (handle ev st)).
Proof.
  intros Hold. unfold debuggerProxyUrl in *. destruct ev; run_handler;
    rewrite ?Forall_app; repeat split; try assumption;
    repeat constructor.
Qed.

Lemma handle_sends (ev : Event) (st : State) :
  is_worker_event ev = false ->
  List.filter is_SocketSend (trace (handle ev st)) = List.filter is_SocketSend (trace st).
Proof. intros Hev. destruct ev; try discriminate Hev; run_handler; same_filter. Qed.

Lemma handle_workers (ev : Event) (st : State) :
  is_SocketMessage ev = false ->
  List.filter is_NewForkedAppWorker (trace (handle ev st))
    = List.filter is_NewForkedAppWorker (trace st)
  /\ List.filter is_WorkerPostMessage (trace (handle ev st))
     = List.filter is_WorkerPostMessage (trace st)
  /\ workers (handle ev st) = workers st.
Proof.
  intros Hev. destruct ev; try discriminate Hev; run_handler;
    (split; [same_filter | split; [same_filter | congruence]]).
Qed.

End Frame.

(** * The configuration and the proxy URL *)

Section Configuration.

Context `{rt : Runtime}.

(** X1: the constructor refuses an empty storage path with
    [SourcesStoragePathIsNullOrEmpty] and nothing else; on an object it
    does construct, the address, the port, the two paths and the worker URL
    path are those it was given, with [localhost] for an absent or empty
    address, and no event ever changes them. *)
Theorem configuration_is_fixed (address : option string) (port : Z)
    (storage project : string) (urlPath : option string) :
  match constructor address port storage project urlPath with
  | Throw e =>
      storage = "" /\ e = InternalError SourcesStoragePathIsNullOrEmpty NoArgument
  | Normal st =>
      storage <> ""
      /\ forall evs,
           configuration (run evs st)
           = (packagerAddress (this st), port, storage, project, urlPath)
           /\ packagerAddress (this (run evs st)) <> ""
           /\ (forall a, address = Some a -> a <> "" ->
                         packagerAddress (this (run evs st)) = a)
           /\ (address = None \/ address = Some "" ->
               packagerAddress (this (run evs st)) = "localhost")
  end.
Proof.
  unfold constructor. destruct (String.eqb_spec storage "") as [->|Hstorage]; [now split|].
  split; [exact Hstorage|]. intros evs.
  match goal with |- context [run evs ?st] => set (st0 := st) end.
  pose proof (run_configuration evs st0) as Hfixed.
  split; [exact Hfixed|].
  assert (Ha : packagerAddress (this (run evs st0)) = packagerAddress (this st0)).
  { unfold configuration in Hfixed. congruence. }
  rewrite Ha. cbn. split; [|split].
  - destruct address as [a|]; [|discriminate].
    destruct (String.eqb_spec a ""); [discriminate | assumption].
  - intros a -> Hne. apply String.eqb_neq in Hne. now rewrite Hne.
  - now intros [-> | ->].
Qed.

(** X2: every WebSocket a reachable object has constructed was constructed
    for one URL, the debugger-proxy URL of its address and port. *)
Theorem sockets_open_the_proxy_url (st : State) :
  reachable st ->
  Forall (opens_url (debuggerProxyUrl st)) (trace st).
Proof.
  induction 1 as [address port storage project urlPath st Hnew | ev st _ IH].
  - unfold constructor in Hnew. destruct (String.eqb storage ""); [discriminate|].
    injection Hnew as <-. constructor.
  - rewrite (debuggerProxyUrl_configuration st (handle ev st) (handle_configuration ev st)).
    now apply handle_opens_url.
Qed.

(** X3: a promise of [start] that has been resolved or rejected is never
    changed again, whatever events follow: later calls of [resolve] and
    [reject] on its deferred are lost. *)
Theorem settled_promise_is_final (evs : list Event) (st : State) (p : nat)
    (outcome : PromiseState) :
  promises st !! p = Some outcome -> outcome <> Pending ->
  promises (run evs st) !! p = Some outcome.
Proof.
  revert st. induction evs as [|ev evs IH]; intros st Hp Hsettled; [exact Hp|].
  change (run (ev :: evs) st) with (run evs (handle ev st)).
  apply IH; [|exact Hsettled]. now apply handle_settled.
Qed.

(** X4: the class writes on the socket only when a worker speaks: events
    other than the start of a worker and the messages a worker posts add no
    [send] to the trace. *)
Theorem only_workers_make_the_class_send (evs : list Event) (st : State) :
  Forall (fun ev => is_worker_event ev = false) evs ->
  List.filter is_SocketSend (trace (run evs st)) = List.filter is_SocketSend (trace st).
Proof.
  intros Hevs. revert st. induction Hevs as [|ev evs Hev _ IH]; intros st; [reflexivity|].
  change (run (ev :: evs) st) with (run evs (handle ev st)).
  rewrite IH. now apply handle_sends.
Qed.

(** X5: workers are constructed, and messages are posted to a worker, only
    while a message of the socket is handled: no other event adds a
    construction or a post to the trace, or changes the count of workers. *)
Theorem only_messages_reach_workers (evs : list Event) (st : State) :
  Forall (fun ev => is_SocketMessage ev = false) evs ->
  List.filter is_NewForkedAppWorker (trace (run evs st))
    = List.filter is_NewForkedAppWorker (trace st)
  /\ List.filter is_WorkerPostMessage (trace (run evs st))
     = List.filter is_WorkerPostMessage (trace st)
  /\ workers (run evs st) = workers st.
Proof.
  intros Hevs. revert st. induction Hevs as [|ev evs Hev _ IH]; intros st; [now repeat split|].
  change (run (ev :: evs) st) with (run evs (handle ev st)).
  destruct (IH (handle ev st)) as (-> & -> & ->). now apply handle_workers.
Qed.

End Configuration.

Lemma sockets_open_the_proxy_url_witness :
  reachable Sample.reconnecting
  /\ Forall (opens_url (debuggerProxyUrl Sample.reconnecting)) (trace Sample.reconnecting).
Proof.
  split; [apply sample_reconnecting_reachable|].
  exact (sockets_open_the_proxy_url Sample.reconnecting sample_reconnecting_reachable).
Defined.

(** The first socket closes with the known message and then reports an
    error, after the promise of its [start] was resolved. *)
Lemma settled_promise_is_final_witness :
  promises Sample.connected !! 0%nat = Some Fulfilled
  /\ promises (run [SocketClosed 0 1005000 (Some "Another debugger is already connected");
                    @SocketError Sample.runtime 0 Sample.NotOpened] Sample.connected) !! 0%nat
     = Some Fulfilled.
Proof.
  split; [reflexivity|].
  exact (settled_promise_is_final
           [SocketClosed 0 1005000 (Some "Another debugger is already connected");
            @SocketError Sample.runtime 0 Sample.NotOpened] Sample.connected 0 Fulfilled eq_refl
           ltac:(discriminate)).
Defined.

(** The close of the socket of a connected object, and the retry. *)
Lemma only_workers_make_the_class_send_witness :
  List.filter is_SocketSend
    (trace (run [SocketClosed 0 1005000 None; TimeoutElapsed; PackagerChecked 1 true]
              Sample.connected))
  = List.filter is_SocketSend (trace Sample.connected).
Proof.
  exact (only_workers_make_the_class_send
           [SocketClosed 0 1005000 None; TimeoutElapsed; PackagerChecked 1 true]
           Sample.connected
           ltac:(repeat constructor)).
Defined.

Lemma only_messages_reach_workers_witness :
  workers (run [Sample.started 0; SocketClosed 0 1005000 None; CallStop]
             Sample.debugging) = workers Sample.debugging.
Proof.
  destruct (only_messages_reach_workers
              [Sample.started 0; SocketClosed 0 1005000 None; CallStop]
              Sample.debugging ltac:(repeat constructor)) as (_ & _ & Hworkers).
  exact Hworkers.
Defined.

(** * More on the message handler *)

Section MoreMessages.

Context `{rt : Runtime}.

Lemma killWorker_run (st : State) :
  exec killWorker st
  = match singleLifetimeWorker (this st) with
    | Some w => with_this (set_singleLifetimeWorker None)
                  (with_trace (fun t => t ++ [WorkerStop w]) st)
    | None => st
    end.
Proof. unfold killWorker. unfold_monad. now destruct (singleLifetimeWorker (this st)). Qed.

Lemma with_trace_nil (st : State) : with_trace (fun t => t ++ []) st = st.
Proof. destruct st. unfold with_trace. cbn. now rewrite app_nil_r. Qed.

Lemma with_trace_app (a b : list (Effect any)) (st : State) :
  with_trace (fun t => t ++ b) (with_trace (fun t => t ++ a) st)
  = with_trace (fun t => t ++ a ++ b) st.
Proof. unfold with_trace. cbn. now rewrite app_assoc. Qed.

Lemma handle_SocketMessage (s : nat) (sk : WebSocket) (message : string) (st : State) :
  sockets st !! s = Some sk -> listeners sk = true ->
  handle (SocketMessage s message) st = exec (onMessage message) st.
Proof. intros Hs Hl. cbn [handle]. unfold to_listeners. now rewrite Hs, Hl. Qed.

Lemma onMessage_forwardable (message : string) (object : json) (st : State) :
  forwardable message object ->
  exec (onMessage message) st
  = with_trace (fun t => t ++
      LoggerVerbose ("From RN APP: " +:+ message) ::
      match singleLifetimeWorker (this st) with
      | Some w => [WorkerPostMessage w object]
      | None => []
      end) st.
Proof.
  intros (Hparse & method & Hget & Hp & Hd & Htruthy).
  rewrite (onMessage_other _ _ _ _ Hparse Hget Hp Hd). now rewrite Htruthy.
Qed.

(** The worker events leave the fields and the sockets alone. *)
Lemma handle_worker_event (ev : Event) (st : State) :
  is_worker_event ev = true ->
  this (handle ev st) = this st /\ sockets (handle ev st) = sockets st.
Proof. intros Hev. destruct ev; try discriminate Hev; run_handler; now split. Qed.

Lemma run_worker_events (evs : list Event) (st : State) :
  Forall (fun ev => is_worker_event ev = true) evs ->
  this (run evs st) = this st /\ sockets (run evs st) = sockets st.
Proof.
  intros Hevs. revert st. induction Hevs as [|ev evs Hev _ IH]; intros st; [now split|].
  change (run (ev :: evs) st) with (run evs (handle ev st)).
  destruct (IH (handle ev st)) as [-> ->]. now apply handle_worker_event.
Qed.

(** X6: a [$disconnected] message stops the worker the class holds and
    clears the field; it starts no worker, sends nothing, and keeps the
    socket, the promises and the pending callbacks, so the callbacks of the
    start of the stopped worker stay pending.  [killWorker] does nothing
    when no worker is held: a second [$disconnected] only logs, and so does
    a later message for the worker, which is dropped. *)
Theorem disconnected_ends_the_lifetime (message : string) (object : json) (st : State) :
  JSON_parse message = Some object ->
  get_property (any := any) object "method" = Normal (Some (JString "$disconnected")) ->
  let st1 := exec (onMessage message) st in
  trace st1 = trace st ++
    LoggerVerbose ("From RN APP: " +:+ message) ::
    match singleLifetimeWorker (this st) with
    | Some w => [WorkerStop w]
    | None => []
    end
  /\ singleLifetimeWorker (this st1) = None
  /\ socketToApp (this st1) = socketToApp (this st)
  /\ sockets st1 = sockets st /\ workers st1 = workers st
  /\ promises st1 = promises st /\ tasks st1 = tasks st
  /\ trace (exec (onMessage message) st1)
     = trace st1 ++ [LoggerVerbose ("From RN APP: " +:+ message)]
  /\ (forall next object',
        forwardable next object' ->
        trace (exec (onMessage next) st1)
        = trace st1 ++ [LoggerVerbose ("From RN APP: " +:+ next)]).
Proof.
  intros Hparse Hget st1.
  assert (Hrun : forall st0, exec (onMessage message) st0
                             = exec killWorker
                                 (with_trace (fun t => t ++
                                    [LoggerVerbose ("From RN APP: " +:+ message)]) st0)).
  { intros st0. now apply (onMessage_disconnected _ _ _ _ Hparse Hget). }
  assert (Hnone : singleLifetimeWorker (this st1) = None).
  { subst st1. rewrite Hrun, killWorker_run. cbn.
    now destruct (singleLifetimeWorker (this st)) eqn:Hw. }
  split; [|split; [exact Hnone|]].
  { subst st1. rewrite Hrun, killWorker_run. cbn.
    destruct (singleLifetimeWorker (this st)); cbn; now rewrite <- ?app_assoc. }
  split; [|split; [|split; [|split; [|split; [|split]]]]];
    try (subst st1; rewrite Hrun, killWorker_run; cbn;
         now destruct (singleLifetimeWorker (this st))).
  - rewrite Hrun, killWorker_run. cbn. now rewrite Hnone.
  - intros next object' Hnext. rewrite (onMessage_forwardable _ _ _ Hnext).
    cbn. now rewrite Hnone.
Qed.

(** X7: messages for the worker reach it in the order the socket delivers
    them, each one logged and then posted as it was parsed, and they change
    nothing but the trace. *)
Theorem messages_are_forwarded_in_order (s : nat) (sk : WebSocket) (w : nat)
    (messages : list string) (objects : list json) (st : State) :
  sockets st !! s = Some sk -> listeners sk = true ->
  singleLifetimeWorker (this st) = Some w ->
  Forall2 forwardable messages objects ->
  run (map (SocketMessage s) messages) st
  = with_trace (fun t => t ++ forwarded_calls w messages objects) st.
Proof.
  intros Hs Hl Hw Hall. revert st Hs Hl Hw.
  induction Hall as [|message object messages objects Hfirst _ IH]; intros st Hs Hl Hw.
  - cbn. now rewrite with_trace_nil.
  - cbn [map]. change (run (?ev :: ?evs) st) with (run evs (handle ev st)).
    rewrite (handle_SocketMessage _ _ _ _ Hs Hl), (onMessage_forwardable _ _ _ Hfirst), Hw.
    rewrite IH by assumption. now rewrite with_trace_app.
Qed.

(** X8: whatever the message, [onMessage] leaves the connection alone: the
    socket the class holds, the sockets, the promises of [start], the rate
    limiter and the configuration stay as they are; it makes no call that
    starts, stops or retries a connection and sends nothing; and it adds at
    most one pending callback, that of the start of a new worker. *)
Theorem onMessage_keeps_the_connection (message : string) (st : State) :
  let st' := exec (onMessage message) st in
  socketToApp (this st') = socketToApp (this st)
  /\ configuration st' = configuration st
  /\ executionLimiter (this st') = executionLimiter (this st)
  /\ sockets st' = sockets st
  /\ promises st' = promises st
  /\ (exists delta,
        trace st' = trace st ++ delta
        /\ Forall (fun e => is_connection_call e = false /\ is_SocketSend e = false) delta)
  /\ (tasks st' = tasks st
      \/ exists object, tasks st' = tasks st ++ [AwaitWorkerStart (workers st) object]).
Proof.
  intros st'. subst st'. unfold configuration.
  unfold onMessage, killWorker, gotPrepareJSRuntime, startNewWorkerLifetime.
  unfold_monad.
  repeat (case_match; unfold_monad; simplify_eq; cbn in * );
    unfold_state; cbn;
    (split; [reflexivity|]); (split; [reflexivity|]); (split; [reflexivity|]);
    (split; [reflexivity|]); (split; [reflexivity|]);
    (split; [rewrite <- ?app_assoc; eexists; split; [reflexivity|]; now repeat constructor|]);
    first [left; reflexivity | right; eexists; reflexivity].
Qed.

(** X9: from the moment a [prepareJSRuntime] message is handled, the new
    worker is the one the class holds: a message for the worker is posted to
    it at once, whether its start is still awaited, has succeeded or has
    failed. *)
Theorem new_lifetime_receives_messages (s : nat) (sk : WebSocket) (prepare next : string)
    (object object' : json) (evs : list Event) (st : State) :
  sockets st !! s = Some sk -> listeners sk = true ->
  JSON_parse prepare = Some object ->
  get_property (any := any) object "method" = Normal (Some (JString "prepareJSRuntime")) ->
  forwardable next object' ->
  Forall (fun ev => is_worker_event ev = true) evs ->
  let st1 := run evs (handle (SocketMessage s prepare) st) in
  trace (handle (SocketMessage s next) st1)
  = trace st1 ++
    [LoggerVerbose ("From RN APP: " +:+ next); WorkerPostMessage (workers st) object'].
Proof.
  intros Hs Hl Hparse Hget Hnext Hevs st1.
  assert (Hheld : singleLifetimeWorker (this (handle (SocketMessage s prepare) st))
                  = Some (workers st)
                  /\ sockets (handle (SocketMessage s prepare) st) = sockets st).
  { rewrite (handle_SocketMessage _ _ _ _ Hs Hl).
    rewrite (onMessage_prepareJSRuntime _ _ _ _ Hparse Hget eq_refl), killWorker_run.
    cbn. now destruct (singleLifetimeWorker (this st)). }
  destruct (run_worker_events evs (handle (SocketMessage s prepare) st) Hevs) as [Hthis Hsockets].
  fold st1 in Hthis, Hsockets. destruct Hheld as [Hw Hsame].
  rewrite (handle_SocketMessage s sk next st1), (onMessage_forwardable _ _ _ Hnext).
  - cbn. now rewrite Hthis, Hw.
  - now rewrite Hsockets, Hsame.
  - exact Hl.
Qed.

(** X10: the callbacks of the start of a worker do not ask whether the
    worker is still the one the class holds.  When a [$disconnected]
    message has stopped the worker before it reported its start, the start
    still makes the class emit [connected] and write the acknowledgement of
    the [prepareJSRuntime] message on the socket, and no worker is held. *)
Theorem stopped_worker_is_still_acknowledged (s : nat) (sk : WebSocket)
    (prepare disconnect : string) (object object' : json) (id : option json)
    (text : string) (startedEvent : any) (st : State) :
  reachable st ->
  sockets st !! s = Some sk -> listeners sk = true ->
  JSON_parse prepare = Some object ->
  get_property (any := any) object "method" = Normal (Some (JString "prepareJSRuntime")) ->
  get_property (any := any) object "id" = Normal id ->
  JSON_parse disconnect = Some object' ->
  get_property (any := any) object' "method" = Normal (Some (JString "$disconnected")) ->
  JSON_stringify (ReplyID (inject_Z <$> parseInt id)) = Text text ->
  let w := workers st in
  let st1 := run [SocketMessage s prepare; SocketMessage s disconnect] st in
  let st2 := handle (WorkerStarted w startedEvent) st1 in
  last (trace st1) = Some (WorkerStop w)
  /\ singleLifetimeWorker (this st1) = None
  /\ singleLifetimeWorker (this st2) = None
  /\ exists k logged,
       socketToApp (this st) = Some k
       /\ trace st2 = trace st1 ++
            [ Emit "connected" startedEvent;
              LoggerVerbose ("To RN APP: " +:+ text);
              SocketSend k (Some text) ] ++ logged
       /\ existsb is_SocketSend logged = false.
Proof.
  intros Hreach Hs Hl Hparse Hget Hid Hparse' Hget' Htext w st1 st2.
  pose proof (reachable_invariant st Hreach) as Hinv.
  destruct (prepareJSRuntime_starts s sk prepare object _ st Hinv Hs Hl Hparse Hget eq_refl)
    as (_ & Hfield & Hsocket & Htasks & Htake).
  set (st0 := handle (SocketMessage s prepare) st) in *.
  assert (Hsockets : sockets st0 = sockets st).
  { subst st0. rewrite (handle_SocketMessage _ _ _ _ Hs Hl).
    rewrite (onMessage_prepareJSRuntime _ _ _ _ Hparse Hget eq_refl), killWorker_run.
    cbn. now destruct (singleLifetimeWorker (this st)). }
  assert (Hst1 : st1 = with_this (set_singleLifetimeWorker None)
                         (with_trace (fun t => t ++ [WorkerStop w])
                            (with_trace (fun t => t ++
                               [LoggerVerbose ("From RN APP: " +:+ disconnect)]) st0))).
  { subst st1. change (run [?a; ?b] st) with (handle b (handle a st)). fold st0.
    rewrite (handle_SocketMessage s sk disconnect st0) by (now rewrite ?Hsockets).
    rewrite (onMessage_disconnected _ _ _ _ Hparse' Hget' eq_refl eq_refl), killWorker_run.
    cbn [this with_trace]. now rewrite Hfield. }
  destruct (inv_connected st Hinv) as [k Hk].
  { right. intros Hnil. now rewrite Hnil in Hs. }
  assert (Hlast : last (trace st1) = Some (WorkerStop w)).
  { rewrite Hst1. cbn. apply last_snoc. }
  assert (Hnone : singleLifetimeWorker (this st1) = None) by now rewrite Hst1.
  assert (Hstarted : trace st2 = trace st1 ++
            [ Emit "connected" startedEvent;
              LoggerVerbose ("To RN APP: " +:+ text);
              SocketSend k (Some text) ] ++
            match ws_send (trace st1 ++ [ Emit "connected" startedEvent;
                                          LoggerVerbose ("To RN APP: " +:+ text);
                                          SocketSend k (Some text) ]) with
            | None => []
            | Some e =>
                [ LoggerError (NestedError
                    (InternalError FailedToSendMessageToTheReactNativeApp
                       (TextArgument (if String.eqb text ""
                                      then toString (ReplyID (inject_Z <$> parseInt id))
                                      else text)))
                    DebuggingWontWorkReloadJSAndReconnect (Raised e)) ]
            end).
  { subst st2. apply (workerStarted_acknowledges w object (tasks st) id k text startedEvent st1);
      try assumption; rewrite Hst1; unfold_state; [exact Htake | now rewrite Hsocket]. }
  split; [exact Hlast|]. split; [exact Hnone|]. split.
  - subst st2. destruct (handle_worker_event (WorkerStarted w startedEvent) st1 eq_refl) as [-> _].
    exact Hnone.
  - exists k. eexists. split; [exact Hk|]. split; [exact Hstarted|].
    now destruct (ws_send _).
Qed.

End MoreMessages.


Lemma sample_execute_script_forwardable :
  forwardable (rt := Sample.runtime) Sample.execute_script
    (JObject [("method", JString "executeApplicationScript")]).
Proof.
  split; [reflexivity|]. exists (Some (JString "executeApplicationScript")).
  now repeat split.
Qed.

(** The application reloads: [$disconnected] with a sandbox live. *)
Lemma disconnected_ends_the_lifetime_witness :
  @JSON_parse Sample.runtime Sample.disconnected
    = Some (JObject [("method", JString "$disconnected")])
  /\ trace (exec (onMessage Sample.disconnected) Sample.debugging)
     = trace Sample.debugging ++
       [LoggerVerbose ("From RN APP: " +:+ Sample.disconnected); WorkerStop 0].
Proof.
  split; [reflexivity|].
  destruct (disconnected_ends_the_lifetime Sample.disconnected
              (JObject [("method", JString "$disconnected")]) Sample.debugging
              eq_refl eq_refl) as (Htrace & _).
  exact Htrace.
Defined.

(** Two scripts to run, one after the other. *)
Lemma messages_are_forwarded_in_order_witness :
  trace (run (map (@SocketMessage Sample.runtime 0)
                [Sample.execute_script; Sample.execute_script]) Sample.debugging)
  = trace Sample.debugging ++
    forwarded_calls 0 [Sample.execute_script; Sample.execute_script]
      [ JObject [("method", JString "executeApplicationScript")];
        JObject [("method", JString "executeApplicationScript")] ].
Proof.
  rewrite (messages_are_forwarded_in_order 0
             {| listeners := true; retryAttempt := false; deferred := 0; _closeMessage := None |}
             0 [Sample.execute_script; Sample.execute_script]
             [ JObject [("method", JString "executeApplicationScript")];
               JObject [("method", JString "executeApplicationScript")] ]
             Sample.debugging eq_refl eq_refl eq_refl
             ltac:(do 2 (constructor; [exact sample_execute_script_forwardable|]);
                   constructor)).
  reflexivity.
Defined.

(** A script to run arrives after the start of the sandbox has failed. *)
Lemma new_lifetime_receives_messages_witness :
  let st1 := run [@WorkerStartFailed Sample.runtime 0 TypeError]
               (handle (SocketMessage 0 Sample.prepare_42) Sample.connected) in
  trace (handle (SocketMessage 0 Sample.execute_script) st1)
  = trace st1 ++
    [ LoggerVerbose ("From RN APP: " +:+ Sample.execute_script);
      WorkerPostMessage 0 (JObject [("method", JString "executeApplicationScript")]) ].
Proof.
  exact (new_lifetime_receives_messages 0
           {| listeners := true; retryAttempt := false; deferred := 0; _closeMessage := None |}
           Sample.prepare_42 Sample.execute_script
           (JObject [("method", JString "prepareJSRuntime"); ("id", JNumber (42 # 1))])
           (JObject [("method", JString "executeApplicationScript")])
           [@WorkerStartFailed Sample.runtime 0 TypeError] Sample.connected
           eq_refl eq_refl eq_refl eq_refl sample_execute_script_forwardable
           ltac:(repeat constructor)).
Defined.

(** The application asks for a sandbox and reloads before it has started. *)
Lemma stopped_worker_is_still_acknowledged_witness :
  reachable Sample.connected
  /\ let st1 := run [SocketMessage 0 Sample.prepare_42; SocketMessage 0 Sample.disconnected]
                  Sample.connected in
     last (trace st1) = Some (WorkerStop 0)
     /\ singleLifetimeWorker (this (handle (Sample.started 0) st1)) = None.
Proof.
  split; [apply sample_connected_reachable|].
  destruct (@stopped_worker_is_still_acknowledged Sample.runtime 0
              {| listeners := true; retryAttempt := false; deferred := 0; _closeMessage := None |}
              Sample.prepare_42 Sample.disconnected
              (JObject [("method", JString "prepareJSRuntime"); ("id", JNumber (42 # 1))])
              (JObject [("method", JString "$disconnected")])
              (Some (JNumber (42 # 1)))
              ("{" +:+ Sample.quoted "replyID" +:+ ":42}") Sample.WorkerLoaded
              Sample.connected sample_connected_reachable
              eq_refl eq_refl eq_refl eq_refl eq_refl eq_refl eq_refl eq_refl)
    as (Hlast & _ & Hnone & _).
  split; [exact Hlast | exact Hnone].
Defined.

(** * More on the socket *)

Section MoreSockets.

Context `{rt : Runtime}.

(** What the listener of [error] does. *)
Lemma socketError_run (s : nat) (sk : WebSocket) (error : any) (st : State) :
  sockets st !! s = Some sk -> listeners sk = true ->
  handle (SocketError s error) st
  = with_promises (fun ps =>
      match ps !! deferred sk with
      | Some Pending => <[deferred sk := Rejected (Raised error)]> ps
      | _ => ps
      end)
      (if retryAttempt sk
       then with_trace (fun t => t ++
              [LoggerError (NestedError
                 (InternalError ReconnectionToPackagerFailedCheckForErrorsOrRestartReactNative
                    NoArgument)
                 DebuggingWontWorkReloadJSAndReconnect (Raised error))]) st
       else st).
Proof.
  intros Hs Hl. cbn [handle]. unfold to_listeners. rewrite Hs, Hl.
  unfold onSocketError, settle. unfold_monad. now destruct (retryAttempt sk).
Qed.

(** What the end of the 300 ms does, when its callback is the last pending
    one for the promise. *)
Lemma delayElapsed_run (p : nat) (before : list Task) (st : State) :
  tasks st = before ++ [AwaitDelay p] ->
  Forall (fun t => awaits_delay p t = false) before ->
  handle (DelayElapsed p) st
  = with_promises (fun ps =>
      match ps !! p with
      | Some Pending => <[p := Fulfilled]> ps
      | _ => ps
      end) (with_tasks (fun _ => before) st).
Proof.
  intros Htasks Hbefore. cbn [handle]. unfold resume.
  rewrite Htasks, (take_task_skip _ _ _ Hbefore) by (cbn; apply Nat.eqb_refl).
  reflexivity.
Qed.

Lemma socketOpen_promises (s : nat) (now : Z) (st : State) :
  promises (handle (SocketOpen s now) st) = promises st.
Proof.
  cbn [handle]. unfold to_listeners, onSocketOpened, executionLimiter_execute.
  unfold_monad. repeat case_match; reflexivity.
Qed.

(** X11: an error of a socket rejects the promise of the [start] that made
    the socket with that error, if the promise is still pending, and
    changes no other promise.  Only the socket of a retry logs the failed
    reconnection.  The listener of [error] sets no timer and leaves the
    fields alone: an error schedules no retry and the class keeps the
    socket. *)
Theorem socket_error_rejects_the_start (s : nat) (sk : WebSocket) (error : any)
    (st : State) :
  sockets st !! s = Some sk -> listeners sk = true ->
  let st' := handle (SocketError s error) st in
  trace st' = trace st ++
    (if retryAttempt sk
     then [LoggerError (NestedError
             (InternalError ReconnectionToPackagerFailedCheckForErrorsOrRestartReactNative
                NoArgument)
             DebuggingWontWorkReloadJSAndReconnect (Raised error))]
     else [])
  /\ (promises st !! deferred sk = Some Pending ->
      promises st' !! deferred sk = Some (Rejected (Raised error)))
  /\ (promises st !! deferred sk <> Some Pending -> promises st' = promises st)
  /\ (forall p, p <> deferred sk -> promises st' !! p = promises st !! p)
  /\ this st' = this st /\ sockets st' = sockets st
  /\ workers st' = workers st /\ tasks st' = tasks st.
Proof.
  intros Hs Hl st'. subst st'. rewrite (socketError_run s sk error st Hs Hl).
  split; [destruct (retryAttempt sk); cbn; now rewrite ?app_nil_r|].
  assert (Hsame : promises (if retryAttempt sk
                            then with_trace (fun t => t ++
                                   [LoggerError (NestedError
                                      (InternalError
                                         ReconnectionToPackagerFailedCheckForErrorsOrRestartReactNative
                                         NoArgument)
                                      DebuggingWontWorkReloadJSAndReconnect (Raised error))]) st
                            else st) = promises st)
    by now destruct (retryAttempt sk).
  cbn [promises with_promises]. rewrite Hsame.
  split; [|split; [|split]].
  - intros Hpending. rewrite Hpending. apply list_lookup_insert_eq.
    now apply lookup_lt_Some in Hpending.
  - intros Hsettled. destruct (promises st !! deferred sk) as [[]|]; congruence.
  - intros p Hp. destruct (promises st !! deferred sk) as [[]|]; try reflexivity.
    now apply list_lookup_insert_ne.
  - now destruct (retryAttempt sk).
Qed.

(** X12: the promise of a first [start] is resolved by the end of the
    300 ms that follow the construction of the socket, not by the open of
    the socket: the open changes no promise and the end of the delay
    fulfils the promise with no further call.  An error of the socket
    within the delay rejects the promise, without a log on this first
    attempt, and the end of the delay then leaves it rejected. *)
Theorem start_resolves_after_the_delay (workerContent : string) (st : State) :
  reachable st ->
  let p := length (promises st) in
  let s := length (sockets st) in
  let st1 := run (first_start_events p workerContent) st in
  promises st1 !! p = Some Pending
  /\ (forall now, promises (handle (SocketOpen s now) st1) = promises st1)
  /\ promises (handle (DelayElapsed p) st1) !! p = Some Fulfilled
  /\ trace (handle (DelayElapsed p) st1) = trace st1
  /\ (forall error,
        let st2 := handle (SocketError s error) st1 in
        trace st2 = trace st1
        /\ promises st2 !! p = Some (Rejected (Raised error))
        /\ promises (handle (DelayElapsed p) st2) !! p = Some (Rejected (Raised error))).
Proof.
  intros Hreach p s st1. pose proof (reachable_invariant st Hreach) as Hinv.
  assert (Hfresh : Forall (fun t => awaits_delay p t = false) (tasks st)).
  { eapply Forall_impl; [exact (next_promise_not_awaited st Hinv)|]. cbn. tauto. }
  destruct (first_start_run 5 workerContent st Hinv) as (_ & Hpromises & _ & Hafter).
  destruct (Hafter (le_n 5)) as (_ & Hsockets & Htasks). clear Hafter.
  change (run (take 5 (first_start_events (length (promises st)) workerContent)) st)
    with st1 in *.
  cbn [Nat.eqb] in Hpromises. fold p in Hsockets, Htasks.
  assert (Hpending : promises st1 !! p = Some Pending).
  { rewrite Hpromises. apply list_lookup_middle. reflexivity. }
  assert (Hsk : sockets st1 !! s
                = Some {| listeners := true; retryAttempt := false;
                          deferred := p; _closeMessage := None |}).
  { rewrite Hsockets. apply list_lookup_middle. reflexivity. }
  clearbody st1.
  split; [exact Hpending|]. split; [intros now; apply socketOpen_promises|].
  rewrite (delayElapsed_run p (tasks st) st1 Htasks Hfresh).
  cbn [promises trace with_promises with_tasks]. rewrite Hpending.
  split; [apply list_lookup_insert_eq; now apply lookup_lt_Some in Hpending|].
  split; [reflexivity|].
  intros error.
  rewrite (socketError_run s _ error st1 Hsk eq_refl). cbn [retryAttempt deferred].
  split; [reflexivity|].
  set (st2 := with_promises (fun ps =>
                match ps !! p with
                | Some Pending => <[p := Rejected (Raised error)]> ps
                | _ => ps
                end) st1).
  assert (Hrejected : promises st2 !! p = Some (Rejected (Raised error))).
  { subst st2. cbn [promises with_promises]. rewrite Hpending.
    apply list_lookup_insert_eq. now apply lookup_lt_Some in Hpending. }
  split; [exact Hrejected|].
  rewrite (delayElapsed_run p (tasks st) st2 Htasks Hfresh).
  cbn [promises with_promises with_tasks]. now rewrite Hrejected.
Qed.

End MoreSockets.

(** The socket of the retry reports an error before its 300 ms have passed. *)
Lemma socket_error_rejects_the_start_witness :
  sockets Sample.reconnecting !! 1%nat
    = Some {| listeners := true; retryAttempt := true; deferred := 1; _closeMessage := None |}
  /\ trace (handle (@SocketError Sample.runtime 1 Sample.NotOpened) Sample.reconnecting)
     = trace Sample.reconnecting ++
       [LoggerError (NestedError
          (InternalError ReconnectionToPackagerFailedCheckForErrorsOrRestartReactNative
             NoArgument)
          DebuggingWontWorkReloadJSAndReconnect (Raised Sample.NotOpened))].
Proof.
  split; [reflexivity|].
  destruct (@socket_error_rejects_the_start Sample.runtime 1
              {| listeners := true; retryAttempt := true; deferred := 1; _closeMessage := None |}
              Sample.NotOpened Sample.reconnecting eq_refl eq_refl) as (Htrace & _).
  exact Htrace.
Defined.

(** The first [start] of a constructed object. *)
Lemma start_resolves_after_the_delay_witness :
  reachable Sample.fresh
  /\ promises (handle (DelayElapsed 0) (run (first_start_events 0 "payload") Sample.fresh))
       !! 0%nat
     = Some Fulfilled.
Proof.
  split; [apply sample_fresh_reachable|].
  destruct (start_resolves_after_the_delay "payload" Sample.fresh sample_fresh_reachable)
    as (_ & _ & Hfulfilled & _).
  exact Hfulfilled.
Defined.

(** * More on [stop] *)

Section MoreStopping.

Context `{rt : Runtime}.

(** What [stop] leaves as it is. *)
Lemma stop_frame (st : State) :
  tasks (exec stop st) = tasks st /\ promises (exec stop st) = promises st
  /\ workers (exec stop st) = workers st
  /\ length (sockets (exec stop st)) = length (sockets st).
Proof.
  unfold stop, socket_close. unfold_monad.
  destruct (socketToApp (this st)); cbn;
    repeat (case_match; simplify_eq; cbn);
    rewrite ?length_alter; now repeat split.
Qed.

Lemma stop_removes_listeners (s : nat) (st : State) :
  socketToApp (this st) = Some s ->
  forall sk, sockets (exec stop st) !! s = Some sk -> listeners sk = false.
Proof.
  intros Hs sk. unfold stop, socket_close. unfold_monad. rewrite Hs. cbn.
  repeat (case_match; simplify_eq; cbn);
    rewrite list_lookup_alter_eq; destruct (sockets st !! s); cbn; now intros [= <-].
Qed.

(** An event of a socket that has no listeners reaches no method. *)
Lemma unheard_socket_event (s : nat) (ev : Event) (st : State) :
  (forall sk, sockets st !! s = Some sk -> listeners sk = false) ->
  is_socket_event s ev = true ->
  (forall sk, sockets (handle ev st) !! s = Some sk -> listeners sk = false)
  /\ trace (handle ev st) = trace st /\ tasks (handle ev st) = tasks st
  /\ promises (handle ev st) = promises st /\ this (handle ev st) = this st
  /\ workers (handle ev st) = workers st.
Proof.
  intros Hsilent Hev.
  destruct ev; try discriminate Hev; cbn in Hev; apply Nat.eqb_eq in Hev; subst s0;
    cbn [handle]; unfold to_listeners, record_closeMessage; cbn [sockets with_sockets];
    rewrite ?list_lookup_alter_eq;
    destruct (sockets st !! s) as [sk|] eqn:Hs; cbn;
    rewrite ?(Hsilent sk eq_refl); cbn; rewrite ?Hs;
    (split; [|now repeat split]);
    try exact Hsilent;
    intros sk'; rewrite list_lookup_alter_eq, Hs; cbn; intros [= <-]; cbn;
    try exact (Hsilent sk eq_refl).
Qed.

(** X13: after [stop] nothing that the socket emits reaches the class, since
    [stop] removed its listeners: whatever the socket reports (its close,
    messages, errors), no call is made, no timer is set, so no retry
    follows, and no promise, field or pending callback changes. *)
Theorem stop_silences_the_socket (s : nat) (evs : list Event) (st : State) :
  socketToApp (this st) = Some s ->
  Forall (fun ev => is_socket_event s ev = true) evs ->
  let st1 := exec stop st in
  let st2 := run evs st1 in
  trace st2 = trace st1 /\ tasks st2 = tasks st1 /\ promises st2 = promises st1
  /\ this st2 = this st1 /\ workers st2 = workers st1.
Proof.
  intros Hs Hevs st1 st2. subst st2.
  pose proof (stop_removes_listeners s st Hs) as Hsilent. fold st1 in Hsilent.
  clearbody st1. revert st1 Hsilent.
  induction Hevs as [|ev evs Hev _ IH]; intros st1 Hsilent; [now repeat split|].
  change (run (ev :: evs) st1) with (run evs (handle ev st1)).
  destruct (unheard_socket_event s ev st1 Hsilent Hev) as (Hnext & <- & <- & <- & <- & <-).
  now apply IH.
Qed.

(** What the timer of a close does when it fires. *)
Lemma timeoutElapsed_run (rest : list Task) (st : State) :
  take_task awaits_timeout (tasks st) = Some (AwaitTimeout, rest) ->
  handle TimeoutElapsed st = exec (start true) (with_tasks (fun _ => rest) st).
Proof. intros Htake. cbn [handle]. unfold resume. now rewrite Htake. Qed.

(** The retry, from the timer to the new socket. *)
Lemma retry_run (rest : list Task) (st : State) :
  invariant st ->
  take_task awaits_timeout (tasks st) = Some (AwaitTimeout, rest) ->
  let p := length (promises st) in
  let st1 := run [TimeoutElapsed; PackagerChecked p true] st in
  trace st1 = trace st ++ retry_start_calls st
  /\ socketToApp (this st1) = Some (length (sockets st))
  /\ sockets st1
     = sockets st ++
       [{| listeners := true; retryAttempt := true; deferred := p; _closeMessage := None |}]
  /\ tasks st1 = rest ++ [AwaitDelay p].
Proof.
  intros Hinv Htake p st1.
  assert (Hfresh : Forall (fun t => awaits_packager p t = false) rest).
  { apply (take_task_Forall _ _ _ _ _ Htake).
    eapply Forall_impl; [exact (next_promise_not_awaited st Hinv)|]. cbn. tauto. }
  subst st1. cbn [run fold_left]. rewrite (timeoutElapsed_run rest st Htake), start_run.
  cbn [handle]. rewrite resume_spawned; [|exact Hfresh | cbn; apply Nat.eqb_refl].
  unfold packagerChecked_then. rewrite createSocketToApp_run.
  cbn. rewrite <- !app_assoc. now repeat split.
Qed.

(** X14: [stop] does not cancel the timer that a close of the socket has
    set.  When the timer fires after [stop], [start(true)] still runs: with
    the packager running the class constructs a new socket, with its
    listeners, and holds it. *)
Theorem stop_keeps_the_retry_timer (rest : list Task) (st : State) :
  reachable st ->
  take_task awaits_timeout (tasks st) = Some (AwaitTimeout, rest) ->
  let p := length (promises st) in
  let st1 := run [CallStop; TimeoutElapsed; PackagerChecked p true] st in
  trace st1 = trace st ++ teardown_calls st ++ retry_start_calls st
  /\ socketToApp (this st1) = Some (length (sockets st))
  /\ sockets st1 !! length (sockets st)
     = Some {| listeners := true; retryAttempt := true; deferred := p; _closeMessage := None |}
  /\ tasks st1 = rest ++ [AwaitDelay p].
Proof.
  intros Hreach Htake p st1.
  destruct (stop_frame st) as (Htasks & Hpromises & _ & Hlength).
  pose proof (stop_trace st) as Htrace. pose proof (stop_this st) as Hthis.
  assert (Hinv : invariant (handle CallStop st))
    by apply reachable_invariant, reachable_step, Hreach.
  subst st1.
  change (run [CallStop; TimeoutElapsed; PackagerChecked p true] st)
    with (run [TimeoutElapsed; PackagerChecked p true] (handle CallStop st)).
  change (handle CallStop st) with (exec stop st) in *.
  set (st0 := exec stop st) in *. clearbody st0.
  rewrite <- Htasks in Htake. subst p. rewrite <- Hpromises.
  destruct (retry_run rest st0 Hinv Htake) as (Hcalls & Hsocket & Hsockets & Hpending).
  assert (Hsame : retry_start_calls st0 = retry_start_calls st).
  { unfold retry_start_calls, debuggerProxyUrl, errPackagerNotRunning.
    now rewrite Hthis, Hlength. }
  rewrite Hcalls, Hsocket, Hsockets, Hpending, Hsame, Htrace, Hlength, <- app_assoc.
  repeat split. rewrite <- Hlength. apply list_lookup_middle. reflexivity.
Qed.

(** X15: a [stop] that comes before the class has constructed a socket
    does nothing at all: there is no socket to close and no worker to stop.
    It cancels nothing, so a [start] that is under way goes on. *)
Theorem stop_before_the_socket_does_nothing (st : State) :
  reachable st ->
  socketToApp (this st) = None ->
  handle CallStop st = st
  /\ forall evs, run (CallStop :: evs) st = run evs st.
Proof.
  intros Hreach Hnone. pose proof (reachable_invariant st Hreach) as Hinv.
  assert (Hstop : handle CallStop st = st).
  { cbn [handle]. unfold stop. unfold_monad. rewrite Hnone.
    destruct (singleLifetimeWorker (this st)) as [w|] eqn:Hw; [|reflexivity].
    pose proof (inv_worker st Hinv w Hw) as Hlt.
    destruct (inv_connected st Hinv) as [k Hk]; [left; lia|]. congruence. }
  split; [exact Hstop|]. intros evs.
  change (run (CallStop :: evs) st) with (run evs (handle CallStop st)).
  now rewrite Hstop.
Qed.

(** X16: what a worker posts is written on the socket the class holds at
    that moment, after a log of the text, whichever worker posts it, be it
    the one the class holds or one it has stopped; nothing but the trace
    changes. *)
Theorem worker_message_goes_to_the_current_socket (w : nat) (message : any)
    (text : string) (s : nat) (st : State) :
  (w < workers st)%nat ->
  JSON_stringify (FromWorker message) = Text text ->
  socketToApp (this st) = Some s ->
  let st' := handle (WorkerPosted w message) st in
  same_object st st'
  /\ exists logged,
       trace st' = trace st ++
         [LoggerVerbose ("To RN APP: " +:+ text); SocketSend s (Some text)] ++ logged
       /\ existsb is_SocketSend logged = false.
Proof.
  intros Hw Htext Hs st'. subst st'. cbn [handle].
  apply Nat.ltb_lt in Hw. rewrite Hw.
  split; [apply sendMessageToApp_same_object|].
  unfold sendMessageToApp, socket_send. unfold_monad. rewrite Htext. cbn.
  rewrite Hs. cbn. rewrite <- !app_assoc. cbn.
  destruct (ws_send _); cbn; rewrite <- ?app_assoc; cbn;
    eexists; (split; [reflexivity|]); reflexivity.
Qed.

End MoreStopping.

(** The socket closes and reports an error after [stop]. *)
Lemma stop_silences_the_socket_witness :
  socketToApp (this Sample.debugging) = Some 0%nat
  /\ tasks (run [SocketClosed 0 1005000 None; @SocketError Sample.runtime 0 Sample.NotOpened]
              (exec stop Sample.debugging))
     = tasks (exec stop Sample.debugging).
Proof.
  split; [reflexivity|].
  destruct (@stop_silences_the_socket Sample.runtime 0
              [SocketClosed 0 1005000 None; @SocketError Sample.runtime 0 Sample.NotOpened]
              Sample.debugging eq_refl ltac:(repeat constructor)) as (_ & Htasks & _).
  exact Htasks.
Defined.

(** [stop] is called within the 100 ms that follow the close of the socket. *)
Lemma stop_keeps_the_retry_timer_witness :
  let st := handle (SocketClosed 0 1005000 None) Sample.connected in
  (reachable st /\ take_task awaits_timeout (tasks st) = Some (AwaitTimeout, []))
  /\ socketToApp (this (run [CallStop; TimeoutElapsed; PackagerChecked 1 true] st))
     = Some 1%nat.
Proof.
  intros st.
  assert (Hreach : reachable st) by apply reachable_step, sample_connected_reachable.
  split; [split; [exact Hreach | reflexivity]|].
  destruct (stop_keeps_the_retry_timer [] st Hreach eq_refl) as (_ & Hsocket & _).
  exact Hsocket.
Defined.

(** [stop] is called while the first [start] waits for the packager. *)
Lemma stop_before_the_socket_does_nothing_witness :
  let st := handle (CallStart false) Sample.fresh in
  (reachable st /\ socketToApp (this st) = None)
  /\ run [CallStop; PackagerChecked 0 true] st = run [PackagerChecked 0 true] st.
Proof.
  intros st.
  assert (Hreach : reachable st) by apply reachable_step, sample_fresh_reachable.
  split; [split; [exact Hreach | reflexivity]|].
  destruct (stop_before_the_socket_does_nothing st Hreach eq_refl) as [_ Hrun].
  exact (Hrun [PackagerChecked 0 true]).
Defined.

(** The sandbox reports that it has loaded. *)
Lemma worker_message_goes_to_the_current_socket_witness :
  ((0 < workers Sample.debugging)%nat
   /\ JSON_stringify (Sample.from_worker Sample.WorkerLoaded)
      = Text ("{" +:+ Sample.quoted "workerLoaded" +:+ ":true}")
   /\ socketToApp (this Sample.debugging) = Some 0%nat)
  /\ same_object Sample.debugging
       (handle (@WorkerPosted Sample.runtime 0 Sample.WorkerLoaded) Sample.debugging).
Proof.
  split; [split; [vm_compute; lia | split; reflexivity]|].
  destruct (@worker_message_goes_to_the_current_socket Sample.runtime 0 Sample.WorkerLoaded
              ("{" +:+ Sample.quoted "workerLoaded" +:+ ":true}") 0 Sample.debugging
              ltac:(vm_compute; lia) eq_refl eq_refl) as [Hsame _].
  exact Hsame.
Defined.

(** * More on the bootstrap script *)

Section MoreBootstrap.

Lemma append_inv_head (a x y : string) : a +:+ x = a +:+ y -> x = y.
Proof.
  induction a as [|c a IH]; [trivial|].
  rewrite !append_String. intros [= H]. now apply IH.
Qed.

Lemma append_inv_tail (x y t : string) : x +:+ t = y +:+ t -> x = y.
Proof.
  intros H.
  assert (Hlen : String.length x = String.length y).
  { apply (f_equal String.length) in H. rewrite !length_append in H. lia. }
  rewrite <- (substring_prefix x t), <- (substring_prefix y t), H, Hlen. reflexivity.
Qed.

Lemma occurs_at_whole (piece : string) : occurs_at 0 piece piece.
Proof.
  unfold occurs_at. induction piece as [|c piece IH]; [reflexivity|].
  simpl. now rewrite IH.
Qed.

Lemma occurs_at_last_line (a piece : string) :
  occurs_at (String.length a + 1) piece (a +:+ newline +:+ piece).
Proof.
  replace (String.length a + 1)%nat with (String.length a + 1 + 0)%nat by lia.
  apply occurs_at_later_line, occurs_at_whole.
Qed.

(** X17: the script that [downloadAndPatchDebuggerWorker] writes ends with
    the completion marker, which follows the downloaded payload after one
    newline, and nothing follows the marker.  The payload can be read back
    from the script: two payloads give the same script only if they are the
    same.  The script of a Haul project is never that of another project
    for the same payload. *)
Theorem bootstrap_script_ends_with_the_marker (isHaul : bool) (workerContent : string) :
  let script := modifiedDebuggeeContent isHaul workerContent in
  String.length script
  = (payload_offset isHaul + String.length workerContent + 1 + String.length WORKER_DONE)%nat
  /\ occurs_at (payload_offset isHaul + String.length workerContent + 1) WORKER_DONE script
  /\ (forall other, modifiedDebuggeeContent isHaul other = script -> other = workerContent)
  /\ modifiedDebuggeeContent (negb isHaul) workerContent <> script.
Proof.
  intros script. subst script.
  assert (Hstub : String.length FETCH_STUB <> 0%nat) by (vm_compute; lia).
  assert (Hdiffer : String.length (if negb isHaul then FETCH_STUB else "")
                    <> String.length (if isHaul then FETCH_STUB else ""))
    by (destruct isHaul; cbn [negb String.length]; lia).
  pose proof (modifiedDebuggeeContent_unfold isHaul) as Hunfold.
  rewrite (modifiedDebuggeeContent_unfold (negb isHaul)), (Hunfold workerContent).
  unfold payload_offset. revert Hdiffer Hunfold. clear Hstub.
  generalize (if negb isHaul then FETCH_STUB else "") as stub'.
  generalize (if isHaul then FETCH_STUB else "") as stub.
  generalize WORKER_BOOTSTRAP as a, CONSOLE_TRACE_PATCH as b, NODE_PROCESS_FINDING_PATCH as c,
    WORKER_DONE as d.
  intros a b c d stub stub' Hdiffer Hunfold.
  split; [|split; [|split]].
  - rewrite !length_append. cbn [String.length newline]. lia.
  - replace (String.length a + 1 + (String.length b + 1 + (String.length c + 1
               + (String.length stub + 1))) + String.length workerContent + 1)%nat
      with (String.length a + 1 + (String.length b + 1 + (String.length c + 1
              + (String.length stub + 1 + (String.length workerContent + 1)))))%nat by lia.
    do 4 apply occurs_at_later_line. apply occurs_at_last_line.
  - intros other H. rewrite Hunfold in H.
    do 8 apply append_inv_head in H.
    now apply append_inv_tail in H.
  - intros H. do 6 apply append_inv_head in H.
    apply (f_equal String.length) in H. rewrite !length_append in H. lia.
Qed.

End MoreBootstrap.

(** * More on [start] *)

Section MoreStarting.

Context `{rt : Runtime}.

Ltac resume_fresh Hfresh :=
  rewrite resume_spawned;
    [ | unfold_state; eapply Forall_impl; [exact Hfresh|]; cbn; tauto
      | cbn; apply Nat.eqb_refl ].

Lemma reject_new_promise (e : Error any) (st : State) :
  exec (settle (length (promises st)) (Rejected e))
    (with_promises (fun ps => ps ++ [Pending]) st)
  = with_promises (fun ps => ps ++ [Rejected e]) st.
Proof.
  unfold settle. unfold_monad. unfold with_promises. cbn.
  rewrite list_lookup_middle by reflexivity.
  rewrite insert_app_r_alt by lia. now rewrite Nat.sub_diag.
Qed.

(** The chain of a first [start], stopped by a failure after [n] calls. *)
Lemma first_start_failed (n : nat) (workerContent : string) (e : Error any) (st : State) :
  invariant st ->
  let p := length (promises st) in
  let failure : Event :=
    match n with
    | 2%nat => Downloaded p (Some e)
    | 3%nat => FileRead p (inr e)
    | _ => FileWritten p (Some e)
    end in
  (2 <= n <= 4)%nat ->
  run (take n (first_start_events p workerContent) ++ [failure]) st
  = with_trace (fun t => t ++ take n (first_start_calls workerContent st))
      (with_promises (fun ps => ps ++ [Rejected e]) st).
Proof.
  intros Hinv p failure Hn. pose proof (next_promise_not_awaited st Hinv) as Hfresh.
  fold p in Hfresh. subst failure.
  assert (Hrejected : forall tr,
            exec (settle p (Rejected e))
              (with_trace (fun t => t ++ tr) (with_promises (fun ps => ps ++ [Pending]) st))
            = with_trace (fun t => t ++ tr) (with_promises (fun ps => ps ++ [Rejected e]) st)).
  { intros tr. rewrite <- (reject_new_promise e st). reflexivity. }
  destruct n as [|[|[|[|[|n]]]]]; try lia;
    cbn [take first_start_events app run fold_left handle];
    rewrite start_run; fold p; resume_fresh Hfresh;
    unfold packagerChecked_then, downloadAndPatchDebuggerWorker; unfold_monad; cbn [fst snd];
    resume_fresh Hfresh.
  - unfold_state. rewrite <- (Hrejected _). unfold_state.
    unfold first_start_calls. cbn [take]. now rewrite <- !app_assoc.
  - unfold downloaded_then. unfold_monad. cbn [fst snd]. resume_fresh Hfresh.
    unfold_state. rewrite <- (Hrejected _). unfold_state.
    unfold first_start_calls. cbn [take]. now rewrite <- !app_assoc.
  - unfold downloaded_then. unfold_monad. cbn [fst snd]. resume_fresh Hfresh.
    unfold readFile_then. unfold_monad. cbn [fst snd]. resume_fresh Hfresh.
    unfold_state. rewrite <- (Hrejected _). unfold_state.
    unfold first_start_calls. cbn [take]. now rewrite <- !app_assoc.
Qed.

(** X18: when the download of the debugger worker, the read of the
    downloaded file or the write of the patched script fails, the promise
    of [start] is rejected with that failure and the chain ends there: the
    later steps are not run, no socket is constructed, no field changes
    and no callback stays pending. *)
Theorem bootstrap_failure_rejects_the_start (workerContent : string) (e : Error any)
    (st : State) :
  reachable st ->
  let p := length (promises st) in
  let failed (evs : list Event) (n : nat) :=
    let st' := run evs st in
    trace st' = trace st ++ take n (first_start_calls workerContent st)
    /\ promises st' = promises st ++ [Rejected e]
    /\ sockets st' = sockets st /\ this st' = this st /\ tasks st' = tasks st in
  failed [CallStart false; PackagerChecked p true; Downloaded p (Some e)] 2%nat
  /\ failed [CallStart false; PackagerChecked p true; Downloaded p None;
             FileRead p (inr e)] 3%nat
  /\ failed [CallStart false; PackagerChecked p true; Downloaded p None;
             FileRead p (inl workerContent); FileWritten p (Some e)] 4%nat.
Proof.
  intros Hreach p failed. pose proof (reachable_invariant st Hreach) as Hinv.
  subst failed. cbv beta zeta.
  pose proof (first_start_failed 2 workerContent e st Hinv ltac:(lia)) as H2.
  pose proof (first_start_failed 3 workerContent e st Hinv ltac:(lia)) as H3.
  pose proof (first_start_failed 4 workerContent e st Hinv ltac:(lia)) as H4.
  cbn [take first_start_events app] in H2, H3, H4. fold p in H2, H3, H4.
  rewrite H2, H3, H4. now repeat split.
Qed.

End MoreStarting.

(** The download fails on the first [start] of a constructed object. *)
Lemma bootstrap_failure_rejects_the_start_witness :
  reachable Sample.fresh
  /\ promises (run [CallStart false; PackagerChecked 0 true;
                    @Downloaded Sample.runtime 0 (Some TypeError)] Sample.fresh)
     = [Rejected TypeError].
Proof.
  split; [apply sample_fresh_reachable|].
  destruct (@bootstrap_failure_rejects_the_start Sample.runtime "payload" TypeError
              Sample.fresh sample_fresh_reachable) as ((_ & Hpromises & _) & _).
  exact Hpromises.
Defined.

(** * More on reconnection *)

Section MoreReconnection.

Context `{rt : Runtime}.

Lemma handle_lifetime_calls (ev : Event) (st : State) :
  is_lifetime_event ev = false ->
  List.filter is_lifetime_call (trace (handle ev st))
    = List.filter is_lifetime_call (trace st)
  /\ singleLifetimeWorker (this (handle ev st)) = singleLifetimeWorker (this st).
Proof.
  intros Hev. destruct ev; try discriminate Hev; run_handler;
    (split; [same_filter | reflexivity]).
Qed.

Lemma handle_held_socket (ev : Event) (st : State) :
  is_Some (socketToApp (this st)) -> is_Some (socketToApp (this (handle ev st))).
Proof.
  intros Hheld. destruct ev; run_handler;
    try exact Hheld; try (eexists; reflexivity);
    try (destruct Hheld as [? Hheld]; discriminate Hheld);
    match goal with H : socketToApp _ = Some _ |- _ => rewrite H end; eexists; reflexivity.
Qed.

(** The close of a socket leaves the counts and the fields as they are. *)
Lemma socketClosed_frame (s : nat) (now : Z) (closeMessage : option string) (st : State) :
  let st' := handle (SocketClosed s now closeMessage) st in
  length (promises st') = length (promises st)
  /\ length (sockets st') = length (sockets st)
  /\ socketToApp (this st') = socketToApp (this st).
Proof.
  intros st'. subst st'. run_handler;
    rewrite ?length_insert, ?length_alter; now repeat split.
Qed.

Lemma take_timeout (ts : list Task) :
  AwaitTimeout ∈ ts ->
  exists rest, take_task awaits_timeout ts = Some (AwaitTimeout, rest).
Proof.
  induction ts as [|t ts IH]; intros Hin; [now apply not_elem_of_nil in Hin|].
  destruct t; cbn; try (eexists; reflexivity);
    (apply elem_of_cons in Hin as [Hin|Hin]; [discriminate Hin|];
     destruct (IH Hin) as [rest ->]; eexists; reflexivity).
Qed.

(** X19: a worker is stopped, and a new one constructed, only by [stop] and
    by the handling of a message of the socket: no other event adds a
    [stop] or a construction of a worker to the trace, or changes the
    worker the class holds. *)
Theorem only_stop_and_messages_end_a_lifetime (evs : list Event) (st : State) :
  Forall (fun ev => is_lifetime_event ev = false) evs ->
  List.filter is_lifetime_call (trace (run evs st))
    = List.filter is_lifetime_call (trace st)
  /\ singleLifetimeWorker (this (run evs st)) = singleLifetimeWorker (this st).
Proof.
  intros Hevs. revert st. induction Hevs as [|ev evs Hev _ IH]; intros st; [now split|].
  change (run (ev :: evs) st) with (run evs (handle ev st)).
  destruct (IH (handle ev st)) as [-> ->]. now apply handle_lifetime_calls.
Qed.

(** X20: once the class holds a socket it always holds one: no method
    clears [socketToApp], and [stop] closes the socket but keeps it, which
    is why a second [stop] closes it again. *)
Theorem held_socket_is_never_cleared (evs : list Event) (st : State) :
  is_Some (socketToApp (this st)) ->
  is_Some (socketToApp (this (run evs st))).
Proof.
  revert st. induction evs as [|ev evs IH]; intros st Hheld; [exact Hheld|].
  change (run (ev :: evs) st) with (run evs (handle ev st)).
  now apply IH, handle_held_socket.
Qed.

(** X21: the sandbox outlives a reconnection.  When a socket closes, the
    timer fires and the retry finds the packager running, the class holds
    the new socket and still holds the worker it held, which was neither
    stopped nor replaced; a message for the worker that arrives on the new
    socket is posted to it. *)
Theorem sandbox_survives_reconnection (s : nat) (sk : WebSocket) (now : Z)
    (closeMessage : option string) (w : nat) (next : string) (object : json) (st : State) :
  reachable st ->
  sockets st !! s = Some sk -> listeners sk = true ->
  singleLifetimeWorker (this st) = Some w ->
  forwardable next object ->
  let p := length (promises st) in
  let s' := length (sockets st) in
  let st1 := run [SocketClosed s now closeMessage; TimeoutElapsed; PackagerChecked p true]
               st in
  socketToApp (this st1) = Some s'
  /\ singleLifetimeWorker (this st1) = Some w
  /\ List.filter is_lifetime_call (trace st1) = List.filter is_lifetime_call (trace st)
  /\ trace (handle (SocketMessage s' next) st1)
     = trace st1 ++
       [LoggerVerbose ("From RN APP: " +:+ next); WorkerPostMessage w object].
Proof.
  intros Hreach Hs Hl Hw Hnext p s' st1.
  pose proof (reachable_invariant st Hreach) as Hinv.
  assert (Hkept : List.filter is_lifetime_call (trace st1)
                  = List.filter is_lifetime_call (trace st)
                  /\ singleLifetimeWorker (this st1) = singleLifetimeWorker (this st)).
  { subst st1. cbn [run fold_left].
    destruct (handle_lifetime_calls (PackagerChecked p true)
                (handle TimeoutElapsed (handle (SocketClosed s now closeMessage) st)) eq_refl)
      as [-> ->].
    destruct (handle_lifetime_calls TimeoutElapsed
                (handle (SocketClosed s now closeMessage) st) eq_refl) as [-> ->].
    now apply handle_lifetime_calls. }
  destruct Hkept as [Hcalls Hfield].
  destruct (close_sets_timer s sk now closeMessage st Hinv Hs Hl) as [_ Htasks].
  destruct (socketClosed_frame s now closeMessage st) as (Hpromises & Hsockets & _).
  assert (Hinv' : invariant (handle (SocketClosed s now closeMessage) st))
    by apply reachable_invariant, reachable_step, Hreach.
  subst st1.
  change (run [SocketClosed s now closeMessage; TimeoutElapsed; PackagerChecked p true] st)
    with (run [TimeoutElapsed; PackagerChecked p true]
            (handle (SocketClosed s now closeMessage) st)) in *.
  set (st0 := handle (SocketClosed s now closeMessage) st) in *. clearbody st0.
  destruct (take_timeout (tasks st0)) as [rest Htake].
  { rewrite Htasks. apply elem_of_app. right. apply list_elem_of_singleton. reflexivity. }
  subst p s'. rewrite <- Hpromises in Hcalls, Hfield |- *. rewrite <- Hsockets.
  destruct (retry_run rest st0 Hinv' Htake) as (_ & Hsocket & Hnew & _).
  set (st1 := run [TimeoutElapsed; PackagerChecked (length (promises st0)) true] st0) in *.
  clearbody st1.
  split; [exact Hsocket|]. split; [now rewrite Hfield|]. split; [exact Hcalls|].
  rewrite (handle_SocketMessage (length (sockets st0))
             {| listeners := true; retryAttempt := true;
                deferred := length (promises st0); _closeMessage := None |} next st1).
  - rewrite (onMessage_forwardable _ _ _ Hnext). cbn. now rewrite Hfield, Hw.
  - rewrite Hnew. apply list_lookup_middle. reflexivity.
  - reflexivity.
Qed.

End MoreReconnection.

(** The socket closes, and the retry finds the packager running. *)
Lemma only_stop_and_messages_end_a_lifetime_witness :
  singleLifetimeWorker
    (this (run [SocketClosed 0 1005000 None; TimeoutElapsed; PackagerChecked 1 true]
             Sample.debugging))
  = singleLifetimeWorker (this Sample.debugging).
Proof.
  destruct (only_stop_and_messages_end_a_lifetime
              [SocketClosed 0 1005000 None; TimeoutElapsed; PackagerChecked 1 true]
              Sample.debugging ltac:(repeat constructor)) as [_ Hfield].
  exact Hfield.
Defined.

(** [stop], and then the close of the socket. *)
Lemma held_socket_is_never_cleared_witness :
  is_Some (socketToApp (this Sample.connected))
  /\ is_Some (socketToApp (this (run [CallStop; SocketClosed 0 1005000 None]
                                   Sample.connected))).
Proof.
  assert (Hheld : is_Some (socketToApp (this Sample.connected)))
    by (exists 0%nat; reflexivity).
  split; [exact Hheld|].
  exact (held_socket_is_never_cleared [CallStop; SocketClosed 0 1005000 None]
           Sample.connected Hheld).
Defined.

(** The socket of a session with a live sandbox closes; a script to run
    arrives on the socket of the retry. *)
Lemma sandbox_survives_reconnection_witness :
  let st1 := run [SocketClosed 0 1005000 None; TimeoutElapsed;
                  PackagerChecked (length (promises Sample.debugging)) true]
               Sample.debugging in
  reachable Sample.debugging
  /\ socketToApp (this st1) = Some (length (sockets Sample.debugging))
  /\ singleLifetimeWorker (this st1) = Some 0%nat.
Proof.
  intros st1. split; [apply sample_debugging_reachable|].
  destruct (sandbox_survives_reconnection 0
              {| listeners := true; retryAttempt := false; deferred := 0; _closeMessage := None |}
              1005000 None 0 Sample.execute_script
              (JObject [("method", JString "executeApplicationScript")]) Sample.debugging
              sample_debugging_reachable eq_refl eq_refl eq_refl
              sample_execute_script_forwardable) as (Hsocket & Hfield & _).
  split; [exact Hsocket | exact Hfield].
Defined.

(** * The close of a socket the class no longer holds *)

Section MoreClosing.

Context `{rt : Runtime}.

(** X22: the listener of [close] reads the close reason on the socket the
    class holds, not on the socket that closed.  When a socket that the
    class has replaced closes, whatever its own reason, and the rate
    limiter lets the notification through, the promise of the [start] that
    made the closed socket is rejected with
    [AnotherDebuggerConnectedToPackager] exactly when the socket the class
    holds carries the known message and that promise is still pending. *)
Theorem close_reason_is_read_on_the_held_socket (s current : nat) (sk held : WebSocket)
    (now : Z) (closeMessage : option string) (st : State) :
  sockets st !! s = Some sk -> listeners sk = true ->
  socketToApp (this st) = Some current -> s <> current ->
  sockets st !! current = Some held ->
  close_admitted now st = true ->
  let st1 := handle (SocketClosed s now closeMessage) st in
  promises st1
  = (if bool_decide (_closeMessage held = Some "Another debugger is already connected")
     then match promises st !! deferred sk with
          | Some Pending => <[deferred sk := Rejected another_debugger]> (promises st)
          | _ => promises st
          end
     else promises st)
  /\ trace st1 = trace st ++ [disconnected_log; SetTimeout 100].
Proof.
  intros Hs Hl Hcur Hne Hheld Hadm st1. subst st1.
  cbn [handle]. unfold to_listeners, record_closeMessage.
  cbn [sockets with_sockets]. rewrite list_lookup_alter_eq, Hs.
  cbn [fmap option_fmap option_map listeners]. rewrite Hl.
  unfold onSocketClose, executionLimiter_execute, settle.
  unfold_monad. cbn [fst snd this with_sockets]. fold (close_admitted now st).
  rewrite Hadm. cbn. rewrite Hcur. cbn.
  rewrite list_lookup_alter_ne by congruence. rewrite Hheld.
  destruct (_closeMessage held) as [text|]; cbn.
  - destruct (String.eqb_spec text "Another debugger is already connected") as [->|Hother].
    + rewrite bool_decide_eq_true_2 by reflexivity. cbn.
      rewrite <- !app_assoc. now split.
    + rewrite bool_decide_eq_false_2 by congruence. cbn.
      rewrite <- !app_assoc. now split.
  - rewrite bool_decide_eq_false_2 by congruence. rewrite <- !app_assoc. now split.
Qed.

End MoreClosing.

(** [start] is called a second time while the socket of the first call is
    open; the first socket then closes with the known message. *)
Lemma close_reason_is_read_on_the_held_socket_witness :
  let st := run [CallStart false; PackagerChecked 1 true; Downloaded 1 None;
                 FileRead 1 (inl "payload"); FileWritten 1 None] Sample.connecting in
  (sockets st !! 0%nat
     = Some {| listeners := true; retryAttempt := false; deferred := 0; _closeMessage := None |}
   /\ socketToApp (this st) = Some 1%nat
   /\ sockets st !! 1%nat
      = Some {| listeners := true; retryAttempt := false; deferred := 1; _closeMessage := None |}
   /\ close_admitted 1000000 st = true)
  /\ promises (handle (SocketClosed 0 1000000 (Some "Another debugger is already connected"))
                 st)
     = promises st.
Proof.
  intros st. split; [repeat split; vm_compute; reflexivity|].
  destruct (close_reason_is_read_on_the_held_socket 0 1
              {| listeners := true; retryAttempt := false; deferred := 0; _closeMessage := None |}
              {| listeners := true; retryAttempt := false; deferred := 1; _closeMessage := None |}
              1000000 (Some "Another debugger is already connected") st
              eq_refl eq_refl eq_refl ltac:(discriminate) eq_refl eq_refl) as [Hpromises _].
  exact Hpromises.
Defined.
